(** * Lexicographic hotel LCO: the two Pyomo model builders and their
      two-tier drivers, embedded and verified

    Sources: [src/pyomo_lco_mini.py] (module [Mini]) and
    [src/static_lco_model.py] (module [Static]).

    Conventions of the embedding.
    - Python integers are [Z]; Python floats (prices, probabilities, solver
      values, tolerances) are idealised as rationals [Q].
    - A Python [dict] with integer keys is a [gmap Z _]; a Python [set] of
      tuples is a [gset]. The iteration order of a dict is the map's own
      enumeration order, not Python's insertion order; it only fixes the order
      in which terms and result rows are listed.
    - Raising an exception is the [Raise] branch of [result].
    - Pyomo components are modelled by their content: a [Set] by its members,
      a [Param] by its validated data, a [Var] by its index set, a
      [Constraint] block by its map from indices to relational expressions,
      and expressions by their syntax trees. *)

From Stdlib Require Import ZArith QArith Lia Lqa.
From stdpp Require Import base option list sorting gmap sets strings.

Open Scope Z_scope.

(** ** Python: exceptions, the error monad, [range], [sum] *)

Module Py.

Inductive exn : Type :=
  | KeyError
  | ValueError
  | RuntimeError
  | SolverError (code : Z).

Inductive result (A : Type) : Type :=
  | Ok (x : A)
  | Raise (e : exn).
Arguments Ok {A} x.
Arguments Raise {A} e.

#[global] Instance result_ret : MRet result := fun _ x => Ok x.
#[global] Instance result_bind : MBind result := fun _ _ f r =>
  match r with Ok x => f x | Raise e => Raise e end.
#[global] Instance result_fmap : FMap result := fun _ _ f r =>
  match r with Ok x => Ok (f x) | Raise e => Raise e end.

Definition is_Ok {A} (r : result A) : Prop := exists x, r = Ok x.

(** [range(lo, hi)] *)
Definition range (lo hi : Z) : list Z := seqZ lo (hi - lo).

(** [d[k]] on a dict: [KeyError] when the key is absent. *)
Definition dict_get {V} (d : gmap Z V) (k : Z) : result V :=
  match d !! k with
  | Some v => Ok v
  | None => Raise KeyError
  end.

(** A comprehension [... for x in l ...] whose body may raise: the bodies are
    run in order, the first exception wins. *)
Definition comprehend {A B} (l : list A) (f : A -> result (list B))
  : result (list B) :=
  ls ← mapM f l; Ok (mjoin ls).

End Py.
Export Py.

(** ** Pyomo: variables, expressions, constraints, components *)

Module Pyomo.

(** The three variable families of both models: [m.a[b]], [m.y[b,r,d]],
    [m.w[d]]. *)
Inductive var : Type :=
  | Va (b : Z)
  | Vy (b r d : Z)
  | Vw (d : Z).

Inductive expr : Type :=
  | EConst (q : Q)
  | EVar (v : var)
  | EAdd (e1 e2 : expr)
  | ESub (e1 e2 : expr)
  | EMul (e1 e2 : expr).

(** Python's builtin [sum(xs)]: [0 + x1 + x2 + ...]. *)
Definition py_sum (xs : list expr) : expr :=
  fold_left EAdd xs (EConst 0).

(** An expression is a plain Python number exactly when no Pyomo variable
    occurs in it (all Params here are immutable, so they are numbers). *)
Fixpoint is_native (e : expr) : bool :=
  match e with
  | EConst _ => true
  | EVar _ => false
  | EAdd e1 e2 | ESub e1 e2 | EMul e1 e2 => is_native e1 && is_native e2
  end.

Inductive constraint : Type :=
  | CLe (lhs rhs : expr)   (* lhs <= rhs *)
  | CEq (lhs rhs : expr)   (* lhs == rhs *)
  | CGe (lhs rhs : expr).  (* lhs >= rhs *)

Definition constraint_native (c : constraint) : bool :=
  match c with
  | CLe l r | CEq l r | CGe l r => is_native l && is_native r
  end.

(** What a constraint rule returns. *)
Inductive rule_result : Type :=
  | Skip                       (* Constraint.Skip *)
  | Rel (c : constraint).

(** [Constraint(expr=...)] / one index of [Constraint(index, rule=...)]: a
    comparison of two Python numbers is a Python [bool], which Pyomo rejects
    with a [ValueError]. *)
Definition check_relational (c : constraint) : result constraint :=
  if constraint_native c then Raise ValueError else Ok c.

Definition add_indexed {I} (i : I) (r : rule_result)
  : result (list (I * constraint)) :=
  match r with
  | Skip => Ok []
  | Rel c => c' ← check_relational c; Ok [(i, c')]
  end.

(** [Constraint(index, rule=rule)]: the rule is called on every index in
    order; skipped indices get no constraint at all. *)
Definition Constraint_block {I} (index : list I) (rule : I -> result rule_result)
  : result (list (I * constraint)) :=
  comprehend index (fun i => r ← rule i; add_indexed i r).

Inductive sense : Type := maximize | minimize.

Record Objective : Type := { obj_expr : expr; obj_sense : sense }.

(** [Param(index, initialize=init, within=dom)]: every key must belong to the
    index set and every value to the domain. *)
Definition Param {V} (index : list Z) (init : gmap Z V) (within : V -> bool)
  : result (gmap Z V) :=
  _ ← mapM (fun kv : Z * V =>
         if decide (kv.1 ∈ index)
         then (if within kv.2 then Ok kv else Raise ValueError)
         else Raise KeyError) (map_to_list init);
  Ok init.

Definition Any {V} (_ : V) : bool := true.

(** [p[k]] on a Param without default. *)
Definition param_get {V} (index : list Z) (p : gmap Z V) (k : Z) : result V :=
  if decide (k ∈ index)
  then match p !! k with Some v => Ok v | None => Raise ValueError end
  else Raise KeyError.

(** [m.a[b]], [m.y[b,r,d]], [m.w[d]]: [KeyError] outside the index set. *)
Definition var_a (B : list Z) (b : Z) : result expr :=
  if decide (b ∈ B) then Ok (EVar (Va b)) else Raise KeyError.
Definition var_y (YIDX : gset (Z * Z * Z)) (b r d : Z) : result expr :=
  if decide ((b, r, d) ∈ YIDX) then Ok (EVar (Vy b r d)) else Raise KeyError.
Definition var_w (D : list Z) (d : Z) : result expr :=
  if decide (d ∈ D) then Ok (EVar (Vw d)) else Raise KeyError.

(** The model object [m]. Attribute names follow [static_lco_model.py]; the
    mini file calls [m_len] [m.len], [m_Overbook] [m.OverbookSlack] and
    [m_RevExpr] [m.RevenueExpr]. [m_val] holds the current value of every
    variable ([None] before a solution has been loaded). *)
Record Model : Type := {
  m_B : list Z;
  m_R : list Z;
  m_D : list Z;
  m_start : gmap Z Z;
  m_len : gmap Z Z;
  m_price : gmap Z Q;
  m_showp : gmap Z Q;
  m_cap : gmap Z Z;
  m_InStay : gset (Z * Z);
  m_YIDX : gset (Z * Z * Z);
  m_ContPair : gset (Z * Z * Z);
  m_RoomExcl : list (Z * Z * constraint);
  m_Assign : list (Z * Z * constraint);
  m_Continuity : list (Z * Z * Z * constraint);
  m_Overbook : list (Z * constraint);
  m_RevExpr : expr;
  m_obj : option Objective;
  m_RevenueFloor : option constraint;
  m_val : var -> option Q
}.

(** [value(e)]: [ValueError] when a variable in [e] has no value. *)
Fixpoint value (vals : var -> option Q) (e : expr) : result Q :=
  match e with
  | EConst q => Ok q
  | EVar v => match vals v with Some q => Ok q | None => Raise ValueError end
  | EAdd e1 e2 => x ← value vals e1; y ← value vals e2; Ok (x + y)%Q
  | ESub e1 e2 => x ← value vals e1; y ← value vals e2; Ok (x - y)%Q
  | EMul e1 e2 => x ← value vals e1; y ← value vals e2; Ok (x * y)%Q
  end.

(** Meaning of expressions and constraints under a total valuation. *)
Fixpoint eval (val : var -> Q) (e : expr) : Q :=
  match e with
  | EConst q => q
  | EVar v => val v
  | EAdd e1 e2 => eval val e1 + eval val e2
  | ESub e1 e2 => eval val e1 - eval val e2
  | EMul e1 e2 => eval val e1 * eval val e2
  end%Q.

Definition holds (val : var -> Q) (c : constraint) : Prop :=
  match c with
  | CLe l r => (eval val l <= eval val r)%Q
  | CEq l r => (eval val l == eval val r)%Q
  | CGe l r => (eval val r <= eval val l)%Q
  end.

Definition binary (q : Q) : Prop := (q == 0)%Q \/ (q == 1)%Q.

(** A feasible point of the model: variable domains ([Binary] for [a] and
    [y], [NonNegativeReals] for [w]) and every constraint present. *)
Record feasible (m : Model) (val : var -> Q) : Prop := {
  feas_a : forall b, b ∈ m_B m -> binary (val (Va b));
  feas_y : forall b r d, (b, r, d) ∈ m_YIDX m -> binary (val (Vy b r d));
  feas_w : forall d, d ∈ m_D m -> (0 <= val (Vw d))%Q;
  feas_RoomExcl : forall i c, (i, c) ∈ m_RoomExcl m -> holds val c;
  feas_Assign : forall i c, (i, c) ∈ m_Assign m -> holds val c;
  feas_Continuity : forall i c, (i, c) ∈ m_Continuity m -> holds val c;
  feas_Overbook : forall i c, (i, c) ∈ m_Overbook m -> holds val c;
  feas_RevenueFloor : forall c, m_RevenueFloor m = Some c -> holds val c
}.

(** The external solve backend: it either raises or returns a status
    together with the variable values it loads into the model. *)
Inductive status : Type := OPTIMAL | INFEASIBLE | UNBOUNDED | ERROR.

Inductive reply : Type :=
  | Returned (st : status) (vals : var -> option Q)
  | Raised (e : exn).

(** The solve session: the live model, mutated in place, and the models
    handed to the backend so far, oldest first. *)
Record Session : Type := { live : Model; calls : list Model }.

Definition M (A : Type) : Type := Session -> Session * result A.

#[global] Instance M_ret : MRet M := fun _ x s => (s, Ok x).
#[global] Instance M_bind : MBind M := fun _ _ k c s =>
  match c s with
  | (s', Ok x) => k x s'
  | (s', Raise e) => (s', Raise e)
  end.
(** Lift a read-only computation on the live model. *)
Definition readM {A} (f : Model -> result A) : M A := fun s => (s, f (live s)).
(** Mutate the live model. *)
Definition updateM (f : Model -> Model) : M unit := fun s =>
  ({| live := f (live s); calls := calls s |}, Ok tt).

Definition set_val (vals : var -> option Q) (m : Model) : Model :=
  {| m_B := m_B m; m_R := m_R m; m_D := m_D m;
     m_start := m_start m; m_len := m_len m; m_price := m_price m;
     m_showp := m_showp m; m_cap := m_cap m;
     m_InStay := m_InStay m; m_YIDX := m_YIDX m; m_ContPair := m_ContPair m;
     m_RoomExcl := m_RoomExcl m; m_Assign := m_Assign m;
     m_Continuity := m_Continuity m; m_Overbook := m_Overbook m;
     m_RevExpr := m_RevExpr m; m_obj := m_obj m;
     m_RevenueFloor := m_RevenueFloor m; m_val := vals |}.

Definition set_RevenueFloor (c : constraint) (m : Model) : Model :=
  {| m_B := m_B m; m_R := m_R m; m_D := m_D m;
     m_start := m_start m; m_len := m_len m; m_price := m_price m;
     m_showp := m_showp m; m_cap := m_cap m;
     m_InStay := m_InStay m; m_YIDX := m_YIDX m; m_ContPair := m_ContPair m;
     m_RoomExcl := m_RoomExcl m; m_Assign := m_Assign m;
     m_Continuity := m_Continuity m; m_Overbook := m_Overbook m;
     m_RevExpr := m_RevExpr m; m_obj := m_obj m;
     m_RevenueFloor := Some c; m_val := m_val m |}.

Definition set_obj (o : option Objective) (m : Model) : Model :=
  {| m_B := m_B m; m_R := m_R m; m_D := m_D m;
     m_start := m_start m; m_len := m_len m; m_price := m_price m;
     m_showp := m_showp m; m_cap := m_cap m;
     m_InStay := m_InStay m; m_YIDX := m_YIDX m; m_ContPair := m_ContPair m;
     m_RoomExcl := m_RoomExcl m; m_Assign := m_Assign m;
     m_Continuity := m_Continuity m; m_Overbook := m_Overbook m;
     m_RevExpr := m_RevExpr m; m_obj := o;
     m_RevenueFloor := m_RevenueFloor m; m_val := m_val m |}.

(** [solver.solve(m)]: the backend sees the live model; on return its values
    are loaded into the model. The returned status is the results object. *)
Definition solve (backend : Model -> reply) : M status := fun s =>
  let s' := fun m => {| live := m; calls := calls s ++ [live s] |} in
  match backend (live s) with
  | Returned st vals => (s' (set_val vals (live s)), Ok st)
  | Raised e => (s' (live s), Raise e)
  end.

(** [m.RevenueFloor = Constraint(expr=c)] *)
Definition add_RevenueFloor (c : constraint) : M unit := fun s =>
  match check_relational c with
  | Ok c' => updateM (set_RevenueFloor c') s
  | Raise e => (s, Raise e)
  end.

(** [m.del_component(m.obj)] *)
Definition del_obj : M unit := updateM (set_obj None).

(** [m.obj = Objective(expr=e, sense=sn)] *)
Definition new_obj (e : expr) (sn : sense) : M unit :=
  updateM (set_obj (Some {| obj_expr := e; obj_sense := sn |})).

(** [x > 0.5] and [x <= 0.5] on floats. *)
Definition above_half (x : Q) : bool := negb (Qle_bool x (1 # 2)).

End Pyomo.
Export Pyomo.

(** ** Code the two files share

    Both files define the same constraint rules, the same Tier-1 revenue
    expression, the same floor-and-swap sequence and the same room scan; they
    are embedded once. Names are those of [static_lco_model.py]; the mini
    file calls [assign_link] [assign_if_accepted] and [overbooking]
    [overbook_slack]. *)

Module Common.

Section Rules.
(** What the rules read from the model under construction. *)
Context (mB mR mD : list Z) (showp : gmap Z Q) (cap : gmap Z Z)
        (InStay : gset (Z * Z)) (YIDX : gset (Z * Z * Z)).

(** [sum(m.y[b, r, d] for b in m.B if (b, d) in m.InStay) <= 1] *)
Definition room_excl (rd : Z * Z) : result rule_result :=
  let '(r, d) := rd in
  ys ← mapM (fun b => var_y YIDX b r d)
            (filter (fun b => (b, d) ∈ InStay) mB);
  Ok (Rel (CLe (py_sum ys) (EConst 1))).

(** [Constraint.Skip] outside [InStay], else
    [sum(m.y[b, r, d] for r in m.R) == m.a[b]] *)
Definition assign_link (bd : Z * Z) : result rule_result :=
  let '(b, d) := bd in
  if decide ((b, d) ∉ InStay) then Ok Skip
  else
    ys ← mapM (fun r => var_y YIDX b r d) mR;
    ab ← var_a mB b;
    Ok (Rel (CEq (py_sum ys) ab)).

(** [m.y[b, r, d] == m.y[b, r, d + 1]] *)
Definition continuity (brd : Z * Z * Z) : result rule_result :=
  let '(b, r, d) := brd in
  y1 ← var_y YIDX b r d;
  y2 ← var_y YIDX b r (d + 1);
  Ok (Rel (CEq y1 y2)).

(** [m.w[d] >= sum(m.a[b] * m.showp[b] for b in m.B if (b, d) in m.InStay)
               - m.cap[d]] *)
Definition overbooking (d : Z) : result rule_result :=
  exp_shows ← mapM (fun b =>
                 ab ← var_a mB b;
                 p ← param_get mB showp b;
                 Ok (EMul ab (EConst p)))
               (filter (fun b => (b, d) ∈ InStay) mB);
  wd ← var_w mD d;
  c ← param_get mD cap d;
  Ok (Rel (CGe wd (ESub (py_sum exp_shows) (EConst (inject_Z c))))).

End Rules.

(** [{(b, r, d) for (b, d) in instay for r in rooms}] *)
Definition yidx_of (rooms : list Z) (in_stay : gset (Z * Z))
  : gset (Z * Z * Z) :=
  list_to_set (bd ← elements in_stay; r ← rooms; [(bd.1, r, bd.2)]).

(** The terms of [sum(m.a[b] * m.price[b] * m.length[b] for b in m.B)]. *)
Definition revenue_terms (mB : list Z) (price : gmap Z Q) (len : gmap Z Z)
  : result (list expr) :=
  mapM (fun b =>
    ab ← var_a mB b;
    p ← param_get mB price b;
    L ← param_get mB len b;
    Ok (EMul (EMul ab (EConst p)) (EConst (inject_Z L)))) mB.

(** Tier L2 solve, revenue floor, objective swap, Tier L3 solve; returns
    [Z2]. The statuses returned by the two solves ([res2]/[res_L2] and
    [res3]/[res_L3]) are bound and never read. *)
Definition solve_tiers (backend : Model -> reply) (eps : Q) : M Q :=
  res2 ← solve backend;
  Z2 ← readM (fun m => value (m_val m) (m_RevExpr m));
  rev ← readM (fun m => Ok (m_RevExpr m));
  add_RevenueFloor (CGe rev (EConst (Z2 - eps)%Q));;
  del_obj;;
  ws ← readM (fun m => mapM (var_w (m_D m)) (m_D m));
  new_obj (py_sum ws) minimize;;
  res3 ← solve backend;
  mret Z2.

(** The inner loops of the room scan:
    [for r in m.R: ok = all(key in YIDX and value(y[key]) > 0.5 for d in sdays)],
    first fitting room wins, [None] when the loop ends without one. *)
Fixpoint all_days_ok (m : Model) (b r : Z) (sdays : list Z) : result bool :=
  match sdays with
  | [] => Ok true
  | d :: rest =>
      if decide ((b, r, d) ∉ m_YIDX m) then Ok false
      else
        yk ← var_y (m_YIDX m) b r d;
        v ← value (m_val m) yk;
        if Qle_bool v (1 # 2) then Ok false else all_days_ok m b r rest
  end.

Fixpoint scan_rooms (m : Model) (b : Z) (sdays : list Z) (rs : list Z)
  : result (option Z) :=
  match rs with
  | [] => Ok None
  | r :: rest =>
      ok ← all_days_ok m b r sdays;
      if ok : bool then Ok (Some r) else scan_rooms m b sdays rest
  end.

(** [(d, value(m.w[d]))] for every day, in order. *)
Definition slack_values (m : Model) : result (list (Z * Q)) :=
  mapM (fun d => wd ← var_w (m_D m) d; v ← value (m_val m) wd; Ok (d, v))
       (m_D m).

(** [value(m.a[b]) > 0.5] *)
Definition accepted_now (m : Model) (b : Z) : result bool :=
  ab ← var_a (m_B m) b;
  v ← value (m_val m) ab;
  Ok (above_half v).

End Common.
Export Common.

(** ** [pyomo_lco_mini.py] *)

Module Mini.

(** The module-level data of the script: [DAYS], [ROOMS] and the [bookings]
    table [id -> (start_day, length_of_stay, price_per_night, show_prob)]. *)
Record Globals : Type := {
  DAYS : Z;
  ROOMS : Z;
  bookings : gmap Z (Z * Z * Q * Q)
}.

(** A row [(start_day, length_of_stay, price_per_night, show_prob)]. *)
Definition row (s L : Z) (price showp : Q) : Z * Z * Q * Q :=
  (s, L, price, showp).

(** The values the script gives them. *)
Definition script_bookings : gmap Z (Z * Z * Q * Q) :=
  list_to_map
    [ (1,  row 1 2 120 0.92); (2,  row 1 3 110 0.85);
      (3,  row 2 2 150 0.90); (4,  row 2 3 130 0.80);
      (5,  row 3 2 140 0.88); (6,  row 3 3 100 0.83);
      (7,  row 4 2 160 0.87); (8,  row 4 2 115 0.78);
      (9,  row 5 1 200 0.95); (10, row 1 1 180 0.90);
      (11, row 2 1 170 0.82); (12, row 3 1 175 0.89) ].

Definition script : Globals :=
  {| DAYS := 5; ROOMS := 10; bookings := script_bookings |}.

Record DemoResult : Type := {
  Z2 : Q;
  slack_sum : Q;
  daily_slack : gmap Z Q;
  accepted_bookings : list (Z * list Z * option Z)
}.

Section Script.
Context (g : Globals).

Definition days : list Z := range 1 (DAYS g + 1).
Definition rooms : list Z := range 1 (ROOMS g + 1).

(** [CAP = {d: ROOMS for d in days}] *)
Definition CAP : gmap Z Z := list_to_map ((fun d => (d, ROOMS g)) <$> days).

(** [B = list(bookings.keys())] *)
Definition B : list Z := (map_to_list (bookings g)).*1.

Definition stay_days (bid : Z) : result (list Z) :=
  '(s, L, _, _) ← dict_get (bookings g) bid;
  Ok (range s (Z.min (s + L) (DAYS g + 1))).

(** [{(b, d) for b in B for d in days if d in stay_days(b)}] *)
Definition in_stay_list : result (list (Z * Z)) :=
  comprehend B (fun b =>
    comprehend days (fun d =>
      sd ← stay_days b;
      Ok (if decide (d ∈ sd) then [(b, d)] else []))).

(** [{(b, r, d) for b in B for r in rooms for d in days
       if d in stay_days(b) and (d + 1) in stay_days(b)}] *)
Definition cont_list : result (list (Z * Z * Z)) :=
  comprehend B (fun b =>
    comprehend rooms (fun r =>
      comprehend days (fun d =>
        sd ← stay_days b;
        if decide (d ∈ sd)
        then sd' ← stay_days b;
             Ok (if decide (d + 1 ∈ sd') then [(b, r, d)] else [])
        else Ok []))).

(** The dict comprehensions [{b: bookings[b][i] for b in B}] are the
    projections of the table. *)
Definition build_model : result Model :=
  let mB := B in
  let mR := rooms in
  let mD := days in
  start ← Param mB ((fun t => t.1.1.1) <$> bookings g) Any;
  len ← Param mB ((fun t => t.1.1.2) <$> bookings g) Any;
  price ← Param mB ((fun t => t.1.2) <$> bookings g) Any;
  showp ← Param mB ((fun t => t.2) <$> bookings g) Any;
  cap ← Param mD CAP Any;
  in_stay_l ← in_stay_list;
  let in_stay : gset (Z * Z) := list_to_set in_stay_l in
  let yidx := yidx_of rooms in_stay in
  cont_l ← cont_list;
  let cont : gset (Z * Z * Z) := list_to_set cont_l in
  RoomExcl ← Constraint_block (r ← mR; d ← mD; [(r, d)])
                (room_excl mB in_stay yidx);
  Assign ← Constraint_block (b ← mB; d ← mD; [(b, d)])
                (assign_link mB mR in_stay yidx);
  Continuity ← Constraint_block (elements cont) (continuity yidx);
  OverbookSlack ← Constraint_block mD (overbooking mB mD showp cap in_stay);
  terms ← revenue_terms mB price len;
  let RevenueExpr := py_sum terms in
  Ok {| m_B := mB; m_R := mR; m_D := mD;
        m_start := start; m_len := len; m_price := price; m_showp := showp;
        m_cap := cap;
        m_InStay := in_stay; m_YIDX := yidx; m_ContPair := cont;
        m_RoomExcl := RoomExcl; m_Assign := Assign;
        m_Continuity := Continuity; m_Overbook := OverbookSlack;
        m_RevExpr := RevenueExpr;
        m_obj := Some {| obj_expr := RevenueExpr; obj_sense := maximize |};
        m_RevenueFloor := None;
        m_val := fun _ => None |}.

(** The accepted-bookings loop of [run_two_tier_demo]. *)
Definition extract_assignments (m : Model)
  : result (list (Z * list Z * option Z)) :=
  comprehend (m_B m) (fun b =>
    acc ← accepted_now m b;
    if acc : bool
    then sdays ← stay_days b;
         assigned_r ← scan_rooms m b sdays (m_R m);
         Ok [(b, sdays, assigned_r)]
    else Ok []).

Section Solver.
(** The environment: which solver plugins are usable, and the backend each
    one stands for. *)
Context (available : string -> result bool)
        (backend : string -> Model -> reply).

(** [get_solver]: the first of HiGHS, CBC that reports itself available; an
    exception while probing moves on to the next name. *)
Fixpoint first_available (names : list string) : result string :=
  match names with
  | [] => Raise RuntimeError
  | name :: rest =>
      match available name with
      | Ok true => Ok name
      | _ => first_available rest
      end
  end.

Definition get_solver : result string :=
  first_available ["highs"; "cbc"]%string.

(** The body of [run_two_tier_demo] after [build_model] and [get_solver];
    printing is left out. *)
Definition two_tier (solver : string) (eps : Q) : M DemoResult :=
  Z2 ← solve_tiers (backend solver) eps;
  sl ← readM slack_values;
  let slack_sum := fold_left Qplus sl.*2 0%Q in
  sl' ← readM slack_values;
  let daily_slack : gmap Z Q := list_to_map sl' in
  assignments ← readM extract_assignments;
  mret {| Z2 := Z2; slack_sum := slack_sum; daily_slack := daily_slack;
          accepted_bookings := assignments |}.

(** [run_two_tier_demo(eps=1e-6)]: the result (or the exception) together
    with the models handed to the backend, oldest first. *)
Definition run_two_tier_demo (eps : option Q)
  : list Model * result DemoResult :=
  match build_model with
  | Raise e => ([], Raise e)
  | Ok m =>
      match get_solver with
      | Raise e => ([], Raise e)
      | Ok solver =>
          let sr := two_tier solver (default (1 # 1000000)%Q eps)
                      {| live := m; calls := [] |} in
          (calls sr.1, sr.2)
      end
  end.

End Solver.
End Script.

End Mini.

(** ** [static_lco_model.py] *)

Module Static.

Record BookingSpec : Type := {
  start_day : Z;
  length_of_stay : Z;
  price_per_night : Q;
  show_prob : Q
}.

Record LCOResult : Type := {
  revenue_L2 : Q;
  slack_L3 : Q;
  accepted_bookings : list Z;
  room_assignments : gmap Z (option Z * list Z);
  slack_by_day : gmap Z Q
}.

Definition build_default_bookings : gmap Z BookingSpec :=
  let raw : gmap Z (Z * Z * Q * Q) :=
    list_to_map
      [ (1,  Mini.row 1 2 120 0.92); (2,  Mini.row 1 3 110 0.85);
        (3,  Mini.row 2 2 150 0.90); (4,  Mini.row 2 3 130 0.80);
        (5,  Mini.row 3 2 140 0.88); (6,  Mini.row 3 3 100 0.83);
        (7,  Mini.row 4 2 160 0.87); (8,  Mini.row 4 2 115 0.78);
        (9,  Mini.row 5 1 200 0.95); (10, Mini.row 1 1 180 0.90);
        (11, Mini.row 2 1 170 0.82); (12, Mini.row 3 1 175 0.89) ] in
  (fun vals : Z * Z * Q * Q =>
     {| start_day := vals.1.1.1; length_of_stay := vals.1.1.2;
        price_per_night := vals.1.2; show_prob := vals.2 |})
  <$> raw.

(** [_stay_days(b)] (and its copy [_stay_days_local]) read the model. *)
Definition _stay_days (mB mD : list Z) (start length : gmap Z Z) (b : Z)
  : result (list Z) :=
  s ← param_get mB start b;
  L ← param_get mB length b;
  Ok (filter (fun d => d >= s ∧ d < s + L) mD).

Definition build_static_lco_model
    (bookings : option (gmap Z BookingSpec)) (days rooms : Z)
    (capacity_by_day : option (gmap Z Z)) : result Model :=
  let bookings := default build_default_bookings bookings in
  let mD := range 1 (days + 1) in
  let mR := range 1 (rooms + 1) in
  let mB := (map_to_list bookings).*1 in
  start ← Param mB (start_day <$> bookings) (fun v => bool_decide (v ∈ mD));
  length ← Param mB (length_of_stay <$> bookings) Any;
  price ← Param mB (price_per_night <$> bookings) Any;
  showp ← Param mB (show_prob <$> bookings) Any;
  let capacity_by_day :=
    default (list_to_map ((fun d => (d, rooms)) <$> range 1 (days + 1)))
            capacity_by_day in
  cap ← Param mD capacity_by_day Any;
  instay_l ← comprehend mB (fun b =>
    comprehend mD (fun d =>
      sd ← _stay_days mB mD start length b;
      Ok (if decide (d ∈ sd) then [(b, d)] else [])));
  let instay : gset (Z * Z) := list_to_set instay_l in
  let yidx := yidx_of mR instay in
  let cont : gset (Z * Z * Z) :=
    list_to_set
      (b ← mB; r ← mR; d ← mD;
       if decide ((b, d) ∈ instay ∧ (b, d + 1) ∈ instay)
       then [(b, r, d)] else []) in
  RoomExcl ← Constraint_block (r ← mR; d ← mD; [(r, d)])
                (room_excl mB instay yidx);
  Assign ← Constraint_block (b ← mB; d ← mD; [(b, d)])
                (assign_link mB mR instay yidx);
  Continuity ← Constraint_block (elements cont) (continuity yidx);
  Overbook ← Constraint_block mD (overbooking mB mD showp cap instay);
  terms ← revenue_terms mB price length;
  let RevExpr := py_sum terms in
  Ok {| m_B := mB; m_R := mR; m_D := mD;
        m_start := start; m_len := length; m_price := price;
        m_showp := showp; m_cap := cap;
        m_InStay := instay; m_YIDX := yidx; m_ContPair := cont;
        m_RoomExcl := RoomExcl; m_Assign := Assign;
        m_Continuity := Continuity; m_Overbook := Overbook;
        m_RevExpr := RevExpr;
        m_obj := Some {| obj_expr := RevExpr; obj_sense := maximize |};
        m_RevenueFloor := None;
        m_val := fun _ => None |}.

(** [[int(b) for b in m.B if value(m.a[b]) > 0.5]] *)
Definition extract_accepted (m : Model) : result (list Z) :=
  comprehend (m_B m) (fun b =>
    acc ← accepted_now m b;
    Ok (if acc : bool then [b] else [])).

(** The [room_assignments] loop over the accepted bookings. *)
Fixpoint extract_rooms (m : Model) (accepted : list Z)
    (room_assignments : gmap Z (option Z * list Z))
  : result (gmap Z (option Z * list Z)) :=
  match accepted with
  | [] => Ok room_assignments
  | b :: rest =>
      sdays ← _stay_days (m_B m) (m_D m) (m_start m) (m_len m) b;
      chosen_room ← scan_rooms m b sdays (m_R m);
      extract_rooms m rest (<[b := (chosen_room, sdays)]> room_assignments)
  end.

Section Solver.
(** [SolverFactory(solver_name)] never raises by itself: an unusable solver
    shows as the backend raising at [solve]. *)
Context (backend : string -> Model -> reply).

Definition two_tier (solver_name : string) (revenue_floor_tolerance : Q)
  : M LCOResult :=
  Z2 ← solve_tiers (backend solver_name) revenue_floor_tolerance;
  sl ← readM slack_values;
  let slack_by_day : gmap Z Q := list_to_map sl in
  let slack_sum := fold_left Qplus (map_to_list slack_by_day).*2 0%Q in
  accepted ← readM extract_accepted;
  rooms ← readM (fun m => extract_rooms m accepted ∅);
  mret {| revenue_L2 := Z2; slack_L3 := slack_sum;
          accepted_bookings := accepted; room_assignments := rooms;
          slack_by_day := slack_by_day |}.

(** [solve_two_tier_lco(bookings=None, days=5, rooms=10,
      capacity_by_day=None, solver_name="highs",
      revenue_floor_tolerance=1e-6)]: the result (or the exception) together
    with the models handed to the backend, oldest first. *)
Definition solve_two_tier_lco
    (bookings : option (gmap Z BookingSpec)) (days rooms : Z)
    (capacity_by_day : option (gmap Z Z)) (solver_name : string)
    (revenue_floor_tolerance : option Q)
  : list Model * result LCOResult :=
  match build_static_lco_model bookings days rooms capacity_by_day with
  | Raise e => ([], Raise e)
  | Ok m =>
      let sr := two_tier solver_name
                  (default (1 # 1000000)%Q revenue_floor_tolerance)
                  {| live := m; calls := [] |} in
      (calls sr.1, sr.2)
  end.

End Solver.

End Static.


(** * Vocabulary of the specification *)

Fixpoint Qsum (l : list Q) : Q :=
  match l with
  | [] => 0
  | x :: l => x + Qsum l
  end%Q.

(** The constraints the rules build, written out. *)
Definition room_excl_constraint (mB : list Z) (InStay : gset (Z * Z))
    (r d : Z) : constraint :=
  CLe (py_sum (map (fun b => EVar (Vy b r d))
                   (filter (fun b => (b, d) ∈ InStay) mB)))
      (EConst 1).

Definition assign_constraint (mR : list Z) (b d : Z) : constraint :=
  CEq (py_sum (map (fun r => EVar (Vy b r d)) mR)) (EVar (Va b)).

Definition continuity_constraint (b r d : Z) : constraint :=
  CEq (EVar (Vy b r d)) (EVar (Vy b r (d + 1))).

Definition overbooking_constraint (mB : list Z) (showp : gmap Z Q)
    (InStay : gset (Z * Z)) (cap_d : Z) (d : Z) : constraint :=
  CGe (EVar (Vw d))
      (ESub (py_sum (map (fun b => EMul (EVar (Va b))
                                        (EConst (default 0%Q (showp !! b))))
                         (filter (fun b => (b, d) ∈ InStay) mB)))
            (EConst (inject_Z cap_d))).

(** One term of the Tier-1 revenue: [accept[b] * price * length]. *)
Definition revenue_term (b : Z) (price : Q) (len : Z) : expr :=
  EMul (EMul (EVar (Va b)) (EConst price)) (EConst (inject_Z len)).

(** The Tier-2 objective: minimize the sum over the days of [slack[d]]. *)
Definition tier2_objective (mD : list Z) : Objective :=
  {| obj_expr := py_sum (map (fun d => EVar (Vw d)) mD);
     obj_sense := minimize |}.

(** The revenue floor [RevenueExpr >= Z1 - eps]. *)
Definition revenue_floor (rev : expr) (Z1 eps : Q) : constraint :=
  CGe rev (EConst (Z1 - eps)%Q).

(** What a freshly built model looks like: index sets, constraint blocks,
    revenue expression and objective, all in terms of [m_InStay]. *)
Record built (m : Model) : Prop := {
  bt_R : NoDup (m_R m);
  bt_InStay : forall b d, (b, d) ∈ m_InStay m -> b ∈ m_B m /\ d ∈ m_D m;
  bt_convex : forall b d1 d2 d,
    (b, d1) ∈ m_InStay m -> (b, d2) ∈ m_InStay m -> d1 <= d <= d2 ->
    (b, d) ∈ m_InStay m;
  bt_YIDX : forall b r d,
    (b, r, d) ∈ m_YIDX m <-> (b, d) ∈ m_InStay m /\ r ∈ m_R m;
  bt_ContPair : forall b r d,
    (b, r, d) ∈ m_ContPair m <->
    (b, d) ∈ m_InStay m /\ (b, d + 1) ∈ m_InStay m /\ r ∈ m_R m;
  bt_RoomExcl : forall r d c,
    (r, d, c) ∈ m_RoomExcl m <->
    r ∈ m_R m /\ d ∈ m_D m /\
    c = room_excl_constraint (m_B m) (m_InStay m) r d;
  bt_Assign : forall b d c,
    (b, d, c) ∈ m_Assign m <->
    (b, d) ∈ m_InStay m /\ c = assign_constraint (m_R m) b d;
  bt_Continuity : forall b r d c,
    (b, r, d, c) ∈ m_Continuity m <->
    (b, r, d) ∈ m_ContPair m /\ c = continuity_constraint b r d;
  bt_Overbook : forall d c,
    (d, c) ∈ m_Overbook m <->
    d ∈ m_D m /\
    exists cap_d, m_cap m !! d = Some cap_d /\
      c = overbooking_constraint (m_B m) (m_showp m) (m_InStay m) cap_d d;
  bt_cap : forall d, d ∈ m_D m -> is_Some (m_cap m !! d);
  bt_cover : forall r d, r ∈ m_R m -> d ∈ m_D m -> exists b, (b, d) ∈ m_InStay m;
  bt_RevExpr :
    m_RevExpr m
    = py_sum (map (fun b => revenue_term b (default 0%Q (m_price m !! b))
                                           (default 0 (m_len m !! b)))
                  (m_B m));
  bt_obj :
    m_obj m = Some {| obj_expr := m_RevExpr m; obj_sense := maximize |};
  bt_floor : m_RevenueFloor m = None;
  bt_val : forall v, m_val m v = None
}.

(** The model handed to the Tier-2 solve: values of the Tier-1 solve loaded,
    revenue floor added, objective replaced. *)
Definition tier2_model (m : Model) (vals : var -> option Q) (Z1 eps : Q)
  : Model :=
  set_obj (Some (tier2_objective (m_D m)))
    (set_obj None
       (set_RevenueFloor (revenue_floor (m_RevExpr m) Z1 eps)
          (set_val vals m))).

(** A variable whose current value is strictly above 0.5. *)
Definition above (m : Model) (v : var) : Prop :=
  exists q, m_val m v = Some q /\ (1 # 2 < q)%Q.

(** Room [r] carries booking [b] on every day of [sdays] at once. *)
Definition room_fits (m : Model) (b r : Z) (sdays : list Z) : Prop :=
  forall d, d ∈ sdays -> (b, r, d) ∈ m_YIDX m /\ above m (Vy b r d).

(** Every variable the extraction reads has a value. *)
Definition valued (m : Model) : Prop :=
  (forall b, b ∈ m_B m -> is_Some (m_val m (Va b))) /\
  (forall b r d, (b, r, d) ∈ m_YIDX m -> is_Some (m_val m (Vy b r d))).

(** ** Small instances and backends used to run the code *)

(** Two days, two rooms, two bookings; booking 2 starts on the last day and
    would stay three nights. *)
Definition Mini_tiny : Mini.Globals :=
  {| Mini.DAYS := 2; Mini.ROOMS := 2;
     Mini.bookings :=
       list_to_map [(1, Mini.row 1 2 100 0.9); (2, Mini.row 2 3 80 0.5)] |}.

Definition Static_tiny : gmap Z Static.BookingSpec :=
  list_to_map
    [(1, {| Static.start_day := 1; Static.length_of_stay := 2;
            Static.price_per_night := 100; Static.show_prob := 0.9 |});
     (2, {| Static.start_day := 2; Static.length_of_stay := 3;
            Static.price_per_night := 80; Static.show_prob := 0.5 |})].

Definition all_available (name : string) : result bool := Ok true.

(** Every booking accepted, booking [b] in room [b], no slack. *)
Definition diagonal_values (v : var) : option Q :=
  match v with
  | Va _ => Some 1%Q
  | Vy b r _ => Some (if b =? r then 1 else 0)%Q
  | Vw _ => Some 0%Q
  end.

Definition backend_optimal (name : string) (m : Model) : reply :=
  Returned OPTIMAL diagonal_values.

(** A backend that reports the Tier-1 model infeasible while still loading
    values into the variables. *)
Definition backend_infeasible (name : string) (m : Model) : reply :=
  Returned INFEASIBLE diagonal_values.

(** ** Claim C1: the floor precedes the Tier-2 solve *)

(** What the sequence [cs] of models handed to the backend must look like. *)
Definition floor_then_tier2 (backend : Model -> reply) (eps : Q)
    (cs : list Model) : Prop :=
  (length cs <= 2)%nat /\
  (forall m1, cs !! 0%nat = Some m1 ->
     m_RevenueFloor m1 = None /\
     m_obj m1 = Some {| obj_expr := m_RevExpr m1; obj_sense := maximize |}) /\
  (forall m2, cs !! 1%nat = Some m2 ->
     exists m1 st vals Z1,
       cs !! 0%nat = Some m1 /\
       backend m1 = Returned st vals /\
       value vals (m_RevExpr m1) = Ok Z1 /\
       m_RevenueFloor m2 = Some (revenue_floor (m_RevExpr m1) Z1 eps) /\
       m_obj m2 = Some (tier2_objective (m_D m1))) /\
  (forall m o, m ∈ cs -> m_obj m = Some o -> obj_sense o = minimize ->
     is_Some (m_RevenueFloor m)).

(** ** Claim C2: the Tier-1 revenue, as the specification words it *)

(** The sum over every booking of [accept[b] * price_per_night(b) *
    length_of_stay(b)], the length being the one in the booking record. *)
Definition Mini_revenue (bookings : gmap Z (Z * Z * Q * Q)) : expr :=
  py_sum (map (fun kv : Z * (Z * Z * Q * Q) =>
                 revenue_term kv.1 kv.2.1.2 kv.2.1.1.2)
              (map_to_list bookings)).

Definition Static_revenue (bookings : gmap Z Static.BookingSpec) : expr :=
  py_sum (map (fun kv : Z * Static.BookingSpec =>
                 revenue_term kv.1 (Static.price_per_night kv.2)
                              (Static.length_of_stay kv.2))
              (map_to_list bookings)).

(** A valuation that accepts booking [b] and no other. *)
Definition accepts_only (val : var -> Q) (b : Z) : Prop :=
  forall b', (val (Va b') == if decide (b' = b) then 1 else 0)%Q.

(** ** Claim C3: a failing Tier-1 solve *)

Definition tier1_failed (r : reply) : Prop :=
  match r with
  | Raised _ => True
  | Returned st _ => st <> OPTIMAL
  end.

(** The claim as stated: when the first solve fails, the run ends in an
    exception after that single call. *)
Definition surfaces_tier1_failure {A} (backend : Model -> reply)
    (out : list Model * result A) : Prop :=
  forall m1, out.1 !! 0%nat = Some m1 -> tier1_failed (backend m1) ->
    (exists e, out.2 = Raise e) /\ length out.1 = 1%nat.

(** Two replies that differ at most in the status they report. *)
Definition same_but_status (r r' : reply) : Prop :=
  match r, r' with
  | Returned _ vals, Returned _ vals' => vals = vals'
  | Raised e, Raised e' => e = e'
  | _, _ => False
  end.

(** A backend whose solver crashes. *)
Definition backend_down (name : string) (m : Model) : reply :=
  Raised (SolverError 1).

(** ** Claim C4: the stay days, as the specification words them *)

(** The ordered list of the days [d] of the horizon [1..horizon] with
    [s <= d <= min(s + L - 1, horizon)]. *)
Definition spec_stay_days (horizon s L : Z) : list Z :=
  filter (fun d => s <= d <= Z.min (s + L - 1) horizon) (seqZ 1 horizon).

(** ** Claims C5-C7: stay days and rooms *)

(** Day [d] is one of the days [stay_days(b)] returns. *)
Definition Mini_stays (g : Mini.Globals) (b d : Z) : Prop :=
  exists sd, Mini.stay_days g b = Ok sd /\ d ∈ sd.

Definition Static_stays (m : Model) (b d : Z) : Prop :=
  exists sd,
    Static._stay_days (m_B m) (m_D m) (m_start m) (m_len m) b = Ok sd /\ d ∈ sd.

(** Booking [b] occupies exactly one room of [R] on day [d] / none. *)
Definition one_room_on (val : var -> Q) (R : list Z) (b d : Z) : Prop :=
  exists r, r ∈ R /\ (val (Vy b r d) == 1)%Q /\
    forall r', r' ∈ R -> r' <> r -> (val (Vy b r' d) == 0)%Q.

Definition no_room_on (val : var -> Q) (R : list Z) (b d : Z) : Prop :=
  forall r, r ∈ R -> (val (Vy b r d) == 0)%Q.

(** Booking [b] occupies room [r], and no other room of [R], on day [d]. *)
Definition in_room_on (val : var -> Q) (R : list Z) (b r d : Z) : Prop :=
  (val (Vy b r d) == 1)%Q /\
  forall r', r' ∈ R -> r' <> r -> (val (Vy b r' d) == 0)%Q.

(** The total valuation that goes with [diagonal_values]. *)
Definition diagonal (v : var) : Q :=
  match v with
  | Va _ => 1
  | Vy b r _ => if b =? r then 1 else 0
  | Vw _ => 0
  end%Q.

(** ** Claim C8: what the builders validate *)

(** The claim as stated, for the capacities: a negative capacity on some day
    makes the build fail. *)
Definition rejects_negative_capacity : Prop :=
  forall bookings days rooms (capacity_by_day : gmap Z Z) d c,
    capacity_by_day !! d = Some c -> c < 0 ->
    exists e,
      Static.build_static_lco_model bookings days rooms (Some capacity_by_day)
      = Raise e.

(** The variables of an expression and the bookings a constraint mentions. *)
Fixpoint expr_vars (e : expr) : list var :=
  match e with
  | EConst _ => []
  | EVar v => [v]
  | EAdd e1 e2 | ESub e1 e2 | EMul e1 e2 => expr_vars e1 ++ expr_vars e2
  end.

Definition constraint_vars (c : constraint) : list var :=
  match c with
  | CLe l r | CEq l r | CGe l r => expr_vars l ++ expr_vars r
  end.

Definition var_of_booking (b : Z) (v : var) : Prop :=
  match v with
  | Va b' | Vy b' _ _ => b' = b
  | Vw _ => False
  end.

Definition mentions (c : constraint) (b : Z) : Prop :=
  exists v, v ∈ constraint_vars c /\ var_of_booking b v.

(** Booking [b] takes part in some constraint of the built model. *)
Definition contributes (m : Model) (b : Z) : Prop :=
  (exists i c, (i, c) ∈ m_RoomExcl m /\ mentions c b) \/
  (exists i c, (i, c) ∈ m_Assign m /\ mentions c b) \/
  (exists i c, (i, c) ∈ m_Continuity m /\ mentions c b) \/
  (exists i c, (i, c) ∈ m_Overbook m /\ mentions c b).

(** The small instance with a capacity of -1 on day 1. *)
Definition negative_capacity : gmap Z Z := list_to_map [(1, -1); (2, 2)].

Definition plain_capacity : gmap Z Z := list_to_map [(1, 2); (2, 2)].

(** ** Claim C10: the domain of the start parameter *)

(** The script's data with one more booking. *)
Definition Mini_with_booking (g : Mini.Globals) (b : Z) (row : Z * Z * Q * Q)
  : Mini.Globals :=
  {| Mini.DAYS := Mini.DAYS g; Mini.ROOMS := Mini.ROOMS g;
     Mini.bookings := <[b := row]> (Mini.bookings g) |}.

(** The small static instance with a third booking that starts after the
    horizon. *)
Definition Static_late : gmap Z Static.BookingSpec :=
  <[3 := {| Static.start_day := 9; Static.length_of_stay := 1;
            Static.price_per_night := 50; Static.show_prob := 0.5 |}]>
  Static_tiny.

(** ** Claim C9: what the extraction reports *)

(** The room reported for booking [b] with stay days [sd]: a room that fits
    on all of them, or [None] when no room does. *)
Definition room_report (m : Model) (b : Z) (sd : list Z) (room : option Z)
  : Prop :=
  match room with
  | Some r => r ∈ m_R m /\ room_fits m b r sd
  | None => forall r, r ∈ m_R m -> ~ room_fits m b r sd
  end.

Definition Mini_extraction (g : Mini.Globals) (m : Model)
    (l : list (Z * list Z * option Z)) : Prop :=
  (forall b, (exists sd room, (b, sd, room) ∈ l) <->
             b ∈ m_B m /\ above m (Va b)) /\
  (forall b sd room, (b, sd, room) ∈ l ->
     Mini.stay_days g b = Ok sd /\ room_report m b sd room).

Definition Static_extraction (m : Model) (accepted : list Z)
    (rooms : gmap Z (option Z * list Z)) : Prop :=
  (forall b, b ∈ accepted <-> b ∈ m_B m /\ above m (Va b)) /\
  (forall b, is_Some (rooms !! b) <-> b ∈ accepted) /\
  (forall b sd room, rooms !! b = Some (room, sd) ->
     Static._stay_days (m_B m) (m_D m) (m_start m) (m_len m) b = Ok sd /\
     room_report m b sd room).


(** * Further vocabulary: exclusivity, slack, floor, results *)

(** Expected number of guests showing up on day [d]:
    [sum(a[b] * showp[b] for b in B if (b, d) in InStay)]. *)
Definition expected_shows (m : Model) (val : var -> Q) (d : Z) : Q :=
  Qsum (map (fun b => val (Va b) * default 0 (m_showp m !! b))
            (filter (fun b => (b, d) ∈ m_InStay m) (m_B m)))%Q.

(** The values a backend loads when its solution is the point [val]. *)
Definition loaded (val : var -> Q) : var -> option Q := fun v => Some (val v).

(** The point [val] with booking [b] rejected. *)
Definition rejecting (val : var -> Q) (b : Z) : var -> Q := fun v =>
  match v with
  | Va b' => if decide (b' = b) then 0%Q else val v
  | _ => val v
  end.

(** Day [d] of the horizon [1..days] is a night of a stay that starts on
    day [s] and lasts [L] nights. *)
Definition night_in_horizon (days s L d : Z) : Prop :=
  1 <= d <= days /\ s <= d < s + L.

(** The [BookingSpec] made from a row of the raw table. *)
Definition BookingSpec_of_row (vals : Z * Z * Q * Q) : Static.BookingSpec :=
  {| Static.start_day := vals.1.1.1; Static.length_of_stay := vals.1.1.2;
     Static.price_per_night := vals.1.2; Static.show_prob := vals.2 |}.

(** Every booking of the table starts on a day of the horizon. *)
Definition starts_in_horizon (g : Mini.Globals) : Prop :=
  map_Forall (fun _ (row : Z * Z * Q * Q) => 1 <= row.1.1.1 <= Mini.DAYS g)
             (Mini.bookings g).

(** A solver environment in which HiGHS cannot be probed and CBC works. *)
Definition only_cbc (name : string) : result bool :=
  if decide (name = "cbc"%string) then Ok true else Raise RuntimeError.

Definition none_available (name : string) : result bool := Ok false.

(** The small instance with a third booking that starts after the horizon. *)
Definition Mini_late : Mini.Globals :=
  Mini_with_booking Mini_tiny 3 (Mini.row 9 1 50 0.5).

(** Two days, one room, and a single one-night booking on day 1: nobody
    stays on day 2. *)
Definition Mini_gap : Mini.Globals :=
  {| Mini.DAYS := 2; Mini.ROOMS := 1;
     Mini.bookings := list_to_map [(1, Mini.row 1 1 100 0.9)] |}.

(** A backend whose solution is always the point [val]. *)
Definition backend_at (val : var -> Q) (name : string) (m : Model) : reply :=
  Returned OPTIMAL (loaded val).

(** Booking [b] is in room [r], and in no other room of [R], on every day
    of [sd]. *)
Definition occupies (val : var -> Q) (R : list Z) (b r : Z) (sd : list Z)
  : Prop :=
  r ∈ R /\
  forall d, d ∈ sd ->
    (val (Vy b r d) == 1)%Q /\
    forall r', r' ∈ R -> r' <> r -> (val (Vy b r' d) == 0)%Q.

(** The live model once the Tier-2 solve has loaded the point [val]. *)
Definition final_model (m : Model) (vals1 : var -> option Q) (Z1 eps : Q)
    (val : var -> Q) : Model :=
  set_val (loaded val) (tier2_model m vals1 Z1 eps).

(** The point [val] with every slack variable set to 0. *)
Definition without_slack (val : var -> Q) : var -> Q := fun v =>
  match v with
  | Vw _ => 0%Q
  | _ => val v
  end.

(** Every show probability is a probability. *)
Definition show_probs_in_unit (showp : gmap Z Q) : Prop :=
  map_Forall (fun _ q => 0 <= q <= 1)%Q showp.

(** A backend that reports success and loads no value at all. *)
Definition backend_no_values (name : string) (m : Model) : reply :=
  Returned OPTIMAL (fun _ => None).

(** A backend that answers a model without revenue floor with the point
    [val] and crashes on a model that has one. *)
Definition backend_tier2_down (val : var -> Q) (name : string) (m : Model)
  : reply :=
  match m_RevenueFloor m with
  | None => Returned OPTIMAL (loaded val)
  | Some _ => Raised (SolverError 1)
  end.

(** Number of accepted bookings that stay on day [d] (each accept variable
    counted with its value). *)
Definition occupancy (m : Model) (val : var -> Q) (d : Z) : Q :=
  Qsum (map (fun b => val (Va b))
            (filter (fun b => (b, d) ∈ m_InStay m) (m_B m))).

(** The model [m] carries the booking table and the horizon of the script's
    data [g]. *)
Definition same_data (g : Mini.Globals) (m : Model) : Prop :=
  m_B m = Mini.B g /\ m_D m = Mini.days g /\
  m_start m = (fun t => t.1.1.1) <$> Mini.bookings g /\
  m_len m = (fun t => t.1.1.2) <$> Mini.bookings g.

(** The result of the script's driver and the result of the static driver
    say the same. *)
Definition same_report (res : Mini.DemoResult) (res' : Static.LCOResult)
  : Prop :=
  Static.revenue_L2 res' = Mini.Z2 res /\
  Static.slack_by_day res' = Mini.daily_slack res /\
  (Static.slack_L3 res' == Mini.slack_sum res)%Q /\
  Static.accepted_bookings res'
  = (fun t => t.1.1) <$> Mini.accepted_bookings res /\
  forall b sd room,
    Static.room_assignments res' !! b = Some (room, sd) <->
    (b, sd, room) ∈ Mini.accepted_bookings res.

(** The positive part of a number. *)
Definition pos_part (q : Q) : Q := if Qle_bool 0 q then q else 0%Q.

(** The point [val] with the slack of every day lowered to what the
    overbooking constraint of [m] asks for:
    [max(0, expected shows - capacity)]. *)
Definition least_slack (m : Model) (val : var -> Q) : var -> Q := fun v =>
  match v with
  | Vw d => pos_part (expected_shows m val d
                      - inject_Z (default 0 (m_cap m !! d)))
  | _ => val v
  end.

(** * Stay days in terms of the booking table *)

(** Day [d] is one of the derived stay days of booking [b] of the script's
    table: the days of [s .. min(s + L - 1, horizon)] within [1, horizon]. *)
Definition Mini_night (g : Mini.Globals) (b d : Z) : Prop :=
  exists s L price showp,
    Mini.bookings g !! b = Some (s, L, price, showp) /\
    d ∈ spec_stay_days (Mini.DAYS g) s L.

(** The same for the table given to the static builder (the default table
    when none is given). *)
Definition Static_night (bookings : option (gmap Z Static.BookingSpec))
    (days b d : Z) : Prop :=
  exists spec,
    default Static.build_default_bookings bookings !! b = Some spec /\
    d ∈ spec_stay_days days (Static.start_day spec)
          (Static.length_of_stay spec).


(** The small instance with booking 1 starting on day 0. *)
Definition Mini_early : Mini.Globals :=
  {| Mini.DAYS := 2; Mini.ROOMS := 2;
     Mini.bookings :=
       list_to_map [(1, Mini.row 0 2 100 0.9); (2, Mini.row 2 3 80 0.5)] |}.

(** No booking, no room. *)
Definition Mini_empty : Mini.Globals :=
  {| Mini.DAYS := 2; Mini.ROOMS := 0; Mini.bookings := ∅ |}.

(** Claim C10 as stated, for the stays: every booking of a model the static
    builder returns has a stay day. *)
Definition never_builds_empty_stay : Prop :=
  forall bookings days rooms capacity_by_day m b,
    Static.build_static_lco_model bookings days rooms capacity_by_day = Ok m ->
    b ∈ m_B m -> exists d, Static_stays m b d.

(** The small static instance with a third booking of length 0. *)
Definition Static_zero : gmap Z Static.BookingSpec :=
  <[3 := {| Static.start_day := 2; Static.length_of_stay := 0;
            Static.price_per_night := 50; Static.show_prob := 0.5 |}]>
  Static_tiny.
(** * Verification *)

(** ** The error monad and comprehensions *)

Section ResultLemmas.
Context {A B : Type}.
Implicit Types (f : A -> result B) (l : list A).

Lemma bind_Ok_inv {C D} (r : result C) (k : C -> result D) (y : D) :
  r ≫= k = Ok y -> exists x, r = Ok x /\ k x = Ok y.
Proof. destruct r as [x|e]; [eauto | discriminate]. Qed.

Lemma mapM_Ok_inv f l (l' : list B) :
  mapM f l = Ok l' -> Forall2 (fun x y => f x = Ok y) l l'.
Proof.
  revert l'. induction l as [|x l IH]; intros l' H; simpl in H.
  - injection H as <-. constructor.
  - apply bind_Ok_inv in H as (y & Hy & H).
    apply bind_Ok_inv in H as (k & Hk & H).
    injection H as <-. constructor; auto.
Qed.

Lemma mapM_Ok_intro f l (l' : list B) :
  Forall2 (fun x y => f x = Ok y) l l' -> mapM f l = Ok l'.
Proof.
  induction 1 as [|x y l l' Hxy _ IH]; simpl; [done|].
  rewrite Hxy. simpl. rewrite IH. done.
Qed.

Lemma mapM_is_Ok f l :
  (forall x, x ∈ l -> is_Ok (f x)) -> is_Ok (mapM f l).
Proof.
  induction l as [|x l IH]; intros H; simpl; [by eexists|].
  destruct (H x) as [y Hy]; [left|]. rewrite Hy. simpl.
  destruct IH as [k Hk]; [intros; apply H; by right|].
  rewrite Hk. by eexists.
Qed.

Lemma mapM_is_Ok_inv f l x :
  is_Ok (mapM f l) -> x ∈ l -> is_Ok (f x).
Proof.
  intros [l' H%mapM_Ok_inv] Hx.
  apply list_elem_of_lookup in Hx as [i Hi].
  destruct (Forall2_lookup_l _ _ _ _ _ H Hi) as (y & _ & Hy). by exists y.
Qed.

Lemma mapM_pure (h : A -> B) l :
  mapM (fun x => Ok (h x)) l = Ok (h <$> l).
Proof. induction l as [|x l IH]; simpl; [done|]. by rewrite IH. Qed.

Lemma mapM_ext_in f f' l :
  (forall x, x ∈ l -> f x = f' x) -> mapM f l = mapM f' l.
Proof.
  induction l as [|x l IH]; intros H; simpl; [done|].
  rewrite (H x) by left. rewrite IH; [done|]. intros; apply H; by right.
Qed.

End ResultLemmas.

Section ComprehendLemmas.
Context {A B : Type}.
Implicit Types (fl : A -> result (list B)) (l : list A).

Lemma comprehend_Ok_inv fl l r :
  comprehend l fl = Ok r ->
  forall y, y ∈ r <-> exists x ys, x ∈ l /\ fl x = Ok ys /\ y ∈ ys.
Proof.
  unfold comprehend. intros H y.
  apply bind_Ok_inv in H as (ls & Hls%mapM_Ok_inv & H). injection H as <-.
  rewrite list_elem_of_join. split.
  - intros (ys & Hy & Hys).
    apply list_elem_of_lookup in Hys as [i Hi].
    destruct (Forall2_lookup_r _ _ _ _ _ Hls Hi) as (x & Hx & Hfx).
    exists x, ys. split_and!; [|done..]. by eapply list_elem_of_lookup_2.
  - intros (x & ys & Hx & Hfx & Hy).
    apply list_elem_of_lookup in Hx as [i Hi].
    destruct (Forall2_lookup_l _ _ _ _ _ Hls Hi) as (ys' & Hys' & Hfx').
    rewrite Hfx in Hfx'. injection Hfx' as <-.
    exists ys. split; [done|]. by eapply list_elem_of_lookup_2.
Qed.

Lemma comprehend_is_Ok fl l :
  (forall x, x ∈ l -> is_Ok (fl x)) -> is_Ok (comprehend l fl).
Proof.
  intros H. unfold comprehend.
  destruct (mapM_is_Ok fl l H) as [ls ->]. by eexists.
Qed.

Lemma comprehend_is_Ok_inv fl l x :
  is_Ok (comprehend l fl) -> x ∈ l -> is_Ok (fl x).
Proof.
  unfold comprehend. intros [r H] Hx.
  apply bind_Ok_inv in H as (ls & Hls & _).
  eapply mapM_is_Ok_inv; [by eexists|done].
Qed.

End ComprehendLemmas.

(** ** Pyomo components *)

Lemma check_relational_Ok c c' :
  check_relational c = Ok c' <-> c' = c /\ constraint_native c = false.
Proof.
  unfold check_relational. destruct (constraint_native c); split.
  - discriminate.
  - intros [_ ?]; discriminate.
  - intros [= <-]. done.
  - intros [-> _]. done.
Qed.

Lemma Constraint_block_Ok_inv {I} (index : list I) rule cs :
  Constraint_block index rule = Ok cs ->
  forall i c, (i, c) ∈ cs <->
    i ∈ index /\ rule i = Ok (Rel c) /\ constraint_native c = false.
Proof.
  intros H i c. unfold Constraint_block in H.
  rewrite (comprehend_Ok_inv _ _ _ H). split.
  - intros (x & ys & Hx & Hr & Hy).
    apply bind_Ok_inv in Hr as ([|c0] & Hr & Hadd); simpl in Hadd.
    + injection Hadd as <-. by apply elem_of_nil in Hy.
    + apply bind_Ok_inv in Hadd as (c1 & Hc1 & Hadd). injection Hadd as <-.
      apply check_relational_Ok in Hc1 as [-> Hnn].
      apply list_elem_of_singleton in Hy as [= -> ->]. done.
  - intros (Hi & Hr & Hnn). exists i, [(i, c)]. split_and!; [done| |by left].
    rewrite Hr. simpl. unfold check_relational. rewrite Hnn. done.
Qed.

Lemma Constraint_block_is_Ok {I} (index : list I) rule :
  (forall i, i ∈ index ->
     rule i = Ok Skip \/
     exists c, rule i = Ok (Rel c) /\ constraint_native c = false) ->
  is_Ok (Constraint_block index rule).
Proof.
  intros H. apply comprehend_is_Ok. intros i Hi.
  destruct (H i Hi) as [-> | (c & -> & Hnn)]; simpl; [by eexists|].
  unfold check_relational. rewrite Hnn. by eexists.
Qed.

Lemma Constraint_block_is_Ok_inv {I} (index : list I) rule i :
  is_Ok (Constraint_block index rule) -> i ∈ index ->
  rule i = Ok Skip \/
  exists c, rule i = Ok (Rel c) /\ constraint_native c = false.
Proof.
  intros Hok Hi.
  destruct (comprehend_is_Ok_inv _ _ i Hok Hi) as [ys Hys].
  apply bind_Ok_inv in Hys as ([|c] & Hr & Hadd); [by left|right].
  simpl in Hadd. apply bind_Ok_inv in Hadd as (c1 & Hc1 & _).
  apply check_relational_Ok in Hc1 as [-> Hnn]. eauto.
Qed.

Section ParamLemmas.
Context {V : Type}.
Implicit Types (init p : gmap Z V) (within : V -> bool).

Lemma Param_Ok_inv index init within p :
  Param index init within = Ok p ->
  p = init /\
  forall k v, init !! k = Some v -> k ∈ index /\ within v = true.
Proof.
  unfold Param. intros H.
  apply bind_Ok_inv in H as (l & Hl & H). injection H as <-.
  split; [done|]. intros k v Hkv.
  apply elem_of_map_to_list in Hkv.
  assert (Hok : is_Ok (mapM (fun kv : Z * V =>
         if decide (kv.1 ∈ index)
         then (if within kv.2 then Ok kv else Raise ValueError)
         else Raise KeyError) (map_to_list init))) by by eexists.
  destruct (mapM_is_Ok_inv _ _ _ Hok Hkv) as [y Hy]. simpl in Hy.
  destruct (decide (k ∈ index)); [|discriminate].
  destruct (within v); [done|discriminate].
Qed.

Lemma Param_Ok index init within :
  (forall k v, init !! k = Some v -> k ∈ index /\ within v = true) ->
  Param index init within = Ok init.
Proof.
  intros H. unfold Param.
  destruct (mapM_is_Ok (fun kv : Z * V =>
         if decide (kv.1 ∈ index)
         then (if within kv.2 then Ok kv else Raise ValueError)
         else Raise KeyError) (map_to_list init)) as [l ->]; [|done].
  intros [k v] Hkv%elem_of_map_to_list. simpl.
  destruct (H k v Hkv) as [Hk ->]. rewrite decide_True by done. by eexists.
Qed.

Lemma Param_Raise index init within k v :
  init !! k = Some v -> within v = false ->
  exists e, Param index init within = Raise e.
Proof.
  intros Hkv Hw. destruct (Param index init within) as [p|e] eqn:E; [|eauto].
  apply Param_Ok_inv in E as [_ E]. destruct (E k v Hkv) as [_ E'].
  congruence.
Qed.

End ParamLemmas.

(** Keys of a dict. *)
Lemma elem_of_keys {V} (d : gmap Z V) (k : Z) :
  k ∈ (map_to_list d).*1 <-> is_Some (d !! k).
Proof.
  rewrite list_elem_of_fmap. split.
  - intros ([k' v] & -> & H%elem_of_map_to_list). by exists v.
  - intros [v Hv]. exists (k, v). split; [done|]. by apply elem_of_map_to_list.
Qed.

Lemma elem_of_range lo hi d : d ∈ range lo hi <-> lo <= d < hi.
Proof. unfold range. rewrite elem_of_seqZ. lia. Qed.

Lemma NoDup_range lo hi : NoDup (range lo hi).
Proof. apply NoDup_seqZ. Qed.

(** ** Sums of expressions and of 0/1 values *)

Lemma eval_fold_EAdd val xs acc :
  (eval val (fold_left EAdd xs acc) == eval val acc + Qsum (map (eval val) xs))%Q.
Proof.
  revert acc. induction xs as [|x xs IH]; intros acc; simpl.
  - lra.
  - rewrite IH. simpl. lra.
Qed.

Lemma eval_py_sum val xs :
  (eval val (py_sum xs) == Qsum (map (eval val) xs))%Q.
Proof. unfold py_sum. rewrite eval_fold_EAdd. simpl. lra. Qed.

Lemma Qsum_binary_nonneg (f : Z -> Q) (R : list Z) :
  (forall r, r ∈ R -> binary (f r)) -> (0 <= Qsum (map f R))%Q.
Proof.
  induction R as [|r R IH]; intros Hb; simpl; [lra|].
  assert (0 <= Qsum (map f R))%Q by (apply IH; intros; apply Hb; by right).
  destruct (Hb r) as [H0|H1]; [by left|..]; lra.
Qed.

Lemma Qsum_binary_zero (f : Z -> Q) (R : list Z) :
  (forall r, r ∈ R -> binary (f r)) -> (Qsum (map f R) == 0)%Q ->
  forall r, r ∈ R -> (f r == 0)%Q.
Proof.
  induction R as [|r0 R IH]; intros Hb Hs r Hr; [by apply elem_of_nil in Hr|].
  simpl in Hs.
  assert (0 <= Qsum (map f R))%Q
    by (apply Qsum_binary_nonneg; intros; apply Hb; by right).
  assert (Hb0 : binary (f r0)) by (apply Hb; by left).
  apply elem_of_cons in Hr as [-> | Hr].
  - destruct Hb0; lra.
  - apply IH; [intros; apply Hb; by right | destruct Hb0; lra | done].
Qed.

Lemma Qsum_one_hot (f : Z -> Q) (R : list Z) :
  NoDup R -> (forall r, r ∈ R -> binary (f r)) -> (Qsum (map f R) == 1)%Q ->
  exists r, r ∈ R /\ (f r == 1)%Q /\
            forall r', r' ∈ R -> r' <> r -> (f r' == 0)%Q.
Proof.
  induction R as [|r0 R IH]; intros Hnd Hb Hs; simpl in Hs; [lra|].
  apply NoDup_cons in Hnd as [Hnin Hnd].
  assert (HbR : forall r, r ∈ R -> binary (f r)) by (intros; apply Hb; by right).
  destruct (Hb r0) as [H0|H1]; [by left|..].
  - destruct IH as (r & Hr & Hr1 & Hothers); [done|done|lra|].
    exists r. split_and!; [by right|done|].
    intros r' [-> | Hr']%elem_of_cons Hne; [done|]. by apply Hothers.
  - exists r0. split_and!; [by left|done|].
    intros r' [-> | Hr']%elem_of_cons Hne; [done|].
    apply (Qsum_binary_zero f R); [done|lra|done].
Qed.


(** ** The shared constraint rules *)

Lemma mapM_map_Ok {A B} (f : A -> result B) (h : A -> B) (l : list A) :
  (forall x, x ∈ l -> f x = Ok (h x)) -> mapM f l = Ok (map h l).
Proof.
  intros H. rewrite (mapM_ext_in f (fun x => Ok (h x))) by done.
  apply (mapM_pure h l).
Qed.

Lemma var_y_Ok YIDX b r d e :
  var_y YIDX b r d = Ok e <-> (b, r, d) ∈ YIDX /\ e = EVar (Vy b r d).
Proof.
  unfold var_y. destruct (decide ((b, r, d) ∈ YIDX)); split;
    [intros [= <-]|intros [_ ->]|discriminate|intros [? _]]; done.
Qed.

Lemma var_a_Ok mB b e :
  var_a mB b = Ok e <-> b ∈ mB /\ e = EVar (Va b).
Proof.
  unfold var_a. destruct (decide (b ∈ mB)); split;
    [intros [= <-]|intros [_ ->]|discriminate|intros [? _]]; done.
Qed.

Lemma var_w_Ok mD d e :
  var_w mD d = Ok e <-> d ∈ mD /\ e = EVar (Vw d).
Proof.
  unfold var_w. destruct (decide (d ∈ mD)); split;
    [intros [= <-]|intros [_ ->]|discriminate|intros [? _]]; done.
Qed.

Lemma param_get_Ok {V} index (p : gmap Z V) k v :
  param_get index p k = Ok v <-> k ∈ index /\ p !! k = Some v.
Proof.
  unfold param_get. destruct (decide (k ∈ index)); [|split; [discriminate|tauto]].
  destruct (p !! k); split;
    [intros [= <-]|intros [_ [= ->]]|discriminate|intros [_ ?]]; done.
Qed.

Lemma param_get_Some {V} index (p : gmap Z V) k v :
  k ∈ index -> p !! k = Some v -> param_get index p k = Ok v.
Proof. intros. by apply param_get_Ok. Qed.

Lemma var_a_In mB b : b ∈ mB -> var_a mB b = Ok (EVar (Va b)).
Proof. intros. by apply var_a_Ok. Qed.

Lemma var_w_In mD d : d ∈ mD -> var_w mD d = Ok (EVar (Vw d)).
Proof. intros. by apply var_w_Ok. Qed.

Lemma var_y_In YIDX b r d :
  (b, r, d) ∈ YIDX -> var_y YIDX b r d = Ok (EVar (Vy b r d)).
Proof. intros. by apply var_y_Ok. Qed.

Lemma mapM_var_w mD : mapM (var_w mD) mD = Ok (map (fun d => EVar (Vw d)) mD).
Proof. apply mapM_map_Ok. intros d Hd. by apply var_w_Ok. Qed.

Lemma is_native_fold_EAdd xs acc :
  is_native (fold_left EAdd xs acc) = is_native acc && forallb is_native xs.
Proof.
  revert acc. induction xs as [|x xs IH]; intros acc; simpl.
  - by rewrite andb_true_r.
  - rewrite IH. simpl. by rewrite andb_assoc.
Qed.

Lemma is_native_py_sum xs : is_native (py_sum xs) = forallb is_native xs.
Proof. unfold py_sum. by rewrite is_native_fold_EAdd. Qed.

Lemma is_native_py_sum_vars {A} (h : A -> var) (l : list A) :
  is_native (py_sum (map (fun x => EVar (h x)) l)) = false <-> l <> [].
Proof.
  rewrite is_native_py_sum. destruct l; simpl; split; congruence.
Qed.

Section RuleLemmas.
Context (mB mR mD : list Z) (showp : gmap Z Q) (cap : gmap Z Z)
        (InStay : gset (Z * Z)) (YIDX : gset (Z * Z * Z)).
Hypothesis HYIDX :
  forall b r d, (b, r, d) ∈ YIDX <-> (b, d) ∈ InStay /\ r ∈ mR.
Hypothesis HInStay : forall b d, (b, d) ∈ InStay -> b ∈ mB /\ d ∈ mD.

Lemma room_excl_Ok r d :
  r ∈ mR ->
  room_excl mB InStay YIDX (r, d)
  = Ok (Rel (room_excl_constraint mB InStay r d)).
Proof.
  intros Hr. unfold room_excl, room_excl_constraint.
  rewrite (mapM_map_Ok _ (fun b => EVar (Vy b r d))); [done|].
  intros b [Hb _]%list_elem_of_filter. apply var_y_Ok. split; [|done].
  by apply HYIDX.
Qed.

Lemma room_excl_native r d :
  constraint_native (room_excl_constraint mB InStay r d) = false <->
  exists b, (b, d) ∈ InStay.
Proof.
  unfold room_excl_constraint. simpl. rewrite andb_true_r.
  rewrite (is_native_py_sum_vars (fun b => Vy b r d)). split.
  - destruct (filter (fun b => (b, d) ∈ InStay) mB) as [|b l] eqn:E; [done|].
    intros _. exists b. assert (Hb : b ∈ b :: l) by left.
    rewrite <- E in Hb. by apply list_elem_of_filter in Hb as [? _].
  - intros [b Hb] E.
    assert (Hin : b ∈ filter (fun b => (b, d) ∈ InStay) mB).
    { apply list_elem_of_filter. split; [done|]. by apply (HInStay b d). }
    rewrite E in Hin. by apply elem_of_nil in Hin.
Qed.

Lemma assign_link_Skip b d :
  (b, d) ∉ InStay -> assign_link mB mR InStay YIDX (b, d) = Ok Skip.
Proof. intros H. unfold assign_link. by rewrite decide_True. Qed.

Lemma assign_link_Ok b d :
  (b, d) ∈ InStay ->
  assign_link mB mR InStay YIDX (b, d) = Ok (Rel (assign_constraint mR b d)).
Proof.
  intros H. unfold assign_link, assign_constraint.
  rewrite decide_False by (intros Hn; by apply Hn).
  rewrite (mapM_map_Ok _ (fun r => EVar (Vy b r d))).
  - simpl. rewrite var_a_In; [done|]. by apply (HInStay b d).
  - intros r Hr. apply var_y_In. by apply HYIDX.
Qed.

Lemma continuity_Ok b r d :
  (b, d) ∈ InStay -> (b, d + 1) ∈ InStay -> r ∈ mR ->
  continuity YIDX (b, r, d) = Ok (Rel (continuity_constraint b r d)).
Proof.
  intros H1 H2 Hr. unfold continuity, continuity_constraint.
  rewrite !var_y_In by by apply HYIDX. done.
Qed.

Lemma overbooking_Ok d c :
  d ∈ mD -> cap !! d = Some c ->
  (forall b, b ∈ mB -> is_Some (showp !! b)) ->
  overbooking mB mD showp cap InStay d
  = Ok (Rel (overbooking_constraint mB showp InStay c d)).
Proof.
  intros Hd Hc Hp. unfold overbooking, overbooking_constraint.
  rewrite (mapM_map_Ok _
    (fun b => EMul (EVar (Va b)) (EConst (default 0%Q (showp !! b))))).
  - simpl. rewrite var_w_In by done. simpl.
    by rewrite (param_get_Some mD cap d c).
  - intros b [_ Hb]%list_elem_of_filter.
    rewrite var_a_In by done. simpl.
    destruct (Hp b Hb) as [p Hpb].
    rewrite (param_get_Some mB showp b p) by done. by rewrite Hpb.
Qed.

Lemma overbooking_is_Ok_inv d :
  is_Ok (overbooking mB mD showp cap InStay d) -> is_Some (cap !! d).
Proof.
  intros [r H]. unfold overbooking in H.
  apply bind_Ok_inv in H as (es & _ & H).
  apply bind_Ok_inv in H as (wd & _ & H).
  apply bind_Ok_inv in H as (c & Hc & _).
  apply param_get_Ok in Hc as [_ Hc]. by exists c.
Qed.

End RuleLemmas.

(** The Tier-1 revenue expression. *)
Lemma revenue_terms_Ok mB (price : gmap Z Q) (len : gmap Z Z) :
  (forall b, b ∈ mB -> is_Some (price !! b) /\ is_Some (len !! b)) ->
  revenue_terms mB price len
  = Ok (map (fun b => revenue_term b (default 0%Q (price !! b))
                                     (default 0 (len !! b))) mB).
Proof.
  intros H. unfold revenue_terms. apply mapM_map_Ok. intros b Hb.
  rewrite var_a_In by done. simpl.
  destruct (H b Hb) as [[p Hp] [L HL]].
  rewrite (param_get_Some mB price b p) by done. simpl.
  rewrite (param_get_Some mB len b L) by done. by rewrite Hp, HL.
Qed.

(** ** From the components to a built model *)

Lemma elem_of_pairs {A B} (l : list A) (k : list B) (x : A) (y : B) :
  (x, y) ∈ (a ← l; b ← k; [(a, b)]) <-> x ∈ l /\ y ∈ k.
Proof.
  rewrite list_elem_of_bind. split.
  - intros (a & Hab & Ha). apply list_elem_of_bind in Hab as (b & Hxy & Hb).
    apply list_elem_of_singleton in Hxy as [= -> ->]. done.
  - intros [Hx Hy]. exists x. split; [|done].
    apply list_elem_of_bind. exists y. split; [by left|done].
Qed.

Lemma elem_of_yidx_of (mR : list Z) (InStay : gset (Z * Z)) (b r d : Z) :
  (b, r, d) ∈ yidx_of mR InStay <-> (b, d) ∈ InStay /\ r ∈ mR.
Proof.
  unfold yidx_of. rewrite elem_of_list_to_set, list_elem_of_bind. split.
  - intros ([b' d'] & H & Hbd%elem_of_elements).
    apply list_elem_of_bind in H as (r' & H & Hr').
    apply list_elem_of_singleton in H as [= -> -> ->]. done.
  - intros [Hbd Hr]. exists (b, d). split; [|by apply elem_of_elements].
    apply list_elem_of_bind. exists r. split; [by left|done].
Qed.

Section Assemble.
Context (mB mR mD : list Z) (start len : gmap Z Z) (price showp : gmap Z Q)
        (cap : gmap Z Z) (InStay : gset (Z * Z)) (cont : gset (Z * Z * Z))
        (RoomExcl Assign : list (Z * Z * constraint))
        (Continuity : list (Z * Z * Z * constraint))
        (Overbook : list (Z * constraint)) (terms : list expr).
Hypothesis HR : NoDup mR.
Hypothesis HInStay : forall b d, (b, d) ∈ InStay -> b ∈ mB /\ d ∈ mD.
Hypothesis Hconvex : forall b d1 d2 d,
  (b, d1) ∈ InStay -> (b, d2) ∈ InStay -> d1 <= d <= d2 -> (b, d) ∈ InStay.
Hypothesis Hcont : forall b r d,
  (b, r, d) ∈ cont <-> (b, d) ∈ InStay /\ (b, d + 1) ∈ InStay /\ r ∈ mR.
Hypothesis Hparams : forall b, b ∈ mB ->
  is_Some (price !! b) /\ is_Some (len !! b) /\ is_Some (showp !! b).
Hypothesis HRoomExcl :
  Constraint_block (r ← mR; d ← mD; [(r, d)])
    (room_excl mB InStay (yidx_of mR InStay)) = Ok RoomExcl.
Hypothesis HAssign :
  Constraint_block (b ← mB; d ← mD; [(b, d)])
    (assign_link mB mR InStay (yidx_of mR InStay)) = Ok Assign.
Hypothesis HContinuity :
  Constraint_block (elements cont) (continuity (yidx_of mR InStay))
  = Ok Continuity.
Hypothesis HOverbook :
  Constraint_block mD (overbooking mB mD showp cap InStay) = Ok Overbook.
Hypothesis Hterms : revenue_terms mB price len = Ok terms.

Lemma assemble_built :
  built {| m_B := mB; m_R := mR; m_D := mD;
           m_start := start; m_len := len; m_price := price;
           m_showp := showp; m_cap := cap;
           m_InStay := InStay; m_YIDX := yidx_of mR InStay;
           m_ContPair := cont;
           m_RoomExcl := RoomExcl; m_Assign := Assign;
           m_Continuity := Continuity; m_Overbook := Overbook;
           m_RevExpr := py_sum terms;
           m_obj := Some {| obj_expr := py_sum terms; obj_sense := maximize |};
           m_RevenueFloor := None;
           m_val := fun _ => None |}.
Proof.
  pose proof (elem_of_yidx_of mR InStay) as HY.
  split; simpl; try done.
  - (* RoomExcl *)
    intros r d c. rewrite (Constraint_block_Ok_inv _ _ _ HRoomExcl).
    rewrite elem_of_pairs. split.
    + intros ([Hr Hd] & Hrule & _).
      rewrite (room_excl_Ok mB mR InStay _ HY r d Hr) in Hrule.
      injection Hrule as <-. done.
    + intros (Hr & Hd & ->). split; [done|].
      pose proof (room_excl_Ok mB mR InStay _ HY r d Hr) as Hrule.
      split; [done|].
      destruct (Constraint_block_is_Ok_inv _ _ (r, d)
                  (ex_intro _ _ HRoomExcl)) as [Hs|(c & Hc & Hnn)].
      * by apply elem_of_pairs.
      * rewrite Hrule in Hs. discriminate.
      * rewrite Hrule in Hc. injection Hc as <-. done.
  - (* Assign *)
    intros b d c. rewrite (Constraint_block_Ok_inv _ _ _ HAssign).
    rewrite elem_of_pairs. split.
    + intros ([Hb Hd] & Hrule & _).
      destruct (decide ((b, d) ∈ InStay)) as [Hin|Hout].
      * rewrite (assign_link_Ok mB mR mD InStay _ HY HInStay b d Hin) in Hrule.
        injection Hrule as <-. done.
      * rewrite (assign_link_Skip mB mR InStay _ b d Hout) in Hrule.
        discriminate.
    + intros (Hin & ->). split; [by apply HInStay|].
      split; [by apply (assign_link_Ok mB mR mD)|].
      simpl. by rewrite andb_false_r.
  - (* Continuity *)
    intros b r d c. rewrite (Constraint_block_Ok_inv _ _ _ HContinuity).
    rewrite elem_of_elements. split.
    + intros (Hc & Hrule & _). split; [done|].
      apply Hcont in Hc as (H1 & H2 & Hr).
      rewrite (continuity_Ok mR InStay _ HY b r d H1 H2 Hr) in Hrule.
      by injection Hrule as <-.
    + intros (Hc & ->). split; [done|].
      apply Hcont in Hc as (H1 & H2 & Hr).
      split; [by apply (continuity_Ok mR InStay)|done].
  - (* Overbook *)
    intros d c. rewrite (Constraint_block_Ok_inv _ _ _ HOverbook). split.
    + intros (Hd & Hrule & _). split; [done|].
      destruct (overbooking_is_Ok_inv mB mD showp cap InStay d) as [cd Hcd];
        [by eexists|].
      exists cd. split; [done|].
      rewrite (overbooking_Ok mB mD showp cap InStay d cd) in Hrule;
        [by injection Hrule as <-|done|done|].
      intros b Hb. by apply Hparams.
    + intros (Hd & cd & Hcd & ->). split; [done|].
      split; [|done].
      apply overbooking_Ok; [done|done|]. intros b Hb. by apply Hparams.
  - (* every day has a capacity *)
    intros d Hd.
    destruct (Constraint_block_is_Ok_inv _ _ d (ex_intro _ _ HOverbook) Hd)
      as [Hs|(c & Hc & _)];
      apply (overbooking_is_Ok_inv mB mD showp cap InStay d); by eexists.
  - (* every day is covered *)
    intros r d Hr Hd.
    destruct (Constraint_block_is_Ok_inv _ _ (r, d)
                (ex_intro _ _ HRoomExcl)) as [Hs|(c & Hc & Hnn)].
    + by apply elem_of_pairs.
    + rewrite (room_excl_Ok mB mR InStay _ HY r d Hr) in Hs. discriminate.
    + rewrite (room_excl_Ok mB mR InStay _ HY r d Hr) in Hc.
      injection Hc as <-. by apply (room_excl_native mB mD InStay HInStay r d).
  - (* RevExpr *)
    rewrite revenue_terms_Ok in Hterms.
    + by injection Hterms as <-.
    + intros b Hb. destruct (Hparams b Hb) as (? & ? & ?). done.
Qed.

End Assemble.

(** ** The mini builder *)

Section MiniBuild.
Context (g : Mini.Globals).

Lemma Mini_stay_days_Ok b sd :
  Mini.stay_days g b = Ok sd <->
  exists s L p q, Mini.bookings g !! b = Some (s, L, p, q) /\
                  sd = range s (Z.min (s + L) (Mini.DAYS g + 1)).
Proof.
  unfold Mini.stay_days, dict_get.
  destruct (Mini.bookings g !! b) as [[[[s L] p] q]|]; simpl; split.
  - intros [= <-]. by exists s, L, p, q.
  - intros (s' & L' & p' & q' & [= <- <- <- <-] & ->). done.
  - discriminate.
  - intros (? & ? & ? & ? & ? & _). discriminate.
Qed.

Lemma Mini_stay_days_is_Ok b :
  is_Ok (Mini.stay_days g b) <-> b ∈ Mini.B g.
Proof.
  unfold Mini.B. rewrite elem_of_keys. split.
  - intros [sd (s & L & p & q & H & _)%Mini_stay_days_Ok]. by eexists.
  - intros [[[[s L] p] q] H]. eexists. apply Mini_stay_days_Ok. eauto 10.
Qed.

(** Days of a stay never exceed the horizon, and from day 1 on they are
    horizon days. *)
Lemma Mini_stay_days_upper b sd d :
  Mini.stay_days g b = Ok sd -> d ∈ sd -> d <= Mini.DAYS g.
Proof.
  intros (s & L & p & q & _ & ->)%Mini_stay_days_Ok Hd%elem_of_range. lia.
Qed.

Lemma Mini_in_stay_list_spec l :
  Mini.in_stay_list g = Ok l ->
  forall b d, (b, d) ∈ l <->
    d ∈ Mini.days g /\ exists sd, Mini.stay_days g b = Ok sd /\ d ∈ sd.
Proof.
  intros H b d. unfold Mini.in_stay_list in H.
  rewrite (comprehend_Ok_inv _ _ _ H). split.
  - intros (b0 & ys & Hb0 & Hys & Hin).
    rewrite (comprehend_Ok_inv _ _ _ Hys) in Hin.
    destruct Hin as (d0 & zs & Hd0 & Hzs & Hin).
    apply bind_Ok_inv in Hzs as (sd & Hsd & Hzs). injection Hzs as <-.
    destruct (decide (d0 ∈ sd)); [|by apply elem_of_nil in Hin].
    apply list_elem_of_singleton in Hin as [= -> ->]. eauto.
  - intros (Hd & sd & Hsd & Hin).
    assert (Hb : b ∈ Mini.B g) by (apply Mini_stay_days_is_Ok; by eexists).
    destruct (comprehend_is_Ok_inv _ _ b (ex_intro _ _ H) Hb) as [ys Hys].
    exists b, ys. split_and!; [done..|].
    rewrite (comprehend_Ok_inv _ _ _ Hys).
    exists d, [(b, d)]. split_and!; [done| |by left].
    rewrite Hsd. simpl. by rewrite decide_True.
Qed.

Lemma Mini_in_stay_list_is_Ok : is_Ok (Mini.in_stay_list g).
Proof.
  apply comprehend_is_Ok. intros b Hb%Mini_stay_days_is_Ok.
  apply comprehend_is_Ok. intros d _. destruct Hb as [sd ->]. by eexists.
Qed.

Lemma Mini_cont_list_spec l :
  Mini.cont_list g = Ok l ->
  forall b r d, (b, r, d) ∈ l <->
    r ∈ Mini.rooms g /\ d ∈ Mini.days g /\
    exists sd, Mini.stay_days g b = Ok sd /\ d ∈ sd /\ d + 1 ∈ sd.
Proof.
  intros H b r d. unfold Mini.cont_list in H.
  rewrite (comprehend_Ok_inv _ _ _ H). split.
  - intros (b0 & ys & Hb0 & Hys & Hin).
    rewrite (comprehend_Ok_inv _ _ _ Hys) in Hin.
    destruct Hin as (r0 & zs & Hr0 & Hzs & Hin).
    rewrite (comprehend_Ok_inv _ _ _ Hzs) in Hin.
    destruct Hin as (d0 & ws & Hd0 & Hws & Hin).
    apply bind_Ok_inv in Hws as (sd & Hsd & Hws).
    destruct (decide (d0 ∈ sd)); [|injection Hws as <-; by apply elem_of_nil in Hin].
    rewrite Hsd in Hws. simpl in Hws. injection Hws as <-.
    destruct (decide (d0 + 1 ∈ sd)); [|by apply elem_of_nil in Hin].
    apply list_elem_of_singleton in Hin as [= -> -> ->]. eauto 10.
  - intros (Hr & Hd & sd & Hsd & Hin & Hin').
    assert (Hb : b ∈ Mini.B g) by (apply Mini_stay_days_is_Ok; by eexists).
    destruct (comprehend_is_Ok_inv _ _ b (ex_intro _ _ H) Hb) as [ys Hys].
    exists b, ys. split_and!; [done..|].
    destruct (comprehend_is_Ok_inv _ _ r (ex_intro _ _ Hys) Hr) as [zs Hzs].
    rewrite (comprehend_Ok_inv _ _ _ Hys).
    exists r, zs. split_and!; [done..|].
    rewrite (comprehend_Ok_inv _ _ _ Hzs).
    exists d, [(b, r, d)]. split_and!; [done| |by left].
    rewrite Hsd. simpl. rewrite decide_True by done.
    simpl. by rewrite decide_True.
Qed.

Lemma Mini_cont_list_is_Ok : is_Ok (Mini.cont_list g).
Proof.
  apply comprehend_is_Ok. intros b Hb%Mini_stay_days_is_Ok.
  apply comprehend_is_Ok. intros r _.
  apply comprehend_is_Ok. intros d _. destruct Hb as [sd ->]. simpl.
  destruct (decide (d ∈ sd)); by eexists.
Qed.

Lemma Mini_Param_bookings {V} (h : Z * Z * Q * Q -> V) :
  Param (Mini.B g) (h <$> Mini.bookings g) Any = Ok (h <$> Mini.bookings g).
Proof.
  apply Param_Ok. intros k v Hkv. split; [|done].
  apply elem_of_keys. rewrite lookup_fmap in Hkv.
  destruct (Mini.bookings g !! k); [by eexists|discriminate].
Qed.

Lemma Mini_CAP_lookup d :
  Mini.CAP g !! d = if decide (d ∈ Mini.days g) then Some (Mini.ROOMS g) else None.
Proof.
  unfold Mini.CAP. destruct (decide (d ∈ Mini.days g)) as [Hd|Hd].
  - apply elem_of_list_to_map_1.
    + rewrite <- list_fmap_compose. simpl.
      rewrite list_fmap_id. apply NoDup_range.
    + apply list_elem_of_fmap. by exists d.
  - apply not_elem_of_list_to_map_1. rewrite <- list_fmap_compose. simpl.
    by rewrite list_fmap_id.
Qed.

Lemma Mini_Param_CAP : Param (Mini.days g) (Mini.CAP g) Any = Ok (Mini.CAP g).
Proof.
  apply Param_Ok. intros k v Hkv. split; [|done].
  rewrite Mini_CAP_lookup in Hkv. by destruct (decide (k ∈ Mini.days g)).
Qed.

Lemma Mini_build_inv m :
  Mini.build_model g = Ok m ->
  built m /\
  (m_B m = Mini.B g /\ m_R m = Mini.rooms g /\ m_D m = Mini.days g) /\
  (m_start m = (fun t => t.1.1.1) <$> Mini.bookings g /\
   m_len m = (fun t => t.1.1.2) <$> Mini.bookings g /\
   m_price m = (fun t => t.1.2) <$> Mini.bookings g /\
   m_showp m = (fun t => t.2) <$> Mini.bookings g /\
   m_cap m = Mini.CAP g) /\
  (forall b d, (b, d) ∈ m_InStay m <->
     d ∈ Mini.days g /\ exists sd, Mini.stay_days g b = Ok sd /\ d ∈ sd).
Proof.
  unfold Mini.build_model. rewrite !Mini_Param_bookings, Mini_Param_CAP.
  simpl. intros H.
  apply bind_Ok_inv in H as (isl & Hisl & H).
  apply bind_Ok_inv in H as (cl & Hcl & H).
  apply bind_Ok_inv in H as (RoomExcl & HRoomExcl & H).
  apply bind_Ok_inv in H as (Assign & HAssign & H).
  apply bind_Ok_inv in H as (Continuity & HContinuity & H).
  apply bind_Ok_inv in H as (Overbook & HOverbook & H).
  apply bind_Ok_inv in H as (terms & Hterms & H).
  injection H as <-.
  pose proof (Mini_in_stay_list_spec _ Hisl) as HIS.
  pose proof (Mini_cont_list_spec _ Hcl) as HCL.
  assert (HInStay : forall b d, (b, d) ∈ (list_to_set isl : gset (Z * Z)) <->
     d ∈ Mini.days g /\ exists sd, Mini.stay_days g b = Ok sd /\ d ∈ sd).
  { intros b d. rewrite elem_of_list_to_set. apply HIS. }
  split; [|simpl; done].
  apply assemble_built; try done.
  - apply NoDup_range.
  - intros b d (Hd & sd & Hsd & _)%HInStay. split; [|done].
    apply Mini_stay_days_is_Ok. by eexists.
  - intros b d1 d2 d (Hd1 & sd & Hsd & Hin1)%HInStay
      (Hd2 & sd' & Hsd' & Hin2)%HInStay Hle.
    rewrite Hsd in Hsd'. injection Hsd' as <-.
    apply HInStay. unfold Mini.days in *.
    apply elem_of_range in Hd1, Hd2. split; [apply elem_of_range; lia|].
    exists sd. split; [done|].
    apply Mini_stay_days_Ok in Hsd as (s & L & p & q & _ & ->).
    apply elem_of_range in Hin1, Hin2. apply elem_of_range. lia.
  - intros b r d. rewrite elem_of_list_to_set, HCL, !HInStay. split.
    + intros (Hr & Hd & sd & Hsd & Hin & Hin').
      split_and!; [done|by eauto| |by eauto|done].
      pose proof (Mini_stay_days_upper _ _ _ Hsd Hin').
      unfold Mini.days in *. apply elem_of_range in Hd.
      apply elem_of_range. lia.
    + intros ((Hd & sd & Hsd & Hin) & (Hd' & sd' & Hsd' & Hin') & Hr).
      rewrite Hsd in Hsd'. injection Hsd' as <-. eauto 10.
  - intros b Hb%elem_of_keys. rewrite !lookup_fmap.
    destruct Hb as [t ->]. simpl. eauto.
Qed.

(** [build_model] raises only when a constraint rule returns a plain
    [bool]: a room-exclusivity sum over a day on which nobody stays. *)
Lemma Mini_build_is_Ok :
  (forall d, d ∈ Mini.days g -> Mini.rooms g <> [] ->
     exists b sd, Mini.stay_days g b = Ok sd /\ d ∈ sd) ->
  is_Ok (Mini.build_model g).
Proof.
  intros Hcover.
  unfold Mini.build_model. rewrite !Mini_Param_bookings, Mini_Param_CAP.
  simpl.
  destruct Mini_in_stay_list_is_Ok as [isl Hisl]. rewrite Hisl. simpl.
  destruct Mini_cont_list_is_Ok as [cl Hcl]. rewrite Hcl. simpl.
  pose proof (Mini_in_stay_list_spec _ Hisl) as HIS.
  pose proof (Mini_cont_list_spec _ Hcl) as HCL.
  set (InStay := list_to_set isl : gset (Z * Z)).
  assert (HInStay : forall b d, (b, d) ∈ InStay <->
     d ∈ Mini.days g /\ exists sd, Mini.stay_days g b = Ok sd /\ d ∈ sd).
  { intros b d. unfold InStay. rewrite elem_of_list_to_set. apply HIS. }
  assert (HIn : forall b d, (b, d) ∈ InStay -> b ∈ Mini.B g /\ d ∈ Mini.days g).
  { intros b d (Hd & sd & Hsd & _)%HInStay. split; [|done].
    apply Mini_stay_days_is_Ok. by eexists. }
  pose proof (elem_of_yidx_of (Mini.rooms g) InStay) as HY.
  destruct (Constraint_block_is_Ok (r ← Mini.rooms g; d ← Mini.days g; [(r, d)])
    (room_excl (Mini.B g) InStay (yidx_of (Mini.rooms g) InStay)))
    as [RoomExcl ->].
  { intros [r d] [Hr Hd]%elem_of_pairs. right. eexists. split.
    - by apply (room_excl_Ok _ (Mini.rooms g)).
    - apply (room_excl_native _ (Mini.days g)); [done|].
      destruct (Hcover d Hd) as (b & sd & Hsd & Hin).
      + intros E. rewrite E in Hr. by apply elem_of_nil in Hr.
      + exists b. apply HInStay. eauto. }
  simpl.
  destruct (Constraint_block_is_Ok (b ← Mini.B g; d ← Mini.days g; [(b, d)])
    (assign_link (Mini.B g) (Mini.rooms g) InStay
       (yidx_of (Mini.rooms g) InStay))) as [Assign ->].
  { intros [b d] _. destruct (decide ((b, d) ∈ InStay)) as [Hin|Hout].
    - right. eexists. split; [by apply (assign_link_Ok _ _ (Mini.days g))|].
      simpl. by rewrite andb_false_r.
    - left. by apply assign_link_Skip. }
  simpl.
  destruct (Constraint_block_is_Ok (elements (list_to_set cl : gset (Z * Z * Z)))
    (continuity (yidx_of (Mini.rooms g) InStay))) as [Continuity ->].
  { intros [[b r] d] Hc%elem_of_elements%elem_of_list_to_set%HCL.
    destruct Hc as (Hr & Hd & sd & Hsd & Hin & Hin').
    right. exists (continuity_constraint b r d). split; [|done].
    apply (continuity_Ok (Mini.rooms g) InStay); [done| | |done].
    - apply HInStay. eauto.
    - apply HInStay. split; [|by eauto].
      pose proof (Mini_stay_days_upper _ _ _ Hsd Hin').
      unfold Mini.days in *. apply elem_of_range in Hd.
      apply elem_of_range. lia. }
  simpl.
  destruct (Constraint_block_is_Ok (Mini.days g)
    (overbooking (Mini.B g) (Mini.days g) ((fun t => t.2) <$> Mini.bookings g)
       (Mini.CAP g) InStay)) as [Overbook ->].
  { intros d Hd. right.
    exists (overbooking_constraint (Mini.B g)
              ((fun t => t.2) <$> Mini.bookings g) InStay (Mini.ROOMS g) d).
    split; [|done].
    apply overbooking_Ok; [done| |].
    - rewrite Mini_CAP_lookup. by rewrite decide_True.
    - intros b [t Ht]%elem_of_keys. rewrite lookup_fmap, Ht. by eexists. }
  simpl.
  rewrite revenue_terms_Ok.
  - by eexists.
  - intros b [t Ht]%elem_of_keys. rewrite !lookup_fmap, Ht. split; by eexists.
Qed.

End MiniBuild.

(** ** The static builder *)

Lemma Static_stay_days_Ok mB mD (start length : gmap Z Z) b sd :
  Static._stay_days mB mD start length b = Ok sd <->
  b ∈ mB /\ exists s L, start !! b = Some s /\ length !! b = Some L /\
                        sd = filter (fun d => d >= s /\ d < s + L) mD.
Proof.
  unfold Static._stay_days. split.
  - intros H. apply bind_Ok_inv in H as (s & [Hb Hs]%param_get_Ok & H).
    apply bind_Ok_inv in H as (L & [_ HL]%param_get_Ok & H).
    injection H as <-. eauto 10.
  - intros (Hb & s & L & Hs & HL & ->).
    rewrite (param_get_Some mB start b s) by done. simpl.
    by rewrite (param_get_Some mB length b L).
Qed.

Section StaticBuild.
Context (bookings_arg : option (gmap Z Static.BookingSpec)) (days rooms : Z)
        (capacity_arg : option (gmap Z Z)).

Let bookings := default Static.build_default_bookings bookings_arg.
Let mD := range 1 (days + 1).
Let mR := range 1 (rooms + 1).
Let mB := (map_to_list bookings).*1.
Let capacity :=
  default (list_to_map ((fun d => (d, rooms)) <$> range 1 (days + 1)))
          capacity_arg.

Lemma Static_Param_bookings {V} (h : Static.BookingSpec -> V) :
  Param mB (h <$> bookings) Any = Ok (h <$> bookings).
Proof.
  apply Param_Ok. intros k v Hkv. split; [|done].
  apply elem_of_keys. rewrite lookup_fmap in Hkv.
  destruct (bookings !! k); [by eexists|discriminate].
Qed.

Lemma Static_instay_spec (start length : gmap Z Z) l :
  comprehend mB (fun b =>
    comprehend mD (fun d =>
      sd ← Static._stay_days mB mD start length b;
      Ok (if decide (d ∈ sd) then [(b, d)] else []))) = Ok l ->
  forall b d, (b, d) ∈ l <->
    exists sd, Static._stay_days mB mD start length b = Ok sd /\ d ∈ sd.
Proof.
  intros H b d. rewrite (comprehend_Ok_inv _ _ _ H). split.
  - intros (b0 & ys & Hb0 & Hys & Hin).
    rewrite (comprehend_Ok_inv _ _ _ Hys) in Hin.
    destruct Hin as (d0 & zs & Hd0 & Hzs & Hin).
    apply bind_Ok_inv in Hzs as (sd & Hsd & Hzs). injection Hzs as <-.
    destruct (decide (d0 ∈ sd)); [|by apply elem_of_nil in Hin].
    apply list_elem_of_singleton in Hin as [= -> ->]. eauto.
  - intros (sd & Hsd & Hin).
    pose proof Hsd as (Hb & s & L & _ & _ & ->)%Static_stay_days_Ok.
    pose proof Hin as [_ Hd]%list_elem_of_filter.
    destruct (comprehend_is_Ok_inv _ _ b (ex_intro _ _ H) Hb) as [ys Hys].
    exists b, ys. split_and!; [done..|].
    rewrite (comprehend_Ok_inv _ _ _ Hys).
    exists d, [(b, d)]. split_and!; [done| |by left].
    rewrite Hsd. simpl. by rewrite decide_True.
Qed.

Lemma Static_build_inv m :
  Static.build_static_lco_model bookings_arg days rooms capacity_arg = Ok m ->
  built m /\
  (m_B m = mB /\ m_R m = mR /\ m_D m = mD) /\
  (m_start m = Static.start_day <$> bookings /\
   m_len m = Static.length_of_stay <$> bookings /\
   m_price m = Static.price_per_night <$> bookings /\
   m_showp m = Static.show_prob <$> bookings /\
   m_cap m = capacity) /\
  (forall b spec, bookings !! b = Some spec -> Static.start_day spec ∈ mD) /\
  (forall d v, capacity !! d = Some v -> d ∈ mD) /\
  (forall b d, (b, d) ∈ m_InStay m <->
     exists sd, Static._stay_days mB mD (m_start m) (m_len m) b = Ok sd /\
                d ∈ sd).
Proof.
  unfold Static.build_static_lco_model.
  fold bookings. fold mD. fold mR. fold mB. fold capacity.
  rewrite !Static_Param_bookings. intros H.
  apply bind_Ok_inv in H as (start & Hstart & H).
  apply Param_Ok_inv in Hstart as [-> Hstart]. simpl in H.
  apply bind_Ok_inv in H as (cap & Hcap & H).
  apply Param_Ok_inv in Hcap as [-> Hcap].
  apply bind_Ok_inv in H as (isl & Hisl & H).
  apply bind_Ok_inv in H as (RoomExcl & HRoomExcl & H).
  apply bind_Ok_inv in H as (Assign & HAssign & H).
  apply bind_Ok_inv in H as (Continuity & HContinuity & H).
  apply bind_Ok_inv in H as (Overbook & HOverbook & H).
  apply bind_Ok_inv in H as (terms & Hterms & H).
  injection H as <-.
  pose proof (Static_instay_spec _ _ _ Hisl) as HIS.
  assert (HInStay : forall b d, (b, d) ∈ (list_to_set isl : gset (Z * Z)) <->
     exists sd, Static._stay_days mB mD (Static.start_day <$> bookings)
                  (Static.length_of_stay <$> bookings) b = Ok sd /\ d ∈ sd).
  { intros b d. rewrite elem_of_list_to_set. apply HIS. }
  split; [|simpl; split_and!; try done].
  - apply assemble_built; try done.
    + apply NoDup_range.
    + intros b d (sd & Hsd & Hin)%HInStay.
      apply Static_stay_days_Ok in Hsd as (Hb & s & L & _ & _ & ->).
      by apply list_elem_of_filter in Hin as [_ ?].
    + intros b d1 d2 d (sd & Hsd & Hin1)%HInStay (sd' & Hsd' & Hin2)%HInStay Hle.
      rewrite Hsd in Hsd'. injection Hsd' as <-.
      apply HInStay. exists sd. split; [done|].
      apply Static_stay_days_Ok in Hsd as (Hb & s & L & _ & _ & ->).
      apply list_elem_of_filter in Hin1 as [? Hd1], Hin2 as [? Hd2].
      apply list_elem_of_filter. unfold mD in *.
      apply elem_of_range in Hd1, Hd2. split; [lia|]. apply elem_of_range. lia.
    + intros b r d. rewrite elem_of_list_to_set, list_elem_of_bind. split.
      * intros (b0 & H & Hb0). apply list_elem_of_bind in H as (r0 & H & Hr0).
        apply list_elem_of_bind in H as (d0 & H & Hd0).
        destruct (decide _) as [[H1 H2]|]; [|by apply elem_of_nil in H].
        apply list_elem_of_singleton in H as [= -> -> ->]. done.
      * intros (H1 & H2 & Hr).
        pose proof H1 as (sd & Hsd & Hin)%HInStay.
        apply Static_stay_days_Ok in Hsd as (Hb & s & L & _ & _ & ->).
        apply list_elem_of_filter in Hin as [_ Hd].
        exists b. split; [|done]. apply list_elem_of_bind.
        exists r. split; [|done]. apply list_elem_of_bind.
        exists d. split; [|done]. rewrite decide_True by done. by left.
    + intros b [t Ht]%elem_of_keys. rewrite !lookup_fmap, Ht. simpl. eauto.
  - intros b spec Hb.
    destruct (Hstart b (Static.start_day spec)) as [_ Hw].
    + by rewrite lookup_fmap, Hb.
    + by apply bool_decide_eq_true in Hw.
  - intros d v Hd. by destruct (Hcap d v Hd).
Qed.

(** A day [d] on which some booking stays. *)
Lemma Static_stay_bounds b d sd :
  Static._stay_days mB mD (Static.start_day <$> bookings)
    (Static.length_of_stay <$> bookings) b = Ok sd ->
  (d ∈ sd <->
   d ∈ mD /\ exists spec, bookings !! b = Some spec /\
     Static.start_day spec <= d
       < Static.start_day spec + Static.length_of_stay spec).
Proof.
  intros (Hb & s & L & Hs & HL & ->)%Static_stay_days_Ok.
  rewrite !lookup_fmap in Hs, HL. rewrite list_elem_of_filter.
  destruct (bookings !! b) as [spec|]; [|discriminate].
  injection Hs as <-. injection HL as <-. split.
  - intros [? ?]. split; [done|]. exists spec. split; [done|lia].
  - intros (Hd & spec' & [= <-] & ?). split; [lia|done].
Qed.

Lemma Static_build_is_Ok :
  (forall b spec, bookings !! b = Some spec -> Static.start_day spec ∈ mD) ->
  (forall d, is_Some (capacity !! d) <-> d ∈ mD) ->
  (forall d, d ∈ mD -> mR <> [] ->
     exists b spec, bookings !! b = Some spec /\
       Static.start_day spec <= d
         < Static.start_day spec + Static.length_of_stay spec) ->
  is_Ok (Static.build_static_lco_model bookings_arg days rooms capacity_arg).
Proof.
  intros Hstart Hcapdom Hcover.
  unfold Static.build_static_lco_model.
  fold bookings. fold mD. fold mR. fold mB. fold capacity.
  rewrite !Static_Param_bookings.
  rewrite (Param_Ok mB (Static.start_day <$> bookings)); [simpl|]; cycle 1.
  { intros b s Hs. rewrite lookup_fmap in Hs.
    destruct (bookings !! b) as [spec|] eqn:E; [|discriminate].
    injection Hs as <-. split; [apply elem_of_keys; by eexists|].
    apply bool_decide_eq_true. by eapply Hstart. }
  rewrite (Param_Ok mD capacity); [simpl|]; cycle 1.
  { intros d v Hd. split; [|done]. apply Hcapdom. by eexists. }
  set (start := Static.start_day <$> bookings).
  set (length := Static.length_of_stay <$> bookings).
  assert (Hsd : forall b, b ∈ mB -> is_Ok (Static._stay_days mB mD start length b)).
  { intros b Hb. pose proof Hb as [spec Hspec]%elem_of_keys.
    eexists. apply Static_stay_days_Ok. split; [done|].
    exists (Static.start_day spec), (Static.length_of_stay spec).
    unfold start, length. rewrite !lookup_fmap, Hspec. done. }
  destruct (comprehend_is_Ok
    (fun b => comprehend mD (fun d =>
       sd ← Static._stay_days mB mD start length b;
       Ok (if decide (d ∈ sd) then [(b, d)] else []))) mB) as [isl Hisl].
  { intros b Hb. apply comprehend_is_Ok. intros d _.
    destruct (Hsd b Hb) as [sd ->]. by eexists. }
  rewrite Hisl. simpl.
  pose proof (Static_instay_spec _ _ _ Hisl) as HIS.
  set (InStay := list_to_set isl : gset (Z * Z)).
  assert (HInStay : forall b d, (b, d) ∈ InStay <->
     exists sd, Static._stay_days mB mD start length b = Ok sd /\ d ∈ sd).
  { intros b d. unfold InStay. rewrite elem_of_list_to_set. apply HIS. }
  assert (HIn : forall b d, (b, d) ∈ InStay -> b ∈ mB /\ d ∈ mD).
  { intros b d (sd & Hsd' & Hin)%HInStay.
    apply Static_stay_days_Ok in Hsd' as (Hb & s & L & _ & _ & ->).
    by apply list_elem_of_filter in Hin as [_ ?]. }
  pose proof (elem_of_yidx_of mR InStay) as HY.
  destruct (Constraint_block_is_Ok (r ← mR; d ← mD; [(r, d)])
    (room_excl mB InStay (yidx_of mR InStay))) as [RoomExcl ->].
  { intros [r d] [Hr Hd]%elem_of_pairs. right.
    exists (room_excl_constraint mB InStay r d). split.
    - by apply (room_excl_Ok _ mR).
    - apply (room_excl_native _ mD); [done|].
      destruct (Hcover d Hd) as (b & spec & Hspec & Hbd).
      + intros E. rewrite E in Hr. by apply elem_of_nil in Hr.
      + exists b. apply HInStay.
        destruct (Hsd b) as [sd Hsd']; [apply elem_of_keys; by eexists|].
        exists sd. split; [done|].
        apply (Static_stay_bounds b d sd Hsd'). eauto. }
  simpl.
  destruct (Constraint_block_is_Ok (b ← mB; d ← mD; [(b, d)])
    (assign_link mB mR InStay (yidx_of mR InStay))) as [Assign ->].
  { intros [b d] _. destruct (decide ((b, d) ∈ InStay)) as [Hin|Hout].
    - right. exists (assign_constraint mR b d).
      split; [by apply (assign_link_Ok _ _ mD)|].
      simpl. by rewrite andb_false_r.
    - left. by apply assign_link_Skip. }
  simpl.
  match goal with |- context [Constraint_block (elements ?c) _] =>
    set (cont := c) end.
  destruct (Constraint_block_is_Ok (elements cont)
    (continuity (yidx_of mR InStay))) as [Continuity ->].
  { intros [[b r] d] Hc%elem_of_elements%elem_of_list_to_set.
    apply list_elem_of_bind in Hc as (b0 & H & Hb0).
    apply list_elem_of_bind in H as (r0 & H & Hr0).
    apply list_elem_of_bind in H as (d0 & H & Hd0).
    destruct (decide _) as [[H1 H2]|]; [|by apply elem_of_nil in H].
    apply list_elem_of_singleton in H as [= -> -> ->].
    right. exists (continuity_constraint b0 r0 d0). split; [|done].
    by apply (continuity_Ok mR InStay). }
  simpl.
  destruct (Constraint_block_is_Ok mD
    (overbooking mB mD (Static.show_prob <$> bookings) capacity InStay))
    as [Overbook ->].
  { intros d Hd. right. destruct (proj2 (Hcapdom d) Hd) as [c Hc].
    exists (overbooking_constraint mB (Static.show_prob <$> bookings)
              InStay c d).
    split; [|done].
    apply overbooking_Ok; [done|done|].
    intros b [t Ht]%elem_of_keys. rewrite lookup_fmap, Ht. by eexists. }
  simpl.
  rewrite revenue_terms_Ok.
  - by eexists.
  - intros b [t Ht]%elem_of_keys. unfold length.
    rewrite !lookup_fmap, Ht. split; by eexists.
Qed.

Lemma Static_build_is_Ok_inv :
  is_Ok (Static.build_static_lco_model bookings_arg days rooms capacity_arg) ->
  (forall b spec, bookings !! b = Some spec -> Static.start_day spec ∈ mD) /\
  (forall d, is_Some (capacity !! d) <-> d ∈ mD) /\
  (forall d, d ∈ mD -> mR <> [] ->
     exists b spec, bookings !! b = Some spec /\
       Static.start_day spec <= d
         < Static.start_day spec + Static.length_of_stay spec).
Proof.
  intros [m Hm]. apply Static_build_inv in Hm
    as (Hb & (HB & HR & HD) & (Hst & Hlen & _ & _ & Hcap) & Hstart & Hkeys & HIS).
  split_and!; [done| |].
  - intros d. split; [intros [v Hv]; by eapply Hkeys|].
    intros Hd. rewrite <- Hcap. apply (bt_cap _ Hb). by rewrite HD.
  - intros d Hd HRne.
    destruct mR as [|r R'] eqn:E; [done|].
    destruct (bt_cover _ Hb r d) as [b Hbd].
    + rewrite HR. left.
    + by rewrite HD.
    + apply HIS in Hbd as (sd & Hsd & Hin). rewrite Hst, Hlen in Hsd.
      apply (Static_stay_bounds b d sd Hsd) in Hin as (_ & spec & ? & ?).
      eauto.
Qed.

End StaticBuild.

(** The data shipped with the two files satisfy what the builders need: the
    script's table and the default table build. *)
Lemma Mini_script_builds : is_Ok (Mini.build_model Mini.script).
Proof.
  apply Mini_build_is_Ok. intros d Hd%elem_of_range _. simpl in Hd.
  assert (d = 1 \/ d = 2 \/ d = 3 \/ d = 4 \/ d = 5) as [->|[->|[->|[->| ->]]]]
    by lia.
  - exists 1, [1; 2]. split; [reflexivity|left].
  - exists 3, [2; 3]. split; [reflexivity|left].
  - exists 5, [3; 4]. split; [reflexivity|left].
  - exists 7, [4; 5]. split; [reflexivity|left].
  - exists 9, [5]. split; [reflexivity|left].
Qed.

Lemma Static_default_builds :
  is_Ok (Static.build_static_lco_model None 5 10 None).
Proof.
  apply Static_build_is_Ok.
  - apply map_Forall_lookup.
    apply (bool_decide_unpack _). vm_compute. reflexivity.
  - intros d. cbn [default]. rewrite <- elem_of_dom, dom_list_to_map_L.
    rewrite elem_of_list_to_set, <- list_fmap_compose.
    by rewrite list_fmap_id.
  - intros d Hd%elem_of_range _. simpl in Hd.
    assert (d = 1 \/ d = 2 \/ d = 3 \/ d = 4 \/ d = 5) as [->|[->|[->|[->| ->]]]]
      by lia.
    + exists 1. eexists. split; [reflexivity|simpl; lia].
    + exists 3. eexists. split; [reflexivity|simpl; lia].
    + exists 5. eexists. split; [reflexivity|simpl; lia].
    + exists 7. eexists. split; [reflexivity|simpl; lia].
    + exists 9. eexists. split; [reflexivity|simpl; lia].
Qed.

(** ** The two-tier sequence *)

Lemma solve_tiers_run backend eps s :
  solve_tiers backend eps s =
  match backend (live s) with
  | Raised e => ({| live := live s; calls := calls s ++ [live s] |}, Raise e)
  | Returned st vals =>
      let s1 := {| live := set_val vals (live s);
                   calls := calls s ++ [live s] |} in
      match value vals (m_RevExpr (live s)) with
      | Raise e => (s1, Raise e)
      | Ok Z1 =>
          if constraint_native (revenue_floor (m_RevExpr (live s)) Z1 eps)
          then (s1, Raise ValueError)
          else
            let m2 := tier2_model (live s) vals Z1 eps in
            let cs := (calls s ++ [live s]) ++ [m2] in
            match backend m2 with
            | Raised e => ({| live := m2; calls := cs |}, Raise e)
            | Returned _ vals' =>
                ({| live := set_val vals' m2; calls := cs |}, Ok Z1)
            end
      end
  end.
Proof.
  unfold solve_tiers, mbind, M_bind, solve. simpl.
  destruct (backend (live s)) as [st vals|e]; [|done]. simpl.
  destruct (value vals (m_RevExpr (live s))) as [Z1|e]; [|done]. simpl.
  unfold add_RevenueFloor, check_relational, revenue_floor. simpl.
  destruct (is_native (m_RevExpr (live s))); simpl; [done|].
  rewrite mapM_var_w. simpl. unfold tier2_model, tier2_objective. simpl.
  unfold revenue_floor.
  destruct (backend _) as [st' vals'|e]; done.
Qed.

(** ** Solution extraction *)

Lemma above_half_true q : above_half q = true <-> (1 # 2 < q)%Q.
Proof.
  unfold above_half. rewrite negb_true_iff. split.
  - intros H. apply Qnot_le_lt. intros Hle%Qle_bool_iff. congruence.
  - intros H. destruct (Qle_bool q (1 # 2)) eqn:E; [|done].
    apply Qle_bool_iff in E. lra.
Qed.

Lemma accepted_now_Ok m b acc :
  accepted_now m b = Ok acc ->
  b ∈ m_B m /\ exists q, m_val m (Va b) = Some q /\ acc = above_half q.
Proof.
  unfold accepted_now. intros H.
  apply bind_Ok_inv in H as (e & [Hb ->]%var_a_Ok & H). simpl in H.
  destruct (m_val m (Va b)) as [q|]; [|discriminate]. simpl in H.
  injection H as <-. eauto.
Qed.

Lemma accepted_now_true m b :
  accepted_now m b = Ok true <-> b ∈ m_B m /\ above m (Va b).
Proof.
  split.
  - intros (Hb & q & Hq & Hacc)%accepted_now_Ok. split; [done|].
    exists q. split; [done|]. by apply above_half_true.
  - intros (Hb & q & Hq & Hlt). unfold accepted_now.
    rewrite var_a_In by done. simpl. rewrite Hq. simpl.
    by rewrite (proj2 (above_half_true q) Hlt).
Qed.

Lemma accepted_now_is_Ok m b :
  b ∈ m_B m -> is_Some (m_val m (Va b)) -> is_Ok (accepted_now m b).
Proof.
  intros Hb [q Hq]. unfold accepted_now. rewrite var_a_In by done. simpl.
  rewrite Hq. by eexists.
Qed.

Section RoomScan.
Context (m : Model) (b : Z).

Lemma all_days_ok_true r sdays :
  all_days_ok m b r sdays = Ok true <-> room_fits m b r sdays.
Proof.
  induction sdays as [|d rest IH]; simpl.
  - split; [|done]. intros _ d Hd. by apply elem_of_nil in Hd.
  - destruct (decide ((b, r, d) ∉ m_YIDX m)) as [Hout|Hin].
    { split; [discriminate|]. intros H. destruct (H d) as [? _]; [left|done]. }
    apply dec_stable in Hin. rewrite var_y_In by done. simpl.
    destruct (m_val m (Vy b r d)) as [q|] eqn:Hq; simpl.
    + destruct (Qle_bool q (1 # 2)) eqn:Hle.
      * split; [discriminate|]. intros H.
        destruct (H d) as (_ & q' & Hq' & Hlt); [left|].
        rewrite Hq in Hq'. injection Hq' as <-.
        apply Qle_bool_iff in Hle. lra.
      * rewrite IH. split.
        -- intros H d' [->|Hd']%elem_of_cons; [|by apply H].
           split; [done|]. exists q. split; [done|].
           apply Qnot_le_lt. intros Hle'%Qle_bool_iff. congruence.
        -- intros H d' Hd'. apply H. by right.
    + split; [discriminate|]. intros H.
      destruct (H d) as (_ & q' & Hq' & _); [left|]. congruence.
Qed.

Lemma all_days_ok_is_Ok r sdays :
  (forall d, d ∈ sdays -> (b, r, d) ∈ m_YIDX m ->
     is_Some (m_val m (Vy b r d))) ->
  is_Ok (all_days_ok m b r sdays).
Proof.
  induction sdays as [|d rest IH]; intros H; simpl; [by eexists|].
  destruct (decide ((b, r, d) ∉ m_YIDX m)) as [Hout|Hin]; [by eexists|].
  apply dec_stable in Hin. rewrite var_y_In by done. simpl.
  destruct (H d) as [q ->]; [left|done|]. simpl.
  destruct (Qle_bool q (1 # 2)); [by eexists|].
  apply IH. intros d' Hd'. apply H. by right.
Qed.

Lemma scan_rooms_Some sdays rs r :
  scan_rooms m b sdays rs = Ok (Some r) ->
  r ∈ rs /\ room_fits m b r sdays.
Proof.
  induction rs as [|r0 rest IH]; simpl; [discriminate|].
  intros H. apply bind_Ok_inv in H as ([|] & Hok & H).
  - injection H as <-. split; [left|]. by apply all_days_ok_true.
  - destruct (IH H) as [? ?]. split; [by right|done].
Qed.

Lemma scan_rooms_None sdays rs :
  scan_rooms m b sdays rs = Ok None ->
  forall r, r ∈ rs -> ~ room_fits m b r sdays.
Proof.
  induction rs as [|r0 rest IH]; simpl.
  - intros _ r Hr. by apply elem_of_nil in Hr.
  - intros H. apply bind_Ok_inv in H as ([|] & Hok & H); [discriminate|].
    intros r [->|Hr]%elem_of_cons.
    + intros Hfit%all_days_ok_true. congruence.
    + by apply IH.
Qed.

Lemma scan_rooms_is_Ok sdays rs :
  (forall r d, (b, r, d) ∈ m_YIDX m -> is_Some (m_val m (Vy b r d))) ->
  is_Ok (scan_rooms m b sdays rs).
Proof.
  intros H. induction rs as [|r0 rest IH]; simpl; [by eexists|].
  destruct (all_days_ok_is_Ok r0 sdays) as [[|] ->]; [by auto|by eexists|].
  simpl. done.
Qed.

End RoomScan.

(** The mini extraction loop. *)
Lemma Mini_extract_assignments_spec g m l :
  Mini.extract_assignments g m = Ok l ->
  forall b sdays room, (b, sdays, room) ∈ l <->
    (b ∈ m_B m /\ above m (Va b)) /\
    Mini.stay_days g b = Ok sdays /\
    scan_rooms m b sdays (m_R m) = Ok room.
Proof.
  intros H b sdays room. unfold Mini.extract_assignments in H.
  rewrite (comprehend_Ok_inv _ _ _ H). split.
  - intros (b0 & ys & Hb0 & Hys & Hin).
    apply bind_Ok_inv in Hys as ([|] & Hacc & Hys).
    + apply bind_Ok_inv in Hys as (sd & Hsd & Hys).
      apply bind_Ok_inv in Hys as (ro & Hro & Hys). injection Hys as <-.
      apply list_elem_of_singleton in Hin as [= -> -> ->].
      split_and!; [by apply accepted_now_true..|done|done].
    + injection Hys as <-. by apply elem_of_nil in Hin.
  - intros (Hacc%accepted_now_true & Hsd & Hro).
    exists b, [(b, sdays, room)]. split_and!; [|by rewrite Hacc; simpl; rewrite Hsd; simpl; rewrite Hro|by left].
    by apply accepted_now_true in Hacc as [? _].
Qed.

Lemma Mini_extract_assignments_is_Ok g m :
  valued m -> (forall b, b ∈ m_B m -> b ∈ Mini.B g) ->
  is_Ok (Mini.extract_assignments g m).
Proof.
  intros [Ha Hy] HB. apply comprehend_is_Ok. intros b Hb.
  destruct (accepted_now_is_Ok m b Hb (Ha b Hb)) as [[|] ->]; simpl;
    [|by eexists].
  destruct (proj2 (Mini_stay_days_is_Ok g b) (HB b Hb)) as [sd ->]. simpl.
  destruct (scan_rooms_is_Ok m b sd (m_R m)) as [ro ->]; [by auto|].
  by eexists.
Qed.

(** The static extraction: accepted list, then the room dict. *)
Lemma Static_extract_accepted_spec m acc :
  Static.extract_accepted m = Ok acc ->
  forall b, b ∈ acc <-> b ∈ m_B m /\ above m (Va b).
Proof.
  intros H b. unfold Static.extract_accepted in H.
  rewrite (comprehend_Ok_inv _ _ _ H). rewrite <- accepted_now_true. split.
  - intros (b0 & ys & Hb0 & Hys & Hin).
    apply bind_Ok_inv in Hys as ([|] & Hacc & Hys); injection Hys as <-.
    + by apply list_elem_of_singleton in Hin as ->.
    + by apply elem_of_nil in Hin.
  - intros Hacc. exists b, [b]. split_and!; [|by rewrite Hacc|by left].
    by apply accepted_now_true in Hacc as [? _].
Qed.

Lemma Static_extract_accepted_is_Ok m :
  valued m -> is_Ok (Static.extract_accepted m).
Proof.
  intros [Ha _]. apply comprehend_is_Ok. intros b Hb.
  destruct (accepted_now_is_Ok m b Hb (Ha b Hb)) as [acc ->]. by eexists.
Qed.

Lemma Static_extract_rooms_spec m acc init ra :
  Static.extract_rooms m acc init = Ok ra ->
  forall b,
    (b ∈ acc ->
       exists room sdays, ra !! b = Some (room, sdays) /\
         Static._stay_days (m_B m) (m_D m) (m_start m) (m_len m) b = Ok sdays /\
         scan_rooms m b sdays (m_R m) = Ok room) /\
    (b ∉ acc -> ra !! b = init !! b).
Proof.
  revert init. induction acc as [|b0 rest IH]; intros init H b; simpl in H.
  - injection H as <-. split; [intros Hb; by apply elem_of_nil in Hb|done].
  - apply bind_Ok_inv in H as (sd & Hsd & H).
    apply bind_Ok_inv in H as (ro & Hro & H).
    destruct (IH _ H b) as [IH1 IH2].
    destruct (decide (b ∈ rest)) as [Hin|Hout].
    + split; [intros _; by apply IH1|].
      intros Hn. exfalso. apply Hn. by right.
    + split.
      * intros [->|Hb]%elem_of_cons; [|done].
        exists ro, sd. rewrite (IH2 Hout), lookup_insert_eq. done.
      * intros Hn. rewrite (IH2 Hout).
        apply lookup_insert_ne. intros ->. apply Hn. by left.
Qed.

Lemma Static_extract_rooms_is_Ok m acc init :
  valued m -> (forall b, b ∈ acc -> b ∈ m_B m) ->
  (forall b, b ∈ m_B m -> is_Some (m_start m !! b) /\ is_Some (m_len m !! b)) ->
  is_Ok (Static.extract_rooms m acc init).
Proof.
  intros [Ha Hy] Hacc Hp. revert init.
  induction acc as [|b0 rest IH]; intros init; simpl; [by eexists|].
  assert (Hb0 : b0 ∈ m_B m) by (apply Hacc; left).
  destruct (Hp b0 Hb0) as [[s Hs] [L HL]].
  rewrite (proj2 (Static_stay_days_Ok (m_B m) (m_D m) (m_start m) (m_len m)
                    b0 (filter (fun d => d >= s /\ d < s + L) (m_D m))));
    [|by eauto 10].
  simpl.
  destruct (scan_rooms_is_Ok m b0
    (filter (fun d => d >= s /\ d < s + L) (m_D m)) (m_R m)) as [ro ->];
    [by auto|].
  simpl. apply IH. intros b Hb. apply Hacc. by right.
Qed.

(** ** Feasible points of a built model *)

Section Feasible.
Context (m : Model) (val : var -> Q).
Hypothesis Hb : built m.
Hypothesis Hf : feasible m val.

Lemma built_assign_sum b d :
  (b, d) ∈ m_InStay m ->
  (Qsum (map (fun r => val (Vy b r d)) (m_R m)) == val (Va b))%Q.
Proof.
  intros Hin.
  assert (Hc : (b, d, assign_constraint (m_R m) b d) ∈ m_Assign m)
    by by apply (bt_Assign _ Hb).
  apply (feas_Assign _ _ Hf) in Hc. unfold assign_constraint in Hc.
  simpl in Hc. rewrite eval_py_sum, map_map in Hc. exact Hc.
Qed.

Lemma built_y_binary b r d :
  (b, d) ∈ m_InStay m -> r ∈ m_R m -> binary (val (Vy b r d)).
Proof. intros Hin Hr. apply (feas_y _ _ Hf). by apply (bt_YIDX _ Hb). Qed.

(** Linkage: an accepted booking has exactly one room on a stay day, a
    rejected one none. *)
Lemma built_accepted_one_room b d :
  (b, d) ∈ m_InStay m -> (val (Va b) == 1)%Q ->
  exists r, r ∈ m_R m /\ (val (Vy b r d) == 1)%Q /\
    forall r', r' ∈ m_R m -> r' <> r -> (val (Vy b r' d) == 0)%Q.
Proof.
  intros Hin Ha.
  apply (Qsum_one_hot (fun r => val (Vy b r d)) (m_R m)).
  - apply (bt_R _ Hb).
  - intros r Hr. by apply built_y_binary.
  - rewrite built_assign_sum by done. exact Ha.
Qed.

Lemma built_rejected_no_room b d :
  (b, d) ∈ m_InStay m -> (val (Va b) == 0)%Q ->
  forall r, r ∈ m_R m -> (val (Vy b r d) == 0)%Q.
Proof.
  intros Hin Ha.
  apply (Qsum_binary_zero (fun r => val (Vy b r d)) (m_R m)).
  - intros r Hr. by apply built_y_binary.
  - rewrite built_assign_sum by done. exact Ha.
Qed.

(** Continuity, one step and along a whole stay. *)
Lemma built_continuity_step b r d :
  (b, d) ∈ m_InStay m -> (b, d + 1) ∈ m_InStay m -> r ∈ m_R m ->
  (val (Vy b r d) == val (Vy b r (d + 1)))%Q.
Proof.
  intros H1 H2 Hr.
  assert (Hc : (b, r, d, continuity_constraint b r d) ∈ m_Continuity m).
  { apply (bt_Continuity _ Hb). split; [|done]. by apply (bt_ContPair _ Hb). }
  apply (feas_Continuity _ _ Hf) in Hc. exact Hc.
Qed.

Lemma built_continuity_run b r d (n : nat) :
  (b, d) ∈ m_InStay m -> (b, d + Z.of_nat n) ∈ m_InStay m -> r ∈ m_R m ->
  (val (Vy b r d) == val (Vy b r (d + Z.of_nat n)))%Q.
Proof.
  intros H1 H2 Hr. induction n as [|n IH].
  - replace (d + Z.of_nat 0) with d by lia. reflexivity.
  - assert (Hmid : (b, d + Z.of_nat n) ∈ m_InStay m).
    { apply (bt_convex _ Hb b d (d + Z.of_nat (S n))); [done|done|lia]. }
    rewrite (IH Hmid).
    replace (d + Z.of_nat (S n)) with (d + Z.of_nat n + 1) in * by lia.
    by apply built_continuity_step.
Qed.

Lemma built_same_value b r d d' :
  (b, d) ∈ m_InStay m -> (b, d') ∈ m_InStay m -> r ∈ m_R m ->
  (val (Vy b r d) == val (Vy b r d'))%Q.
Proof.
  intros H1 H2 Hr. destruct (Z.le_gt_cases d d') as [Hle|Hgt].
  - replace d' with (d + Z.of_nat (Z.to_nat (d' - d))) in * by lia.
    by apply built_continuity_run.
  - symmetry.
    replace d with (d' + Z.of_nat (Z.to_nat (d - d'))) in * by lia.
    by apply built_continuity_run.
Qed.

(** An accepted booking keeps one and the same room on all its stay days. *)
Lemma built_accepted_single_room b d0 :
  (b, d0) ∈ m_InStay m -> (val (Va b) == 1)%Q ->
  exists r, r ∈ m_R m /\
    forall d, (b, d) ∈ m_InStay m ->
      (val (Vy b r d) == 1)%Q /\
      forall r', r' ∈ m_R m -> r' <> r -> (val (Vy b r' d) == 0)%Q.
Proof.
  intros H0 Ha.
  destruct (built_accepted_one_room b d0 H0 Ha) as (r & Hr & Hr1 & Hothers).
  exists r. split; [done|]. intros d Hd. split.
  - rewrite <- Hr1. by apply built_same_value.
  - intros r' Hr' Hne. rewrite <- (Hothers r' Hr' Hne).
    by apply built_same_value.
Qed.

End Feasible.

(** ** The drivers *)

Lemma Mini_build_is_Ok_inv g :
  is_Ok (Mini.build_model g) ->
  forall d, d ∈ Mini.days g -> Mini.rooms g <> [] ->
    exists b sd, Mini.stay_days g b = Ok sd /\ d ∈ sd.
Proof.
  intros [m Hm] d Hd Hne.
  apply Mini_build_inv in Hm as (Hb & (HB & HR & HD) & _ & HIS).
  destruct (Mini.rooms g) as [|r R'] eqn:E; [done|].
  destruct (bt_cover _ Hb r d) as [b Hbd].
  - rewrite HR. left.
  - by rewrite HD.
  - apply HIS in Hbd as (_ & sd & Hsd & Hin). eauto.
Qed.

(** After the two solves both drivers only read the live model. *)
Lemma Mini_two_tier_session g backend solver eps s :
  (Mini.two_tier g backend solver eps s).1
  = (solve_tiers (backend solver) eps s).1.
Proof.
  unfold Mini.two_tier, mbind, M_bind, readM, mret, M_ret.
  destruct (solve_tiers (backend solver) eps s) as [s' [Z1|e]]; [|done].
  simpl. destruct (slack_values (live s')); [|done].
  destruct (Mini.extract_assignments g (live s')); done.
Qed.

Lemma Static_two_tier_session backend solver_name eps s :
  (Static.two_tier backend solver_name eps s).1
  = (solve_tiers (backend solver_name) eps s).1.
Proof.
  unfold Static.two_tier, mbind, M_bind, readM, mret, M_ret.
  destruct (solve_tiers (backend solver_name) eps s) as [s' [Z1|e]]; [|done].
  simpl. destruct (slack_values (live s')); [|done].
  destruct (Static.extract_accepted (live s')) as [acc|]; [|done].
  destruct (Static.extract_rooms (live s') acc ∅); done.
Qed.



(** What the backend has seen after [solve_tiers] on a fresh session. *)
Lemma solve_tiers_calls backend eps m :
  let cs := calls (solve_tiers backend eps {| live := m; calls := [] |}).1 in
  cs !! 0%nat = Some m /\
  (length cs <= 2)%nat /\
  forall m2, cs !! 1%nat = Some m2 ->
    exists st vals Z1,
      backend m = Returned st vals /\
      value vals (m_RevExpr m) = Ok Z1 /\
      m2 = tier2_model m vals Z1 eps.
Proof.
  rewrite solve_tiers_run. simpl.
  destruct (backend m) as [st vals|e] eqn:Hb1; simpl.
  2: { split; [reflexivity|split; [lia|]]. intros m2 Hm2. discriminate. }
  destruct (value vals (m_RevExpr m)) as [Z1|e] eqn:Hv; simpl.
  2: { split; [reflexivity|split; [lia|]]. intros m2 Hm2. discriminate. }
  destruct (is_native (m_RevExpr m)); simpl.
  { split; [reflexivity|split; [lia|]]. intros m2 Hm2. discriminate. }
  destruct (backend (tier2_model m vals Z1 eps)); simpl;
    (split; [reflexivity|split; [simpl; lia|]]); intros m2 [= <-];
    exists st, vals, Z1; done.
Qed.

(** A failing element decides the exception of [mapM]. *)
Lemma mapM_Raise_inv {A B} (f : A -> result B) l e :
  mapM f l = Raise e -> exists x, x ∈ l /\ f x = Raise e.
Proof.
  induction l as [|x l IH]; simpl; [discriminate|].
  destruct (f x) as [y|e'] eqn:Hx; simpl.
  - destruct (mapM f l) as [k|e'']; simpl; [discriminate|].
    intros [= <-]. destruct IH as (x' & ? & ?); [done|].
    exists x'. split; [by right|done].
  - intros [= <-]. exists x. split; [left|done].
Qed.

Lemma Param_Raise_ValueError {V} index (init : gmap Z V) within e :
  (forall k, is_Some (init !! k) -> k ∈ index) ->
  Param index init within = Raise e -> e = ValueError.
Proof.
  intros Hk. unfold Param.
  destruct (mapM _ _) as [l|e'] eqn:E; simpl; [discriminate|].
  intros [= <-]. apply mapM_Raise_inv in E as ([k v] & Hkv & Hr).
  apply elem_of_map_to_list in Hkv. simpl in Hr.
  rewrite decide_True in Hr by (apply Hk; by eexists).
  destruct (within v); congruence.
Qed.

(** ** Stay days and the booking table *)


Lemma StronglySorted_seqZ m n : StronglySorted Z.lt (seqZ m n).
Proof.
  remember (Z.to_nat n) as k eqn:Hk. revert m n Hk.
  induction k as [|k IH]; intros m n Hk.
  - rewrite seqZ_nil by lia. constructor.
  - rewrite seqZ_cons by lia. constructor; [apply IH; lia|].
    apply Forall_forall. intros x Hx%elem_of_seqZ. lia.
Qed.

Lemma StronglySorted_filter_lt (P : Z -> Prop) `{!forall x, Decision (P x)} l :
  StronglySorted Z.lt l -> StronglySorted Z.lt (filter P l).
Proof.
  induction 1 as [|x l Hl IH Hx]; [constructor|].
  rewrite filter_cons. destruct (decide (P x)); [|done].
  constructor; [done|]. apply Forall_forall.
  intros y [_ Hy]%list_elem_of_filter.
  by apply (proj1 (Forall_forall _ _) Hx).
Qed.

Lemma sorted_lt_unique (l1 l2 : list Z) :
  StronglySorted Z.lt l1 -> StronglySorted Z.lt l2 ->
  (forall x, x ∈ l1 <-> x ∈ l2) -> l1 = l2.
Proof.
  intros H1. revert l2. induction H1 as [|x l1 Hl1 IH Hx]; intros l2 H2 Heq.
  - destruct l2 as [|y l2]; [done|].
    assert (Hy : y ∈ @nil Z) by (apply Heq; left). by apply elem_of_nil in Hy.
  - destruct H2 as [|y l2 Hl2 Hy].
    { assert (Hx' : x ∈ @nil Z) by (apply Heq; left).
      by apply elem_of_nil in Hx'. }
    rewrite Forall_forall in Hx, Hy.
    assert (x = y) as <-.
    { assert (Hxin : x ∈ y :: l2) by (apply Heq; left).
      assert (Hyin : y ∈ x :: l1) by (apply Heq; left).
      apply elem_of_cons in Hxin as [?|Hxin]; [done|].
      apply elem_of_cons in Hyin as [?|Hyin]; [done|].
      apply Hx in Hyin. apply Hy in Hxin. lia. }
    f_equal. apply IH; [done|]. intros z. split; intros Hz.
    + assert (Hz' : z ∈ x :: l2) by (apply Heq; by right).
      apply elem_of_cons in Hz' as [->|?]; [|done]. apply Hx in Hz. lia.
    + assert (Hz' : z ∈ x :: l1) by (apply Heq; by right).
      apply elem_of_cons in Hz' as [->|?]; [|done]. apply Hy in Hz. lia.
Qed.

Lemma elem_of_spec_stay_days H s L d :
  d ∈ spec_stay_days H s L <->
  s <= d <= Z.min (s + L - 1) H /\ 1 <= d <= H.
Proof.
  unfold spec_stay_days. rewrite list_elem_of_filter, elem_of_seqZ. lia.
Qed.


Lemma Mini_InStay_night g m :
  Mini.build_model g = Ok m ->
  forall b d, (b, d) ∈ m_InStay m <-> Mini_night g b d.
Proof.
  intros Hm b d. apply Mini_build_inv in Hm as (_ & _ & _ & HIS).
  rewrite HIS. unfold Mini_night, Mini.days. rewrite elem_of_range. split.
  - intros (Hd & sd & (s & L & p & q & Hrow & ->)%Mini_stay_days_Ok & Hin).
    apply elem_of_range in Hin. exists s, L, p, q. split; [done|].
    apply elem_of_spec_stay_days. lia.
  - intros (s & L & p & q & Hrow & Hin%elem_of_spec_stay_days).
    split; [lia|]. eexists. split.
    + apply Mini_stay_days_Ok. by exists s, L, p, q.
    + apply elem_of_range. lia.
Qed.

Lemma Static_InStay_night bookings days rooms cap m :
  Static.build_static_lco_model bookings days rooms cap = Ok m ->
  forall b d, (b, d) ∈ m_InStay m <-> Static_night bookings days b d.
Proof.
  intros Hm b d.
  apply Static_build_inv in Hm
    as (_ & (HB & _ & HD) & (Hst & Hlen & _) & _ & _ & HIS).
  rewrite HIS, Hst, Hlen. unfold Static_night. split.
  - intros (sd & (Hb & s & L & Hs & HL & ->)%Static_stay_days_Ok & Hin).
    rewrite lookup_fmap in Hs, HL.
    destruct (default Static.build_default_bookings bookings !! b)
      as [spec|] eqn:Hspec; [|discriminate].
    injection Hs as <-. injection HL as <-. exists spec. split; [done|].
    apply list_elem_of_filter in Hin as [Hin Hd]. apply elem_of_range in Hd.
    apply elem_of_spec_stay_days. lia.
  - intros (spec & Hspec & Hin%elem_of_spec_stay_days). eexists. split.
    + apply Static_stay_days_Ok. split; [apply elem_of_keys; by eexists|].
      exists (Static.start_day spec), (Static.length_of_stay spec).
      by rewrite !lookup_fmap, Hspec.
    + apply list_elem_of_filter. split; [lia|]. apply elem_of_range. lia.
Qed.

Lemma keys_nil {V} (d : gmap Z V) : (map_to_list d).*1 = [] <-> d = ∅.
Proof.
  rewrite <- map_to_list_empty_iff. split; [|by intros ->].
  by destruct (map_to_list d).
Qed.

(** * The claims *)

Lemma floor_then_tier2_nil backend eps : floor_then_tier2 backend eps [].
Proof.
  split_and!; [simpl; lia|done|done|].
  intros m o Hm. by apply elem_of_nil in Hm.
Qed.

Lemma floor_then_tier2_solve_tiers backend eps m :
  built m ->
  floor_then_tier2 backend eps
    (calls (solve_tiers backend eps {| live := m; calls := [] |}).1).
Proof.
  intros Hb.
  destruct (solve_tiers_calls backend eps m) as (H0 & Hlen & H1).
  set (cs := calls (solve_tiers backend eps {| live := m; calls := [] |}).1)
    in *.
  split_and!.
  - done.
  - intros m1 Hm1. rewrite H0 in Hm1. injection Hm1 as <-.
    split; [apply (bt_floor _ Hb)|apply (bt_obj _ Hb)].
  - intros m2 Hm2. destruct (H1 m2 Hm2) as (st & vals & Z1 & ? & ? & ->).
    exists m, st, vals, Z1. done.
  - intros m' o [i Hi]%list_elem_of_lookup Ho Hmin.
    pose proof (lookup_lt_Some _ _ _ Hi) as Hlt.
    destruct i as [|[|i]]; [| |lia].
    + rewrite H0 in Hi. injection Hi as <-.
      rewrite (bt_obj _ Hb) in Ho. injection Ho as <-. discriminate.
    + destruct (H1 m' Hi) as (st & vals & Z1 & ? & ? & ->). by eexists.
Qed.

(** C1. In both two-tier drivers the backend is called at most twice; the
    first call sees the model as built (Tier-1 objective, no floor); a second
    call happens only on a model that carries the revenue floor
    [RevenueExpr >= Z1 - eps], with [Z1] the value of the revenue expression
    under the values loaded by the first solve and [eps] the tolerance
    (1e-6, which is non-negative, when the caller gives none), and whose
    objective is [minimize sum_d w[d]]; no model with a minimizing objective
    ever reaches the backend without the floor. *)
Theorem C1_floor_precedes_tier2 :
  (forall g available backend eps solver,
     Mini.get_solver available = Ok solver ->
     floor_then_tier2 (backend solver) (default (1 # 1000000)%Q eps)
       (Mini.run_two_tier_demo g available backend eps).1) /\
  (forall bookings days rooms capacity_by_day backend solver_name tol,
     floor_then_tier2 (backend solver_name) (default (1 # 1000000)%Q tol)
       (Static.solve_two_tier_lco backend bookings days rooms capacity_by_day
          solver_name tol).1) /\
  (0 <= 1 # 1000000)%Q.
Proof.
  split_and!.
  - intros g available backend eps solver Hsolver.
    unfold Mini.run_two_tier_demo.
    destruct (Mini.build_model g) as [m|e] eqn:Hm;
      [|apply floor_then_tier2_nil].
    rewrite Hsolver. cbn [fst]. rewrite Mini_two_tier_session.
    apply floor_then_tier2_solve_tiers.
    by apply Mini_build_inv in Hm as [? _].
  - intros bookings days rooms cap backend solver_name tol.
    unfold Static.solve_two_tier_lco.
    destruct (Static.build_static_lco_model _ _ _ _) as [m|e] eqn:Hm;
      [|apply floor_then_tier2_nil].
    cbn [fst]. rewrite Static_two_tier_session.
    apply floor_then_tier2_solve_tiers.
    by apply Static_build_inv in Hm as [? _].
  - lra.
Qed.

(** On a small instance with a backend that returns values, the second
    solve does happen, and it happens on a model with the floor. *)
Lemma C1_floor_precedes_tier2_witness :
  Mini.get_solver all_available = Ok "highs"%string /\
  exists m1 m2,
    (Mini.run_two_tier_demo Mini_tiny all_available backend_optimal None).1
    = [m1; m2] /\
    m_RevenueFloor m1 = None /\
    m_RevenueFloor m2
    = Some (revenue_floor (m_RevExpr m1) 440 (1 # 1000000)).
Proof.
  split; [reflexivity|].
  pose proof (proj1 C1_floor_precedes_tier2 Mini_tiny all_available
                backend_optimal None "highs"%string eq_refl)
    as (Hlen & H0 & H1 & _).
  destruct (Mini.run_two_tier_demo Mini_tiny all_available backend_optimal
              None).1 as [|m1 [|m2 [|m3 cs]]] eqn:E;
    [by vm_compute in E|by vm_compute in E| |simpl in Hlen; lia].
  exists m1, m2. split; [done|].
  destruct (H0 m1 eq_refl) as [Hfloor1 _]. split; [done|].
  destruct (H1 m2 eq_refl) as (m1' & st & vals & Z1 & [= <-] & Hbk & Hv & Hf & _).
  rewrite Hf. unfold backend_optimal in Hbk. injection Hbk as <- <-.
  assert (Hm1 : m_RevExpr m1
    = default (EConst 0) (m_RevExpr <$>
        (Mini.run_two_tier_demo Mini_tiny all_available backend_optimal
           None).1 !! 0%nat)) by (rewrite E; done).
  revert Hv. rewrite Hm1. vm_compute. intros [= <-]. reflexivity.
Defined.

Lemma map_keys_lookup {V A} (d : gmap Z V) (f : Z -> option V -> A) :
  map (fun k => f k (d !! k)) (map_to_list d).*1
  = map (fun kv => f kv.1 (Some kv.2)) (map_to_list d).
Proof.
  assert (H : forall kv, kv ∈ map_to_list d -> d !! kv.1 = Some kv.2).
  { intros [k v]. apply elem_of_map_to_list. }
  induction (map_to_list d) as [|[k v] l IH]; simpl; [done|].
  pose proof (H (k, v) ltac:(left)) as Hkv. simpl in Hkv. rewrite Hkv.
  f_equal. apply IH. intros kv Hkv'. apply H. by right.
Qed.

Lemma Qsum_single_term {V} (l : list (Z * V)) (val : var -> Q)
    (c : Z * V -> Q) b v :
  NoDup l.*1 -> (b, v) ∈ l -> accepts_only val b ->
  (Qsum (map (fun kv => val (Va kv.1) * c kv) l) == c (b, v))%Q.
Proof.
  intros Hnd Hin Hval.
  assert (Hzero : forall l' : list (Z * V), b ∉ l'.*1 ->
            (Qsum (map (fun kv => val (Va kv.1) * c kv) l') == 0)%Q).
  { induction l' as [|[k w] l' IH]; simpl; intros Hn; [reflexivity|].
    rewrite IH by (intros ?; apply Hn; by right).
    rewrite (Hval k). rewrite decide_False; [ring|].
    intros ->. apply Hn. left. }
  induction l as [|[k w] l IH]; [by apply elem_of_nil in Hin|].
  simpl in *. apply NoDup_cons in Hnd as [Hk Hnd].
  apply elem_of_cons in Hin as [[= <- <-]|Hin].
  - rewrite (Hzero l Hk), (Hval b), decide_True by done. ring.
  - rewrite (IH Hnd Hin), (Hval k). rewrite decide_False; [ring|].
    intros ->. apply Hk. apply list_elem_of_fmap. by exists (b, v).
Qed.

Lemma eval_Mini_revenue bookings val :
  (eval val (Mini_revenue bookings)
   == Qsum (map (fun kv : Z * (Z * Z * Q * Q) =>
                   val (Va kv.1) * (kv.2.1.2 * inject_Z kv.2.1.1.2))
                (map_to_list bookings)))%Q.
Proof.
  unfold Mini_revenue. rewrite eval_py_sum, map_map.
  induction (map_to_list bookings) as [|kv l IH]; simpl; [reflexivity|].
  rewrite IH. ring.
Qed.

Lemma eval_Static_revenue bookings val :
  (eval val (Static_revenue bookings)
   == Qsum (map (fun kv : Z * Static.BookingSpec =>
                   val (Va kv.1) * (Static.price_per_night kv.2
                                    * inject_Z (Static.length_of_stay kv.2)))
                (map_to_list bookings)))%Q.
Proof.
  unfold Static_revenue. rewrite eval_py_sum, map_map.
  induction (map_to_list bookings) as [|kv l IH]; simpl; [reflexivity|].
  rewrite IH. ring.
Qed.

(** C2. In both builders the Tier-1 objective maximizes the sum, over every
    booking of the table, of [accept[b] * price_per_night(b) *
    length_of_stay(b)] with the length read from the booking record: the
    expression does not mention the horizon, and accepting one booking alone
    is worth its price times its full length, whatever part of the stay lies
    beyond the last horizon day. *)
Theorem C2_revenue_uses_full_length :
  (forall g m, Mini.build_model g = Ok m ->
     m_RevExpr m = Mini_revenue (Mini.bookings g) /\
     m_obj m = Some {| obj_expr := Mini_revenue (Mini.bookings g);
                       obj_sense := maximize |} /\
     forall b s L price showp val,
       Mini.bookings g !! b = Some (s, L, price, showp) ->
       accepts_only val b ->
       (eval val (m_RevExpr m) == price * inject_Z L)%Q) /\
  (forall bookings days rooms capacity_by_day m,
     Static.build_static_lco_model bookings days rooms capacity_by_day = Ok m ->
     let table := default Static.build_default_bookings bookings in
     m_RevExpr m = Static_revenue table /\
     m_obj m = Some {| obj_expr := Static_revenue table;
                       obj_sense := maximize |} /\
     forall b spec val,
       table !! b = Some spec ->
       accepts_only val b ->
       (eval val (m_RevExpr m)
        == Static.price_per_night spec
           * inject_Z (Static.length_of_stay spec))%Q).
Proof.
  split.
  - intros g m Hm.
    apply Mini_build_inv in Hm as (Hb & (HB & _) & (_ & Hlen & Hprice & _) & _).
    assert (Hrev : m_RevExpr m = Mini_revenue (Mini.bookings g)).
    { rewrite (bt_RevExpr _ Hb), HB, Hlen, Hprice. unfold Mini_revenue, Mini.B.
      f_equal.
      etrans; [|etrans; [apply (map_keys_lookup (Mini.bookings g)
        (fun k o => revenue_term k (default 0%Q ((fun t => t.1.2) <$> o))
                                   (default 0 ((fun t => t.1.1.2) <$> o))))
                        |reflexivity]].
      apply map_ext. intros k. by rewrite !lookup_fmap. }
    split_and!; [done|by rewrite (bt_obj _ Hb), Hrev|].
    intros b s L price showp val Hbk Hval.
    rewrite Hrev, eval_Mini_revenue.
    rewrite (Qsum_single_term _ val
      (fun kv : Z * (Z * Z * Q * Q) => (kv.2.1.2 * inject_Z kv.2.1.1.2)%Q)
      b (s, L, price, showp)); [reflexivity| | |done].
    + apply NoDup_fst_map_to_list.
    + by apply elem_of_map_to_list.
  - intros bookings days rooms cap m Hm table.
    apply Static_build_inv in Hm
      as (Hb & (HB & _) & (_ & Hlen & Hprice & _) & _).
    fold table in HB, Hlen, Hprice.
    assert (Hrev : m_RevExpr m = Static_revenue table).
    { rewrite (bt_RevExpr _ Hb), HB, Hlen, Hprice. unfold Static_revenue.
      f_equal.
      etrans; [|etrans; [apply (map_keys_lookup table
        (fun k o => revenue_term k
                      (default 0%Q (Static.price_per_night <$> o))
                      (default 0 (Static.length_of_stay <$> o))))
                        |reflexivity]].
      apply map_ext. intros k. by rewrite !lookup_fmap. }
    split_and!; [done|by rewrite (bt_obj _ Hb), Hrev|].
    intros b spec val Hbk Hval.
    rewrite Hrev, eval_Static_revenue.
    rewrite (Qsum_single_term _ val
      (fun kv : Z * Static.BookingSpec =>
         (Static.price_per_night kv.2
          * inject_Z (Static.length_of_stay kv.2))%Q) b spec);
      [reflexivity| | |done].
    + apply NoDup_fst_map_to_list.
    + by apply elem_of_map_to_list.
Qed.

(** Booking 2 of the small instance starts on the last day and is three
    nights long: one stay day, three nights of revenue. *)
Lemma C2_revenue_uses_full_length_witness :
  exists m, Mini.build_model Mini_tiny = Ok m /\
    Mini.stay_days Mini_tiny 2 = Ok [2] /\
    forall val, accepts_only val 2 -> (eval val (m_RevExpr m) == 240)%Q.
Proof.
  destruct (Mini.build_model Mini_tiny) as [m|e] eqn:E;
    [|by vm_compute in E].
  exists m. split_and!; [done|reflexivity|].
  intros val Hval.
  destruct (proj1 C2_revenue_uses_full_length Mini_tiny m E) as (_ & _ & H).
  rewrite (H 2 2 3 80%Q 0.5%Q val); [reflexivity|reflexivity|done].
Defined.

Lemma solve_tiers_same_but_status backend backend' eps s :
  (forall m, same_but_status (backend m) (backend' m)) ->
  solve_tiers backend eps s = solve_tiers backend' eps s.
Proof.
  intros H. rewrite !solve_tiers_run.
  pose proof (H (live s)) as H1.
  destruct (backend (live s)) as [st vals|e],
           (backend' (live s)) as [st' vals'|e']; simpl in H1;
    [subst vals'|done|done|by subst].
  destruct (value vals (m_RevExpr (live s))) as [Z1|e]; [|done].
  destruct (constraint_native _); [done|]. cbv zeta.
  pose proof (H (tier2_model (live s) vals Z1 eps)) as H2.
  destruct (backend (tier2_model (live s) vals Z1 eps)) as [st2 vals2|e2],
           (backend' (tier2_model (live s) vals Z1 eps)) as [st2' vals2'|e2'];
    simpl in H2; [by subst|done|done|by subst].
Qed.

Lemma built_RevExpr_not_native m :
  built m -> m_B m <> [] -> is_native (m_RevExpr m) = false.
Proof.
  intros Hb Hne. rewrite (bt_RevExpr _ Hb), is_native_py_sum.
  destruct (m_B m); [done|]. simpl. done.
Qed.

Lemma built_RevExpr_native m :
  built m -> m_B m = [] -> m_RevExpr m = EConst 0.
Proof. intros Hb HB. by rewrite (bt_RevExpr _ Hb), HB. Qed.

(** With an empty table the revenue is the number 0: the floor compares two
    numbers and is rejected after the one solve. *)
Lemma solve_tiers_empty_table backend eps m st vals :
  built m -> m_B m = [] ->
  backend m = Returned st vals ->
  let sr := solve_tiers backend eps {| live := m; calls := [] |} in
  calls sr.1 = [m] /\ sr.2 = Raise ValueError.
Proof.
  intros Hb HB Hbk. rewrite solve_tiers_run. simpl.
  rewrite Hbk, (built_RevExpr_native m Hb HB). simpl. done.
Qed.

(** C3 (as the code behaves). Neither driver reads the status of a solve.
    An exception raised by the Tier-1 backend call reaches the caller
    unchanged, after that single call and with no floor injected; it names
    no tier. When the Tier-1 call returns, with whatever status, the booking
    table is not empty and the revenue expression has a value, the floor is
    injected and the Tier-2 solve runs. When the call returns and the table
    is empty, the revenue is the plain number 0, the floor is a comparison
    of two numbers, and the driver raises [ValueError] after that one solve.
    Two backends that differ only in the statuses they report give the same
    run. *)
Theorem C3_solve_status_is_never_read :
  (forall g available backend eps solver m e,
     Mini.build_model g = Ok m ->
     Mini.get_solver available = Ok solver ->
     backend solver m = Raised e ->
     Mini.run_two_tier_demo g available backend eps = ([m], Raise e)) /\
  (forall bookings days rooms capacity_by_day backend solver_name tol m e,
     Static.build_static_lco_model bookings days rooms capacity_by_day = Ok m ->
     backend solver_name m = Raised e ->
     Static.solve_two_tier_lco backend bookings days rooms capacity_by_day
       solver_name tol = ([m], Raise e)) /\
  (forall g available backend eps solver m st vals Z1,
     Mini.build_model g = Ok m ->
     Mini.get_solver available = Ok solver ->
     Mini.bookings g <> ∅ ->
     backend solver m = Returned st vals ->
     value vals (m_RevExpr m) = Ok Z1 ->
     (Mini.run_two_tier_demo g available backend eps).1
     = [m; tier2_model m vals Z1 (default (1 # 1000000)%Q eps)]) /\
  (forall bookings days rooms capacity_by_day backend solver_name tol m
          st vals Z1,
     Static.build_static_lco_model bookings days rooms capacity_by_day = Ok m ->
     default Static.build_default_bookings bookings <> ∅ ->
     backend solver_name m = Returned st vals ->
     value vals (m_RevExpr m) = Ok Z1 ->
     (Static.solve_two_tier_lco backend bookings days rooms capacity_by_day
        solver_name tol).1
     = [m; tier2_model m vals Z1 (default (1 # 1000000)%Q tol)]) /\
  (forall g available backend eps solver m st vals,
     Mini.build_model g = Ok m ->
     Mini.get_solver available = Ok solver ->
     Mini.bookings g = ∅ ->
     backend solver m = Returned st vals ->
     Mini.run_two_tier_demo g available backend eps
     = ([m], Raise ValueError)) /\
  (forall bookings days rooms capacity_by_day backend solver_name tol m
          st vals,
     Static.build_static_lco_model bookings days rooms capacity_by_day = Ok m ->
     default Static.build_default_bookings bookings = ∅ ->
     backend solver_name m = Returned st vals ->
     Static.solve_two_tier_lco backend bookings days rooms capacity_by_day
       solver_name tol
     = ([m], Raise ValueError)) /\
  (forall g available backend backend' eps,
     (forall solver m, same_but_status (backend solver m) (backend' solver m)) ->
     Mini.run_two_tier_demo g available backend eps
     = Mini.run_two_tier_demo g available backend' eps) /\
  (forall bookings days rooms capacity_by_day backend backend' solver_name tol,
     (forall solver m, same_but_status (backend solver m) (backend' solver m)) ->
     Static.solve_two_tier_lco backend bookings days rooms capacity_by_day
       solver_name tol
     = Static.solve_two_tier_lco backend' bookings days rooms capacity_by_day
         solver_name tol).
Proof.
  split_and!.
  - intros g available backend eps solver m e Hm Hs Hbk.
    unfold Mini.run_two_tier_demo. rewrite Hm, Hs.
    unfold Mini.two_tier, mbind, M_bind. rewrite solve_tiers_run. simpl.
    by rewrite Hbk.
  - intros bookings days rooms cap backend solver_name tol m e Hm Hbk.
    unfold Static.solve_two_tier_lco. rewrite Hm.
    unfold Static.two_tier, mbind, M_bind. rewrite solve_tiers_run. simpl.
    by rewrite Hbk.
  - intros g available backend eps solver m st vals Z1 Hm Hs Hne Hbk Hv.
    pose proof Hm as (Hb & (HB & _) & _)%Mini_build_inv.
    unfold Mini.run_two_tier_demo. rewrite Hm, Hs. cbn [fst].
    rewrite Mini_two_tier_session, solve_tiers_run. simpl.
    rewrite Hbk, Hv. unfold revenue_floor. simpl.
    rewrite (built_RevExpr_not_native m Hb).
    2: { rewrite HB. intros H. by apply keys_nil in H. }
    simpl.
    by destruct (backend solver
                  (tier2_model m vals Z1 (default (1 # 1000000)%Q eps))).
  - intros bookings days rooms cap backend solver_name tol m st vals Z1
      Hm Hne Hbk Hv.
    pose proof Hm as (Hb & (HB & _) & _)%Static_build_inv.
    unfold Static.solve_two_tier_lco. rewrite Hm. cbn [fst].
    rewrite Static_two_tier_session, solve_tiers_run. simpl.
    rewrite Hbk, Hv. unfold revenue_floor. simpl.
    rewrite (built_RevExpr_not_native m Hb).
    2: { rewrite HB. intros H. by apply keys_nil in H. }
    simpl.
    by destruct (backend solver_name
                  (tier2_model m vals Z1 (default (1 # 1000000)%Q tol))).
  - intros g available backend eps solver m st vals Hm Hs He Hbk.
    pose proof Hm as (Hb & (HB & _) & _)%Mini_build_inv.
    destruct (solve_tiers_empty_table (backend solver)
                (default (1 # 1000000)%Q eps) m st vals Hb) as [Hc Hr];
      [rewrite HB; by apply keys_nil|done|].
    unfold Mini.run_two_tier_demo. rewrite Hm, Hs.
    rewrite Mini_two_tier_session, Hc. f_equal.
    unfold Mini.two_tier, mbind, M_bind.
    by destruct (solve_tiers (backend solver) _ _) as [s' [Z1|e']];
      simpl in *; [discriminate|injection Hr as ->].
  - intros bookings days rooms cap backend solver_name tol m st vals
      Hm He Hbk.
    pose proof Hm as (Hb & (HB & _) & _)%Static_build_inv.
    destruct (solve_tiers_empty_table (backend solver_name)
                (default (1 # 1000000)%Q tol) m st vals Hb) as [Hc Hr];
      [rewrite HB; by apply keys_nil|done|].
    unfold Static.solve_two_tier_lco. rewrite Hm.
    rewrite Static_two_tier_session, Hc. f_equal.
    unfold Static.two_tier, mbind, M_bind.
    by destruct (solve_tiers (backend solver_name) _ _) as [s' [Z1|e']];
      simpl in *; [discriminate|injection Hr as ->].
  - intros g available backend backend' eps H.
    unfold Mini.run_two_tier_demo.
    destruct (Mini.build_model g) as [m|e]; [|done].
    destruct (Mini.get_solver available) as [solver|e]; [|done].
    unfold Mini.two_tier, mbind, M_bind.
    by rewrite (solve_tiers_same_but_status (backend solver) (backend' solver)).
  - intros bookings days rooms cap backend backend' solver_name tol H.
    unfold Static.solve_two_tier_lco.
    destruct (Static.build_static_lco_model _ _ _ _) as [m|e]; [|done].
    unfold Static.two_tier, mbind, M_bind.
    by rewrite (solve_tiers_same_but_status (backend solver_name)
                  (backend' solver_name)).
Qed.

(** A crashing solver on the small instance: one call, the solver's own
    exception comes back. A solver that answers the instance without
    bookings and rooms: one call, then [ValueError]. *)
Lemma C3_solve_status_is_never_read_witness :
  (exists m, Mini.build_model Mini_tiny = Ok m /\
     Mini.get_solver all_available = Ok "highs"%string /\
     backend_down "highs"%string m = Raised (SolverError 1) /\
     Mini.run_two_tier_demo Mini_tiny all_available backend_down None
     = ([m], Raise (SolverError 1))) /\
  (exists m, Mini.build_model Mini_empty = Ok m /\
     Mini.bookings Mini_empty = ∅ /\
     Mini.run_two_tier_demo Mini_empty all_available backend_optimal None
     = ([m], Raise ValueError)).
Proof.
  split.
  - destruct (Mini.build_model Mini_tiny) as [m|e] eqn:E;
      [|by vm_compute in E].
    exists m. split_and!; [done|reflexivity|reflexivity|].
    exact (proj1 C3_solve_status_is_never_read Mini_tiny all_available
             backend_down None "highs"%string m (SolverError 1)
             E eq_refl eq_refl).
  - destruct (Mini.build_model Mini_empty) as [m|e] eqn:E;
      [|by vm_compute in E].
    exists m. split_and!; [done|reflexivity|].
    exact (proj1 (proj2 (proj2 (proj2 (proj2 C3_solve_status_is_never_read))))
             Mini_empty all_available backend_optimal None "highs"%string m
             OPTIMAL diagonal_values E eq_refl eq_refl eq_refl).
Defined.

(** C3 as stated fails: the backend reports the Tier-1 model infeasible, and
    the driver still runs the Tier-2 solve and returns a result. *)
Lemma C3_counterexample :
  ~ surfaces_tier1_failure (backend_infeasible "highs"%string)
      (Mini.run_two_tier_demo Mini_tiny all_available backend_infeasible None).
Proof.
  unfold surfaces_tier1_failure. intros H.
  assert (Hlen : length (Mini.run_two_tier_demo Mini_tiny all_available
                           backend_infeasible None).1 = 2%nat)
    by (vm_compute; reflexivity).
  destruct (Mini.run_two_tier_demo Mini_tiny all_available
              backend_infeasible None).1 as [|m1 cs] eqn:E; [discriminate|].
  destruct (H m1) as [_ H1]; [done|simpl; discriminate|].
  simpl in *. lia.
Qed.




Lemma Static_InStay_stays bookings days rooms cap m :
  Static.build_static_lco_model bookings days rooms cap = Ok m ->
  forall b d, (b, d) ∈ m_InStay m <-> Static_stays m b d.
Proof.
  intros Hm b d.
  apply Static_build_inv in Hm as (_ & (HB & _ & HD) & _ & _ & _ & HIS).
  rewrite HIS. unfold Static_stays. by rewrite HB, HD.
Qed.

(** C5. In the model either builder returns, the assignment variable
    [y[b,r,d]] exists exactly when [b] is a booking of the table, [d] is one
    of its derived stay days (the days of [s .. min(s + L - 1, horizon)]
    within [1, horizon]) and [r] is a room; so no variable exists for a day
    outside the horizon, also for a booking whose stay runs past it. For the
    script, in terms of what [stay_days] returns: exactly when [d >= 1] is
    in [stay_days(b)] and [r] is a room. *)
Theorem C5_assignment_variables_are_sparse :
  (forall g m, Mini.build_model g = Ok m ->
     (forall b r d, (b, r, d) ∈ m_YIDX m <->
                    Mini_night g b d /\ 1 <= r <= Mini.ROOMS g) /\
     (forall b r d, (b, r, d) ∈ m_YIDX m <->
                    (1 <= d /\ Mini_stays g b d) /\ 1 <= r <= Mini.ROOMS g) /\
     (forall b r d, ~ 1 <= d <= Mini.DAYS g -> (b, r, d) ∉ m_YIDX m)) /\
  (forall bookings days rooms capacity_by_day m,
     Static.build_static_lco_model bookings days rooms capacity_by_day = Ok m ->
     (forall b r d, (b, r, d) ∈ m_YIDX m <->
                    Static_night bookings days b d /\ 1 <= r <= rooms) /\
     (forall b r d, ~ 1 <= d <= days -> (b, r, d) ∉ m_YIDX m)).
Proof.
  split.
  - intros g m Hm.
    pose proof (Mini_InStay_night g m Hm) as HIS.
    pose proof Hm as (Hb & (_ & HR & HD) & _ & HIS')%Mini_build_inv.
    split_and!.
    + intros b r d. rewrite (bt_YIDX _ Hb), HIS, HR. unfold Mini.rooms.
      rewrite elem_of_range. split; intros [? ?]; (split; [done|lia]).
    + intros b r d. rewrite (bt_YIDX _ Hb), HIS', HR. unfold Mini.rooms.
      rewrite !elem_of_range. unfold Mini_stays. split.
      * intros [[Hd Hst] Hr]. unfold Mini.days in Hd.
        apply elem_of_range in Hd. split; [|lia]. split; [lia|done].
      * intros [[Hd (sd & Hsd & Hin)] Hr]. split; [|lia].
        split; [|by exists sd]. unfold Mini.days. apply elem_of_range.
        pose proof (Mini_stay_days_upper g b sd d Hsd Hin). lia.
    + intros b r d Hd [Hin _]%(bt_YIDX _ Hb).
      apply (bt_InStay _ Hb) in Hin as [_ Hin]. rewrite HD in Hin.
      apply elem_of_range in Hin. lia.
  - intros bookings days rooms cap m Hm.
    pose proof (Static_InStay_night _ _ _ _ m Hm) as HIS.
    pose proof Hm as (Hb & (_ & HR & HD) & _)%Static_build_inv.
    split.
    + intros b r d. rewrite (bt_YIDX _ Hb), HIS, HR.
      rewrite elem_of_range. split; intros [? ?]; (split; [done|lia]).
    + intros b r d Hd [Hin _]%(bt_YIDX _ Hb).
      apply (bt_InStay _ Hb) in Hin as [_ Hin]. rewrite HD in Hin.
      apply elem_of_range in Hin. lia.
Qed.

Lemma Mini_tiny_night_2_2 : Mini_night Mini_tiny 2 2.
Proof. exists 2, 3, 80%Q, 0.5%Q. split; [reflexivity|]. vm_compute. left. Qed.

Lemma Static_tiny_night_2_2 : Static_night (Some Static_tiny) 2 2 2.
Proof. eexists. split; [reflexivity|]. vm_compute. left. Qed.

(** Booking 2 of the small instance (start 2, three nights, horizon 2) has
    its variables on day 2 and none on day 3, in the model of either
    builder; booking 1 of the instance that starts on day 0 has none on
    day 0. *)
Lemma C5_assignment_variables_are_sparse_witness :
  (exists m, Mini.build_model Mini_tiny = Ok m /\
     (2, 1, 2) ∈ m_YIDX m /\ (2, 1, 3) ∉ m_YIDX m) /\
  (exists m, Mini.build_model Mini_early = Ok m /\
     (1, 1, 1) ∈ m_YIDX m /\ (1, 1, 0) ∉ m_YIDX m) /\
  (exists m, Static.build_static_lco_model (Some Static_tiny) 2 2 None = Ok m /\
     (2, 1, 2) ∈ m_YIDX m /\ (2, 1, 3) ∉ m_YIDX m).
Proof.
  split_and!.
  - destruct (Mini.build_model Mini_tiny) as [m|e] eqn:E;
      [|by vm_compute in E].
    exists m.
    destruct (proj1 C5_assignment_variables_are_sparse Mini_tiny m E)
      as (Hiff & _ & Hout).
    split_and!; [done| |].
    + apply Hiff. split; [exact Mini_tiny_night_2_2|simpl; lia].
    + apply Hout. simpl. lia.
  - destruct (Mini.build_model Mini_early) as [m|e] eqn:E;
      [|by vm_compute in E].
    exists m.
    destruct (proj1 C5_assignment_variables_are_sparse Mini_early m E)
      as (Hiff & _ & Hout).
    split_and!; [done| |].
    + apply Hiff. split; [|simpl; lia].
      exists 0, 2, 100%Q, 0.9%Q. split; [reflexivity|]. vm_compute. left.
    + apply Hout. simpl. lia.
  - destruct (Static.build_static_lco_model (Some Static_tiny) 2 2 None)
      as [m|e] eqn:E; [|by vm_compute in E].
    exists m.
    destruct (proj2 C5_assignment_variables_are_sparse (Some Static_tiny)
                2 2 None m E) as (Hiff & Hout).
    split_and!; [done| |].
    + apply Hiff. split; [exact Static_tiny_night_2_2|lia].
    + apply Hout. lia.
Defined.

(** C6. In the model either builder returns, the linkage constraint
    [sum_r y[b,r,d] == a[b]] is present for exactly the pairs [(b, d)] with
    [b] a booking of the table and [d] one of its derived stay days (the
    days of [s .. min(s + L - 1, horizon)] within [1, horizon]); for every
    other pair there is no constraint at all. Hence, at every feasible
    point, an accepted booking ([a[b] = 1]) occupies exactly one room on
    each stay day and a rejected one ([a[b] = 0]) none. *)
Theorem C6_acceptance_assignment_linkage :
  (forall g m, Mini.build_model g = Ok m ->
     (forall b d c, (b, d, c) ∈ m_Assign m <->
        Mini_night g b d /\ c = assign_constraint (Mini.rooms g) b d) /\
     (forall val, feasible m val ->
        forall b d, Mini_night g b d ->
          ((val (Va b) == 1)%Q -> one_room_on val (Mini.rooms g) b d) /\
          ((val (Va b) == 0)%Q -> no_room_on val (Mini.rooms g) b d))) /\
  (forall bookings days rooms capacity_by_day m,
     Static.build_static_lco_model bookings days rooms capacity_by_day = Ok m ->
     (forall b d c, (b, d, c) ∈ m_Assign m <->
        Static_night bookings days b d /\
        c = assign_constraint (range 1 (rooms + 1)) b d) /\
     (forall val, feasible m val ->
        forall b d, Static_night bookings days b d ->
          ((val (Va b) == 1)%Q -> one_room_on val (range 1 (rooms + 1)) b d) /\
          ((val (Va b) == 0)%Q -> no_room_on val (range 1 (rooms + 1)) b d))).
Proof.
  split.
  - intros g m Hm.
    pose proof (Mini_InStay_night g m Hm) as HIS.
    pose proof Hm as (Hb & (_ & HR & _) & _ & _)%Mini_build_inv.
    split.
    + intros b d c. by rewrite (bt_Assign _ Hb), HIS, HR.
    + intros val Hf b d Hbd%HIS. rewrite <- HR. split; intros Ha.
      * exact (built_accepted_one_room m val Hb Hf b d Hbd Ha).
      * exact (built_rejected_no_room m val Hb Hf b d Hbd Ha).
  - intros bookings days rooms cap m Hm.
    pose proof (Static_InStay_night _ _ _ _ m Hm) as HIS.
    pose proof Hm as (Hb & (_ & HR & _) & _)%Static_build_inv.
    split.
    + intros b d c. by rewrite (bt_Assign _ Hb), HIS, HR.
    + intros val Hf b d Hbd%HIS. rewrite <- HR. split; intros Ha.
      * exact (built_accepted_one_room m val Hb Hf b d Hbd Ha).
      * exact (built_rejected_no_room m val Hb Hf b d Hbd Ha).
Qed.

(** C7. In the model either builder returns, the continuity constraint
    [y[b,r,d] == y[b,r,d+1]] is present for exactly the triples with [r] a
    room and both [d] and [d + 1] derived stay days of the booking [b] of
    the table. Hence, at every feasible point, an accepted booking occupies
    one and the same room, and only that room, on all of its stay days. *)
Theorem C7_continuity_single_room :
  (forall g m, Mini.build_model g = Ok m ->
     (forall b r d c, (b, r, d, c) ∈ m_Continuity m <->
        (Mini_night g b d /\ Mini_night g b (d + 1) /\ r ∈ Mini.rooms g) /\
        c = continuity_constraint b r d) /\
     (forall val, feasible m val ->
        forall b d0, Mini_night g b d0 -> (val (Va b) == 1)%Q ->
          exists r, r ∈ Mini.rooms g /\
            forall d, Mini_night g b d ->
              in_room_on val (Mini.rooms g) b r d)) /\
  (forall bookings days rooms capacity_by_day m,
     Static.build_static_lco_model bookings days rooms capacity_by_day = Ok m ->
     (forall b r d c, (b, r, d, c) ∈ m_Continuity m <->
        (Static_night bookings days b d /\ Static_night bookings days b (d + 1) /\
         r ∈ range 1 (rooms + 1)) /\
        c = continuity_constraint b r d) /\
     (forall val, feasible m val ->
        forall b d0, Static_night bookings days b d0 -> (val (Va b) == 1)%Q ->
          exists r, r ∈ range 1 (rooms + 1) /\
            forall d, Static_night bookings days b d ->
              in_room_on val (range 1 (rooms + 1)) b r d)).
Proof.
  split.
  - intros g m Hm.
    pose proof (Mini_InStay_night g m Hm) as HIS.
    pose proof Hm as (Hb & (_ & HR & _) & _ & _)%Mini_build_inv.
    split.
    + intros b r d c.
      by rewrite (bt_Continuity _ Hb), (bt_ContPair _ Hb), !HIS, HR.
    + intros val Hf b d0 Hd0%HIS Ha. rewrite <- HR.
      destruct (built_accepted_single_room m val Hb Hf b d0 Hd0 Ha)
        as (r & Hr & Hall).
      exists r. split; [done|]. intros d Hd%HIS. exact (Hall d Hd).
  - intros bookings days rooms cap m Hm.
    pose proof (Static_InStay_night _ _ _ _ m Hm) as HIS.
    pose proof Hm as (Hb & (_ & HR & _) & _)%Static_build_inv.
    split.
    + intros b r d c.
      by rewrite (bt_Continuity _ Hb), (bt_ContPair _ Hb), !HIS, HR.
    + intros val Hf b d0 Hd0%HIS Ha. rewrite <- HR.
      destruct (built_accepted_single_room m val Hb Hf b d0 Hd0 Ha)
        as (r & Hr & Hall).
      exists r. split; [done|]. intros d Hd%HIS. exact (Hall d Hd).
Qed.

(** The small instance has a feasible point: each booking in the room of
    its own number. *)
Lemma Mini_tiny_feasible m :
  Mini.build_model Mini_tiny = Ok m -> feasible m diagonal.
Proof.
  intros E. vm_compute in E. injection E as <-.
  split; cbn [m_B m_R m_D m_YIDX m_RoomExcl m_Assign m_Continuity m_Overbook
              m_RevenueFloor].
  - intros b _. by right.
  - intros b r d _. simpl. destruct (b =? r); [by right|by left].
  - intros d _. simpl. lra.
  - intros i c Hin.
    repeat (apply elem_of_cons in Hin as [[= -> ->]|Hin];
            [vm_compute; discriminate|]).
    by apply elem_of_nil in Hin.
  - intros i c Hin.
    repeat (apply elem_of_cons in Hin as [[= -> ->]|Hin];
            [vm_compute; reflexivity|]).
    by apply elem_of_nil in Hin.
  - intros i c Hin.
    repeat (apply elem_of_cons in Hin as [[= -> ->]|Hin];
            [vm_compute; reflexivity|]).
    by apply elem_of_nil in Hin.
  - intros i c Hin.
    repeat (apply elem_of_cons in Hin as [[= -> ->]|Hin];
            [vm_compute; discriminate|]).
    by apply elem_of_nil in Hin.
  - discriminate.
Qed.

(** So has the small static instance. *)
Lemma Static_tiny_feasible m :
  Static.build_static_lco_model (Some Static_tiny) 2 2 None = Ok m ->
  feasible m diagonal.
Proof.
  intros E. vm_compute in E. injection E as <-.
  split; cbn [m_B m_R m_D m_YIDX m_RoomExcl m_Assign m_Continuity m_Overbook
              m_RevenueFloor].
  - intros b _. by right.
  - intros b r d _. simpl. destruct (b =? r); [by right|by left].
  - intros d _. simpl. lra.
  - intros i c Hin.
    repeat (apply elem_of_cons in Hin as [[= -> ->]|Hin];
            [vm_compute; discriminate|]).
    by apply elem_of_nil in Hin.
  - intros i c Hin.
    repeat (apply elem_of_cons in Hin as [[= -> ->]|Hin];
            [vm_compute; reflexivity|]).
    by apply elem_of_nil in Hin.
  - intros i c Hin.
    repeat (apply elem_of_cons in Hin as [[= -> ->]|Hin];
            [vm_compute; reflexivity|]).
    by apply elem_of_nil in Hin.
  - intros i c Hin.
    repeat (apply elem_of_cons in Hin as [[= -> ->]|Hin];
            [vm_compute; discriminate|]).
    by apply elem_of_nil in Hin.
  - discriminate.
Qed.

Lemma Mini_tiny_no_night_2_3 : ~ Mini_night Mini_tiny 2 3.
Proof.
  intros (s & L & p & q & Hrow & Hin). vm_compute in Hrow.
  injection Hrow as <- <- _ _. apply elem_of_spec_stay_days in Hin.
  simpl in Hin. lia.
Qed.

Lemma Static_tiny_no_night_2_3 : ~ Static_night (Some Static_tiny) 2 2 3.
Proof.
  intros (spec & Hspec & Hin). vm_compute in Hspec. injection Hspec as <-.
  apply elem_of_spec_stay_days in Hin. simpl in Hin. lia.
Qed.

Lemma Mini_tiny_night_1 d : Mini_night Mini_tiny 1 d <-> d = 1 \/ d = 2.
Proof.
  split.
  - intros (s & L & p & q & Hrow & Hin). vm_compute in Hrow.
    injection Hrow as <- <- _ _. apply elem_of_spec_stay_days in Hin.
  simpl in Hin. lia.
  - intros Hd. exists 1, 2, 100%Q, 0.9%Q. split; [reflexivity|].
    apply elem_of_spec_stay_days. simpl. lia.
Qed.

Lemma Static_tiny_night_1 d :
  Static_night (Some Static_tiny) 2 1 d <-> d = 1 \/ d = 2.
Proof.
  split.
  - intros (spec & Hspec & Hin). vm_compute in Hspec. injection Hspec as <-.
    apply elem_of_spec_stay_days in Hin. simpl in Hin. lia.
  - intros Hd. eexists. split; [reflexivity|].
    apply elem_of_spec_stay_days. simpl. lia.
Qed.

(** Booking 2 of the small instance, in the model of either builder: linked
    on day 2, nothing on day 3, and in exactly one room at the feasible
    point. *)
Lemma C6_acceptance_assignment_linkage_witness :
  (exists m, Mini.build_model Mini_tiny = Ok m /\
     feasible m diagonal /\
     (2, 2, assign_constraint (Mini.rooms Mini_tiny) 2 2) ∈ m_Assign m /\
     (forall c, (2, 3, c) ∉ m_Assign m) /\
     one_room_on diagonal (Mini.rooms Mini_tiny) 2 2) /\
  (exists m, Static.build_static_lco_model (Some Static_tiny) 2 2 None = Ok m /\
     feasible m diagonal /\
     (2, 2, assign_constraint (range 1 (2 + 1)) 2 2) ∈ m_Assign m /\
     (forall c, (2, 3, c) ∉ m_Assign m) /\
     one_room_on diagonal (range 1 (2 + 1)) 2 2).
Proof.
  split.
  - destruct (Mini.build_model Mini_tiny) as [m|e] eqn:E;
      [|by vm_compute in E].
    exists m.
    destruct (proj1 C6_acceptance_assignment_linkage Mini_tiny m E)
      as [Hiff Hsem].
    split_and!; [done|by apply Mini_tiny_feasible| | |].
    + apply Hiff. split; [exact Mini_tiny_night_2_2|done].
    + intros c [Hst _]%Hiff. by apply Mini_tiny_no_night_2_3.
    + apply (Hsem diagonal (Mini_tiny_feasible m E) 2 2 Mini_tiny_night_2_2).
      reflexivity.
  - destruct (Static.build_static_lco_model (Some Static_tiny) 2 2 None)
      as [m|e] eqn:E; [|by vm_compute in E].
    exists m.
    destruct (proj2 C6_acceptance_assignment_linkage (Some Static_tiny)
                2 2 None m E) as [Hiff Hsem].
    split_and!; [done|by apply Static_tiny_feasible| | |].
    + apply Hiff. split; [exact Static_tiny_night_2_2|done].
    + intros c [Hst _]%Hiff. by apply Static_tiny_no_night_2_3.
    + apply (Hsem diagonal (Static_tiny_feasible m E) 2 2
               Static_tiny_night_2_2).
      reflexivity.
Defined.

(** Booking 1 of the small instance stays on days 1 and 2: in the model of
    either builder the two days are tied by a continuity constraint, and at
    the feasible point it is in one room on both. *)
Lemma C7_continuity_single_room_witness :
  (exists m, Mini.build_model Mini_tiny = Ok m /\
     feasible m diagonal /\
     (1, 1, 1, continuity_constraint 1 1 1) ∈ m_Continuity m /\
     (forall c, (2, 1, 2, c) ∉ m_Continuity m) /\
     exists r, r ∈ Mini.rooms Mini_tiny /\
       in_room_on diagonal (Mini.rooms Mini_tiny) 1 r 1 /\
       in_room_on diagonal (Mini.rooms Mini_tiny) 1 r 2) /\
  (exists m, Static.build_static_lco_model (Some Static_tiny) 2 2 None = Ok m /\
     feasible m diagonal /\
     (1, 1, 1, continuity_constraint 1 1 1) ∈ m_Continuity m /\
     (forall c, (2, 1, 2, c) ∉ m_Continuity m) /\
     exists r, r ∈ range 1 (2 + 1) /\
       in_room_on diagonal (range 1 (2 + 1)) 1 r 1 /\
       in_room_on diagonal (range 1 (2 + 1)) 1 r 2).
Proof.
  split.
  - destruct (Mini.build_model Mini_tiny) as [m|e] eqn:E;
      [|by vm_compute in E].
    exists m.
    destruct (proj1 C7_continuity_single_room Mini_tiny m E) as [Hiff Hsem].
    split_and!; [done|by apply Mini_tiny_feasible| | |].
    + apply Hiff. split; [|done].
      split_and!; [apply Mini_tiny_night_1; lia..|].
      apply elem_of_range. simpl. lia.
    + intros c [(_ & Hst & _) _]%Hiff. by apply Mini_tiny_no_night_2_3.
    + destruct (Hsem diagonal (Mini_tiny_feasible m E) 1 1) as (r & Hr & Hall);
        [apply Mini_tiny_night_1; lia|reflexivity|].
      exists r. split_and!; [done|apply Hall..]; apply Mini_tiny_night_1; lia.
  - destruct (Static.build_static_lco_model (Some Static_tiny) 2 2 None)
      as [m|e] eqn:E; [|by vm_compute in E].
    exists m.
    destruct (proj2 C7_continuity_single_room (Some Static_tiny) 2 2 None m E)
      as [Hiff Hsem].
    split_and!; [done|by apply Static_tiny_feasible| | |].
    + apply Hiff. split; [|done].
      split_and!; [apply Static_tiny_night_1; lia..|].
      apply elem_of_range. lia.
    + intros c [(_ & Hst & _) _]%Hiff. by apply Static_tiny_no_night_2_3.
    + destruct (Hsem diagonal (Static_tiny_feasible m E) 1 1)
        as (r & Hr & Hall);
        [apply Static_tiny_night_1; lia|reflexivity|].
      exists r.
      split_and!; [done|apply Hall..]; apply Static_tiny_night_1; lia.
Defined.

Lemma expr_vars_fold_EAdd xs acc v :
  v ∈ expr_vars (fold_left EAdd xs acc) <->
  v ∈ expr_vars acc \/ exists e, e ∈ xs /\ v ∈ expr_vars e.
Proof.
  revert acc. induction xs as [|x xs IH]; intros acc; simpl.
  - split; [by left|]. intros [?|(e & He & _)]; [done|].
    by apply elem_of_nil in He.
  - rewrite IH. simpl. rewrite elem_of_app. split.
    + intros [[?|?]|(e & He & Hv)]; [by left|right..].
      * exists x. split; [left|done].
      * exists e. split; [by right|done].
    + intros [?|(e & [->|He]%elem_of_cons & Hv)];
        [by left; left|by left; right|right; eauto].
Qed.

Lemma expr_vars_py_sum xs v :
  v ∈ expr_vars (py_sum xs) <-> exists e, e ∈ xs /\ v ∈ expr_vars e.
Proof.
  unfold py_sum. rewrite expr_vars_fold_EAdd. simpl. split.
  - intros [H|?]; [by apply elem_of_nil in H|done].
  - by right.
Qed.

(** A constraint of a built model only mentions bookings that stay. *)
Lemma built_contributes_stays m b :
  built m -> contributes m b -> exists d, (b, d) ∈ m_InStay m.
Proof.
  intros Hb [H|[H|[H|H]]].
  - destruct H as ([r d] & c & Hin & v & Hv & Hvb).
    apply (bt_RoomExcl _ Hb) in Hin as (_ & _ & ->).
    unfold room_excl_constraint in Hv. simpl in Hv.
    rewrite ?app_nil_r in Hv. apply expr_vars_py_sum in Hv as (e & He & Hv).
    apply list_elem_of_In, in_map_iff in He as (b' & <- & Hb').
    apply list_elem_of_In, list_elem_of_filter in Hb' as [Hb' _].
    simpl in Hv. apply list_elem_of_singleton in Hv as ->.
    simpl in Hvb. subst b'. eauto.
  - destruct H as ([b' d] & c & Hin & v & Hv & Hvb).
    apply (bt_Assign _ Hb) in Hin as (Hin & ->).
    unfold assign_constraint in Hv. simpl in Hv.
    apply elem_of_app in Hv as [Hv|Hv].
    + apply expr_vars_py_sum in Hv as (e & He & Hv).
      apply list_elem_of_In, in_map_iff in He as (r & <- & _).
      simpl in Hv. apply list_elem_of_singleton in Hv as ->.
      simpl in Hvb. subst b'. eauto.
    + apply list_elem_of_singleton in Hv as ->. simpl in Hvb. subst b'. eauto.
  - destruct H as ([[b' r] d] & c & Hin & v & Hv & Hvb).
    apply (bt_Continuity _ Hb) in Hin as (Hin & ->).
    apply (bt_ContPair _ Hb) in Hin as (Hin & _).
    simpl in Hv. apply elem_of_cons in Hv as [->|Hv].
    + simpl in Hvb. subst b'. eauto.
    + apply list_elem_of_singleton in Hv as ->. simpl in Hvb. subst b'. eauto.
  - destruct H as (d & c & Hin & v & Hv & Hvb).
    apply (bt_Overbook _ Hb) in Hin as (_ & cd & _ & ->).
    unfold overbooking_constraint in Hv. simpl in Hv.
    apply elem_of_cons in Hv as [->|Hv]; [done|].
    rewrite ?app_nil_r in Hv. apply expr_vars_py_sum in Hv as (e & He & Hv).
    apply list_elem_of_In, in_map_iff in He as (b' & <- & Hb').
    apply list_elem_of_In, list_elem_of_filter in Hb' as [Hb' _].
    simpl in Hv. rewrite ?app_nil_r in Hv.
    apply list_elem_of_singleton in Hv as ->.
    simpl in Hvb. subst b'. eauto.
Qed.

(** C8 (as the code behaves). Neither builder validates its instance, and no
    [InvalidInstance] error exists. Whether [build_static_lco_model] succeeds
    does not depend on the capacities, only on the days they are given for;
    each capacity, negative or not, is carried as it is into the overbooking
    constraint of its day. A booking that takes part in any constraint of a
    built model has at least one stay day, so a booking with an empty derived
    stay never contributes to a constraint. *)
Theorem C8_builders_do_not_validate :
  (forall bookings days rooms (cap cap' : gmap Z Z),
     (forall d, is_Some (cap !! d) <-> is_Some (cap' !! d)) ->
     is_Ok (Static.build_static_lco_model bookings days rooms (Some cap)) ->
     is_Ok (Static.build_static_lco_model bookings days rooms (Some cap'))) /\
  (forall bookings days rooms (cap : gmap Z Z) m,
     Static.build_static_lco_model bookings days rooms (Some cap) = Ok m ->
     forall d, d ∈ range 1 (days + 1) ->
       exists c, cap !! d = Some c /\
         (d, overbooking_constraint (m_B m) (m_showp m) (m_InStay m) c d)
         ∈ m_Overbook m) /\
  (forall g m b, Mini.build_model g = Ok m ->
     contributes m b -> exists d, Mini_stays g b d) /\
  (forall bookings days rooms capacity_by_day m b,
     Static.build_static_lco_model bookings days rooms capacity_by_day = Ok m ->
     contributes m b -> exists d, Static_stays m b d).
Proof.
  split_and!.
  - intros bookings days rooms cap cap' Hdom Hok.
    apply Static_build_is_Ok_inv in Hok as (Hstart & Hcap & Hcover).
    apply Static_build_is_Ok; [done| |done].
    intros d. simpl in *. by rewrite <- Hdom.
  - intros bookings days rooms cap m Hm d Hd.
    apply Static_build_inv in Hm as (Hb & (_ & _ & HD) & (_ & _ & _ & _ & Hcap) & _).
    simpl in Hcap. rewrite <- HD in Hd.
    destruct (bt_cap _ Hb d Hd) as [c Hc].
    exists c. split; [by rewrite <- Hcap|].
    apply (bt_Overbook _ Hb). split; [done|]. by exists c.
  - intros g m b Hm Hc.
    pose proof Hm as (Hb & _ & _ & HIS)%Mini_build_inv.
    destruct (built_contributes_stays m b Hb Hc) as [d Hd].
    exists d. by apply HIS in Hd as [_ ?].
  - intros bookings days rooms cap m b Hm Hc.
    pose proof Hm as (Hb & _)%Static_build_inv.
    destruct (built_contributes_stays m b Hb Hc) as [d Hd].
    exists d. by apply (Static_InStay_stays _ _ _ _ m Hm).
Qed.

(** The small instance builds with a capacity of -1 on day 1 just as it does
    with capacity 2. *)
Lemma C8_builders_do_not_validate_witness :
  (forall d, is_Some (plain_capacity !! d) <-> is_Some (negative_capacity !! d)) /\
  is_Ok (Static.build_static_lco_model (Some Static_tiny) 2 2
           (Some plain_capacity)) /\
  is_Ok (Static.build_static_lco_model (Some Static_tiny) 2 2
           (Some negative_capacity)).
Proof.
  assert (Hdom : forall d, is_Some (plain_capacity !! d)
                           <-> is_Some (negative_capacity !! d)).
  { intros d. rewrite <- !elem_of_dom.
    assert (dom plain_capacity = dom negative_capacity) as ->
      by (vm_compute; reflexivity).
    done. }
  assert (Hok : is_Ok (Static.build_static_lco_model (Some Static_tiny) 2 2
                         (Some plain_capacity)))
    by (vm_compute; eexists; reflexivity).
  split_and!; [exact Hdom|exact Hok|].
  exact (proj1 C8_builders_do_not_validate (Some Static_tiny) 2 2
           plain_capacity negative_capacity Hdom Hok).
Defined.

(** C8 as stated fails: with a capacity of -1 on day 1 the static builder
    returns a model. *)
Lemma C8_counterexample : ~ rejects_negative_capacity.
Proof.
  intros H.
  destruct (H (Some Static_tiny) 2 2 negative_capacity 1 (-1))
    as [e He]; [reflexivity|lia|].
  vm_compute in He. discriminate.
Qed.

Lemma scan_rooms_report m b sd rs room :
  scan_rooms m b sd rs = Ok room ->
  match room with
  | Some r => r ∈ rs /\ room_fits m b r sd
  | None => forall r, r ∈ rs -> ~ room_fits m b r sd
  end.
Proof.
  destruct room as [r|]; [apply scan_rooms_Some|apply scan_rooms_None].
Qed.

Lemma Mini_extraction_holds g m l :
  Mini.extract_assignments g m = Ok l -> Mini_extraction g m l.
Proof.
  intros H. pose proof (Mini_extract_assignments_spec g m l H) as Hspec.
  split.
  - intros b. split.
    + intros (sd & room & Hin). by apply Hspec in Hin as (? & _).
    + intros Hacc. pose proof Hacc as [Hb _].
      apply accepted_now_true in Hacc.
      destruct (comprehend_is_Ok_inv _ _ b (ex_intro _ _ H) Hb) as [ys Hys].
      rewrite Hacc in Hys. simpl in Hys.
      apply bind_Ok_inv in Hys as (sd & Hsd & Hys).
      apply bind_Ok_inv in Hys as (room & Hroom & _).
      exists sd, room. apply Hspec.
      split; [by apply accepted_now_true|done].
  - intros b sd room (_ & Hsd & Hroom)%Hspec. split; [done|].
    by apply scan_rooms_report.
Qed.

Lemma Static_extraction_holds m accepted rooms :
  Static.extract_accepted m = Ok accepted ->
  Static.extract_rooms m accepted ∅ = Ok rooms ->
  Static_extraction m accepted rooms.
Proof.
  intros Hacc Hrooms.
  pose proof (Static_extract_rooms_spec m accepted ∅ rooms Hrooms) as Hspec.
  split_and!.
  - by apply Static_extract_accepted_spec.
  - intros b. destruct (Hspec b) as [Hin Hout]. split.
    + intros Hsome. destruct (decide (b ∈ accepted)) as [|Hn]; [done|].
      rewrite (Hout Hn), lookup_empty in Hsome. by destruct Hsome.
    + intros Hb. destruct (Hin Hb) as (room & sd & -> & _). by eexists.
  - intros b sd room Hb. destruct (Hspec b) as [Hin Hout].
    destruct (decide (b ∈ accepted)) as [Hacc'|Hn].
    + destruct (Hin Hacc') as (room' & sd' & Hb' & Hsd & Hroom).
      rewrite Hb in Hb'. injection Hb' as <- <-. split; [done|].
      by apply scan_rooms_report.
    + by rewrite (Hout Hn), lookup_empty in Hb.
Qed.



Lemma Static_build_start_Raise bookings days rooms cap e :
  Param (map_to_list (default Static.build_default_bookings bookings)).*1
        (Static.start_day <$> default Static.build_default_bookings bookings)
        (fun v => bool_decide (v ∈ range 1 (days + 1))) = Raise e ->
  Static.build_static_lco_model bookings days rooms cap = Raise e.
Proof.
  intros H. unfold Static.build_static_lco_model. by rewrite H.
Qed.

(** C10 (as the code behaves). [build_static_lco_model] raises (a
    [ValueError], from the domain of the [start] parameter) as soon as some
    booking of the table starts outside [1..days]. So in every model it
    returns, each booking of the table is in the model, starts inside the
    horizon and has as stay days the days of [s .. s + L - 1] inside the
    horizon. The length is not
    checked: a booking has a stay day exactly when its length is at least 1,
    and one of length 0 or less is built with an empty stay. [build_model]
    of the mini script has no such check: adding a booking with any start
    day to a table it builds gives a table it builds, with that start day
    stored, and with no stay day at all when the booking starts after the
    horizon. *)
Theorem C10_start_day_domain :
  (forall bookings days rooms capacity_by_day b spec,
     default Static.build_default_bookings bookings !! b = Some spec ->
     ~ 1 <= Static.start_day spec <= days ->
     Static.build_static_lco_model bookings days rooms capacity_by_day
     = Raise ValueError) /\
  (forall bookings days rooms capacity_by_day m b spec,
     Static.build_static_lco_model bookings days rooms capacity_by_day = Ok m ->
     default Static.build_default_bookings bookings !! b = Some spec ->
     b ∈ m_B m /\
     1 <= Static.start_day spec <= days /\
     (forall d, Static_stays m b d <-> Static_night bookings days b d) /\
     (forall d, Static_stays m b d -> 1 <= d <= days) /\
     ((exists d, Static_stays m b d) <-> 1 <= Static.length_of_stay spec)) /\
  (forall g b s L price showp,
     is_Ok (Mini.build_model g) ->
     Mini.bookings g !! b = None ->
     let g' := Mini_with_booking g b (s, L, price, showp) in
     exists m', Mini.build_model g' = Ok m' /\
       m_start m' !! b = Some s /\
       (Mini.DAYS g < s -> forall d, ~ Mini_stays g' b d)).
Proof.
  split_and!.
  - intros bookings days rooms cap b spec Hb Hs.
    apply Static_build_start_Raise.
    destruct (Param_Raise
      (map_to_list (default Static.build_default_bookings bookings)).*1
      (Static.start_day <$> default Static.build_default_bookings bookings)
      (fun v => bool_decide (v ∈ range 1 (days + 1))) b (Static.start_day spec))
      as [e He].
    + by rewrite lookup_fmap, Hb.
    + apply bool_decide_eq_false. rewrite elem_of_range. lia.
    + rewrite He. f_equal.
      apply (Param_Raise_ValueError _ _ _ _) in He; [done|].
      intros k Hk. apply elem_of_keys. rewrite lookup_fmap in Hk.
      by apply fmap_is_Some in Hk.
  - intros bookings days rooms cap m b spec Hm Hb.
    pose proof Hm as (Hbt & (HB & _ & HD) & (Hst & Hlen & _) & Hstart & _ & _)
      %Static_build_inv.
    pose proof (Hstart b spec Hb) as Hs. apply elem_of_range in Hs.
    assert (Hsd : Static._stay_days (m_B m) (m_D m) (m_start m) (m_len m) b
       = Ok (filter (fun d => d >= Static.start_day spec
                              /\ d < Static.start_day spec
                                     + Static.length_of_stay spec) (m_D m))).
    { apply Static_stay_days_Ok. split.
      - rewrite HB. apply elem_of_keys. by eexists.
      - exists (Static.start_day spec), (Static.length_of_stay spec).
        rewrite Hst, Hlen, !lookup_fmap, Hb. done. }
    split; [rewrite HB; apply elem_of_keys; by eexists|].
    split; [lia|].
    split.
    { intros d. rewrite <- (Static_InStay_stays _ _ _ _ m Hm).
      apply (Static_InStay_night _ _ _ _ m Hm). }
    split.
    + intros d (sd & Hsd' & Hd). rewrite Hsd in Hsd'. injection Hsd' as <-.
      apply list_elem_of_filter in Hd as [_ Hd]. rewrite HD in Hd.
      apply elem_of_range in Hd. lia.
    + split.
      * intros (d & sd & Hsd' & Hd). rewrite Hsd in Hsd'. injection Hsd' as <-.
        apply list_elem_of_filter in Hd as [? _]. lia.
      * intros HL. exists (Static.start_day spec). eexists. split; [done|].
        apply list_elem_of_filter. split; [lia|].
        rewrite HD. apply elem_of_range. lia.
  - intros g b s L price showp Hok Hnone g'.
    pose proof (Mini_build_is_Ok_inv g Hok) as Hcover.
    destruct (Mini_build_is_Ok g') as [m' Hm'].
    { intros d Hd Hne. destruct (Hcover d Hd Hne) as (b0 & sd & Hsd & Hin).
      exists b0, sd. split; [|done].
      apply Mini_stay_days_Ok in Hsd as (s0 & L0 & p0 & q0 & Hb0 & ->).
      apply Mini_stay_days_Ok. exists s0, L0, p0, q0. split; [|done].
      simpl. rewrite lookup_insert_ne; [done|]. intros ->. congruence. }
    exists m'. split; [done|].
    pose proof Hm' as (_ & _ & (Hst & _) & _)%Mini_build_inv.
    split.
    + rewrite Hst, lookup_fmap. simpl. by rewrite lookup_insert_eq.
    + intros Hs d (sd & Hsd & Hd).
      apply Mini_stay_days_Ok in Hsd as (s0 & L0 & p0 & q0 & Hb0 & ->).
      simpl in Hb0. rewrite lookup_insert_eq in Hb0.
      injection Hb0 as <- <- <- <-. apply elem_of_range in Hd. simpl in Hd. lia.
Qed.

(** The small instance plus a booking that starts on day 9 of a 2-day
    horizon: the static builder raises, the mini builder returns a model.
    The small instance plus a booking of length 0 that starts on day 2: the
    static builder returns a model in which the booking has no stay day. *)
Lemma C10_start_day_domain_witness :
  Static_late !! 3
  = Some {| Static.start_day := 9; Static.length_of_stay := 1;
            Static.price_per_night := 50; Static.show_prob := 0.5 |} /\
  Static.build_static_lco_model (Some Static_late) 2 2 None = Raise ValueError /\
  is_Ok (Mini.build_model Mini_tiny) /\
  Mini.bookings Mini_tiny !! 3 = None /\
  is_Ok (Mini.build_model (Mini_with_booking Mini_tiny 3 (Mini.row 9 1 50 0.5))) /\
  exists m, Static.build_static_lco_model (Some Static_zero) 2 2 None = Ok m /\
    3 ∈ m_B m /\ forall d, ~ Static_stays m 3 d.
Proof.
  assert (Hok : is_Ok (Mini.build_model Mini_tiny))
    by (vm_compute; eexists; reflexivity).
  split_and!; [reflexivity| |exact Hok|reflexivity| |].
  - apply (proj1 C10_start_day_domain (Some Static_late) 2 2 None 3
             {| Static.start_day := 9; Static.length_of_stay := 1;
                Static.price_per_night := 50; Static.show_prob := 0.5 |});
      [reflexivity|simpl; lia].
  - destruct (proj2 (proj2 C10_start_day_domain) Mini_tiny 3 9 1 50%Q 0.5%Q
                Hok eq_refl) as (m' & Hm' & _).
    by exists m'.
  - destruct (Static.build_static_lco_model (Some Static_zero) 2 2 None)
      as [m|e] eqn:E; [|by vm_compute in E].
    exists m.
    destruct (proj1 (proj2 C10_start_day_domain) (Some Static_zero) 2 2 None
                m 3 _ E eq_refl) as (Hin & _ & _ & _ & Hiff).
    split_and!; [done|done|].
    intros d Hd. assert (H : 1 <= 0) by (apply Hiff; by exists d). lia.
Defined.

(** C10 as stated fails: the static builder returns a model for a table
    with a booking of length 0, whose stay is empty. *)
Lemma C10_counterexample : ~ never_builds_empty_stay.
Proof.
  intros H.
  destruct (Static.build_static_lco_model (Some Static_zero) 2 2 None)
    as [m|e] eqn:E; [|by vm_compute in E].
  pose proof E as (_ & (HB & _ & HD) & (Hst & Hlen & _) & _)%Static_build_inv.
  destruct (H (Some Static_zero) 2 2 None m 3 E) as (d & sd & Hsd & Hd).
  { rewrite HB. apply elem_of_keys. by eexists. }
  rewrite Hst, Hlen in Hsd.
  apply Static_stay_days_Ok in Hsd as (_ & s & L & Hs & HL & ->).
  rewrite lookup_fmap in Hs, HL. vm_compute in Hs, HL.
  injection Hs as <-. injection HL as <-.
  apply list_elem_of_filter in Hd as [Hd _]. lia.
Qed.

(** * Further properties of the code *)

(** ** Values and valuations *)

Lemma value_loaded val e : value (loaded val) e = Ok (eval val e).
Proof.
  induction e as [q|v|e1 IH1 e2 IH2|e1 IH1 e2 IH2|e1 IH1 e2 IH2]; simpl;
    try done; by rewrite IH1, IH2.
Qed.

Lemma eval_ext val val' e :
  (forall v, v ∈ expr_vars e -> (val v == val' v)%Q) ->
  (eval val e == eval val' e)%Q.
Proof.
  induction e as [q|v|e1 IH1 e2 IH2|e1 IH1 e2 IH2|e1 IH1 e2 IH2]; simpl;
    intros H.
  - reflexivity.
  - apply H. left.
  - rewrite IH1, IH2; [reflexivity|intros; apply H; apply elem_of_app; auto..].
  - rewrite IH1, IH2; [reflexivity|intros; apply H; apply elem_of_app; auto..].
  - rewrite IH1, IH2; [reflexivity|intros; apply H; apply elem_of_app; auto..].
Qed.

Lemma holds_ext val val' c :
  (forall v, v ∈ constraint_vars c -> (val v == val' v)%Q) ->
  holds val c -> holds val' c.
Proof.
  intros H. destruct c as [l r|l r|l r]; simpl in *;
    rewrite (eval_ext val val' l), (eval_ext val val' r); try done;
    intros v Hv; apply H; apply elem_of_app; auto.
Qed.

(** ** Sums of 0/1 values, continued *)

Lemma Qsum_one_le (f : Z -> Q) (l : list Z) x :
  (forall z, z ∈ l -> binary (f z)) -> x ∈ l -> (f x == 1)%Q ->
  (1 <= Qsum (map f l))%Q.
Proof.
  induction l as [|z l IH]; intros Hb Hx Hfx; [by apply elem_of_nil in Hx|].
  simpl.
  assert (0 <= Qsum (map f l))%Q
    by (apply Qsum_binary_nonneg; intros; apply Hb; by right).
  apply elem_of_cons in Hx as [->|Hx]; [lra|].
  assert (1 <= Qsum (map f l))%Q by (apply IH; [intros; apply Hb; by right|done..]).
  destruct (Hb z) as [?|?]; [left|..]; lra.
Qed.

Lemma Qsum_two_ones (f : Z -> Q) (l : list Z) x y :
  NoDup l -> (forall z, z ∈ l -> binary (f z)) ->
  x ∈ l -> y ∈ l -> x <> y -> (f x == 1)%Q -> (f y == 1)%Q ->
  (2 <= Qsum (map f l))%Q.
Proof.
  induction l as [|z l IH]; intros Hnd Hb Hx Hy Hne Hfx Hfy;
    [by apply elem_of_nil in Hx|].
  apply NoDup_cons in Hnd as [_ Hnd]. simpl.
  assert (HbR : forall z, z ∈ l -> binary (f z)) by (intros; apply Hb; by right).
  apply elem_of_cons in Hx as [->|Hx], Hy as [->|Hy]; [done|..].
  - pose proof (Qsum_one_le f l y HbR Hy Hfy). lra.
  - pose proof (Qsum_one_le f l x HbR Hx Hfx). lra.
  - pose proof (IH Hnd HbR Hx Hy Hne Hfx Hfy).
    destruct (Hb z) as [?|?]; [left|..]; lra.
Qed.

Lemma Qsum_nonneg (l : list Q) :
  Forall (fun q => 0 <= q)%Q l -> (0 <= Qsum l)%Q.
Proof. induction 1; simpl; lra. Qed.

(** ** Feasible points of a built model, continued *)

Section FeasibleMore.
Context (m : Model) (val : var -> Q).
Hypothesis Hb : built m.
Hypothesis Hf : feasible m val.

Lemma built_room_excl_sum r d :
  r ∈ m_R m -> d ∈ m_D m ->
  (Qsum (map (fun b => val (Vy b r d))
             (filter (fun b => (b, d) ∈ m_InStay m) (m_B m))) <= 1)%Q.
Proof.
  intros Hr Hd.
  assert (Hc : (r, d, room_excl_constraint (m_B m) (m_InStay m) r d)
               ∈ m_RoomExcl m) by by apply (bt_RoomExcl _ Hb).
  apply (feas_RoomExcl _ _ Hf) in Hc. unfold room_excl_constraint in Hc.
  simpl in Hc. rewrite eval_py_sum, map_map in Hc. exact Hc.
Qed.

Lemma built_room_exclusive b b' r d :
  NoDup (m_B m) ->
  (b, r, d) ∈ m_YIDX m -> (b', r, d) ∈ m_YIDX m ->
  (val (Vy b r d) == 1)%Q -> (val (Vy b' r d) == 1)%Q -> b = b'.
Proof.
  intros Hnd [Hbd Hr]%(bt_YIDX _ Hb) [Hbd' _]%(bt_YIDX _ Hb) H1 H1'.
  destruct (decide (b = b')) as [|Hne]; [done|exfalso].
  pose proof (bt_InStay _ Hb b d Hbd) as [HbB Hd].
  pose proof (bt_InStay _ Hb b' d Hbd') as [HbB' _].
  pose proof (built_room_excl_sum r d Hr Hd) as Hle.
  pose proof (Qsum_two_ones (fun b => val (Vy b r d))
    (filter (fun b => (b, d) ∈ m_InStay m) (m_B m)) b b') as H2.
  assert (2 <= Qsum (map (fun b => val (Vy b r d))
            (filter (fun b => (b, d) ∈ m_InStay m) (m_B m))))%Q; [|lra].
  apply H2; try done.
  - by apply NoDup_filter.
  - intros z [Hz _]%list_elem_of_filter. by apply (built_y_binary m val Hb Hf).
  - by apply list_elem_of_filter.
  - by apply list_elem_of_filter.
Qed.

Lemma built_slack d :
  d ∈ m_D m ->
  exists c, m_cap m !! d = Some c /\
    (expected_shows m val d - inject_Z c <= val (Vw d))%Q /\
    (0 <= val (Vw d))%Q.
Proof.
  intros Hd. destruct (bt_cap _ Hb d Hd) as [c Hc]. exists c.
  split; [done|]. split; [|by apply (feas_w _ _ Hf)].
  assert (Hin : (d, overbooking_constraint (m_B m) (m_showp m) (m_InStay m) c d)
                ∈ m_Overbook m)
    by (apply (bt_Overbook _ Hb); split; [done|by exists c]).
  apply (feas_Overbook _ _ Hf) in Hin. unfold overbooking_constraint in Hin.
  simpl in Hin. rewrite eval_py_sum, map_map in Hin. exact Hin.
Qed.

Lemma built_tier2_objective_nonneg :
  (0 <= eval val (obj_expr (tier2_objective (m_D m))))%Q.
Proof.
  unfold tier2_objective. simpl. rewrite eval_py_sum, map_map.
  apply Qsum_nonneg. apply Forall_forall. intros q Hq.
  apply list_elem_of_In, in_map_iff in Hq as (d & <- & Hd).
  apply (feas_w _ _ Hf). by apply list_elem_of_In.
Qed.

End FeasibleMore.

(** The revenue floor only adds one constraint. *)
Lemma feasible_tier2_model m vals Z1 eps val :
  m_RevenueFloor m = None ->
  feasible (tier2_model m vals Z1 eps) val <->
  feasible m val /\ (Z1 - eps <= eval val (m_RevExpr m))%Q.
Proof.
  intros Hnone. split.
  - intros [Ha Hy Hw H1 H2 H3 H4 H5]. simpl in *. split.
    + split; try done. intros c Hc. congruence.
    + exact (H5 _ eq_refl).
  - intros [[Ha Hy Hw H1 H2 H3 H4 H5] Hfloor]. split; simpl; try done.
    intros c [= <-]. exact Hfloor.
Qed.

Lemma Mini_B_NoDup g : NoDup (Mini.B g).
Proof. apply NoDup_fst_map_to_list. Qed.

(** ** Room exclusivity and overbooking slack *)

(** X1. In the model either builder returns, every room and day of the
    horizon has its exclusivity constraint
    [sum(y[b,r,d] for b staying on d) <= 1]; hence at every feasible point
    no two bookings occupy the same room on the same day. *)
Theorem X1_room_exclusivity :
  (forall g m val, Mini.build_model g = Ok m -> feasible m val ->
     (forall r d, r ∈ Mini.rooms g -> d ∈ Mini.days g ->
        (r, d, room_excl_constraint (m_B m) (m_InStay m) r d) ∈ m_RoomExcl m) /\
     (forall b b' r d,
        (b, r, d) ∈ m_YIDX m -> (b', r, d) ∈ m_YIDX m ->
        (val (Vy b r d) == 1)%Q -> (val (Vy b' r d) == 1)%Q -> b = b')) /\
  (forall bookings days rooms capacity_by_day m val,
     Static.build_static_lco_model bookings days rooms capacity_by_day = Ok m ->
     feasible m val ->
     (forall r d, r ∈ range 1 (rooms + 1) -> d ∈ range 1 (days + 1) ->
        (r, d, room_excl_constraint (m_B m) (m_InStay m) r d) ∈ m_RoomExcl m) /\
     (forall b b' r d,
        (b, r, d) ∈ m_YIDX m -> (b', r, d) ∈ m_YIDX m ->
        (val (Vy b r d) == 1)%Q -> (val (Vy b' r d) == 1)%Q -> b = b')).
Proof.
  split.
  - intros g m val Hm Hf.
    pose proof Hm as (Hb & (HB & HR & HD) & _ & _)%Mini_build_inv. split.
    + intros r d Hr Hd. apply (bt_RoomExcl _ Hb). by rewrite HR, HD.
    + intros b b' r d. apply (built_room_exclusive m val Hb Hf).
      rewrite HB. apply Mini_B_NoDup.
  - intros bookings days rooms cap m val Hm Hf.
    pose proof Hm as (Hb & (HB & HR & HD) & _)%Static_build_inv. split.
    + intros r d Hr Hd. apply (bt_RoomExcl _ Hb). by rewrite HR, HD.
    + intros b b' r d. apply (built_room_exclusive m val Hb Hf).
      rewrite HB. apply NoDup_fst_map_to_list.
Qed.

(** On the small instance, room 1 on day 2 is booking 1's and nobody
    else's. *)
Lemma X1_room_exclusivity_witness :
  exists m, Mini.build_model Mini_tiny = Ok m /\ feasible m diagonal /\
    (1, 2, room_excl_constraint (m_B m) (m_InStay m) 1 2) ∈ m_RoomExcl m /\
    forall b', (b', 1, 2) ∈ m_YIDX m -> (diagonal (Vy b' 1 2) == 1)%Q -> b' = 1.
Proof.
  destruct (Mini.build_model Mini_tiny) as [m|e] eqn:E;
    [|by vm_compute in E].
  exists m.
  destruct (proj1 X1_room_exclusivity Mini_tiny m diagonal E
              (Mini_tiny_feasible m E)) as [Hpres Hexcl].
  split_and!; [done|by apply Mini_tiny_feasible| |].
  - apply Hpres; apply elem_of_range; simpl; lia.
  - intros b' Hb' H1. symmetry. apply (Hexcl 1 b' 1 2); [|done|reflexivity|done].
    vm_compute in E. injection E as <-. vm_compute. reflexivity.
Defined.

(** X2. In the model either builder returns, at every feasible point the
    slack of each day is at least the expected number of shows minus the
    capacity of the day (the number of rooms in the mini script, the given
    or default capacity in the static builder) and at least 0; so the Tier-2
    objective [sum_d w[d]] is never negative. *)
Theorem X2_overbooking_slack :
  (forall g m val, Mini.build_model g = Ok m -> feasible m val ->
     (forall d, d ∈ Mini.days g ->
        (expected_shows m val d - inject_Z (Mini.ROOMS g) <= val (Vw d))%Q /\
        (0 <= val (Vw d))%Q) /\
     (0 <= eval val (obj_expr (tier2_objective (m_D m))))%Q) /\
  (forall bookings days rooms capacity_by_day m val,
     Static.build_static_lco_model bookings days rooms capacity_by_day = Ok m ->
     feasible m val ->
     (forall d, d ∈ range 1 (days + 1) ->
        exists c,
          default (list_to_map ((fun d => (d, rooms)) <$> range 1 (days + 1)))
                  capacity_by_day !! d = Some c /\
          (expected_shows m val d - inject_Z c <= val (Vw d))%Q /\
          (0 <= val (Vw d))%Q) /\
     (0 <= eval val (obj_expr (tier2_objective (m_D m))))%Q).
Proof.
  split.
  - intros g m val Hm Hf.
    pose proof Hm as (Hb & (_ & _ & HD) & (_ & _ & _ & _ & Hcap) & _)
      %Mini_build_inv.
    split; [|by apply built_tier2_objective_nonneg].
    intros d Hd. rewrite <- HD in Hd.
    destruct (built_slack m val Hb Hf d Hd) as (c & Hc & Hle & H0).
    rewrite Hcap, Mini_CAP_lookup in Hc. rewrite HD in Hd.
    rewrite decide_True in Hc by done. injection Hc as <-. done.
  - intros bookings days rooms cap m val Hm Hf.
    pose proof Hm as (Hb & (_ & _ & HD) & (_ & _ & _ & _ & Hcap) & _)
      %Static_build_inv.
    split; [|by apply built_tier2_objective_nonneg].
    intros d Hd. rewrite <- HD in Hd.
    destruct (built_slack m val Hb Hf d Hd) as (c & Hc & Hle & H0).
    exists c. by rewrite <- Hcap.
Qed.

(** On the small instance with two rooms: day 2 expects 0.9 + 0.5 shows. *)
Lemma X2_overbooking_slack_witness :
  exists m, Mini.build_model Mini_tiny = Ok m /\ feasible m diagonal /\
    (expected_shows m diagonal 2 == 1.4)%Q /\
    (expected_shows m diagonal 2 - 2 <= diagonal (Vw 2))%Q.
Proof.
  destruct (Mini.build_model Mini_tiny) as [m|e] eqn:E;
    [|by vm_compute in E].
  exists m.
  destruct (proj1 X2_overbooking_slack Mini_tiny m diagonal E
              (Mini_tiny_feasible m E)) as [Hslack _].
  split_and!; [done|by apply Mini_tiny_feasible| |].
  - vm_compute in E. injection E as <-. vm_compute. reflexivity.
  - apply (Hslack 2). apply elem_of_range. simpl. lia.
Defined.

(** ** The revenue floor between the two tiers *)

Lemma solve_tiers_floor backend eps m m2 val :
  built m ->
  calls (solve_tiers backend eps {| live := m; calls := [] |}).1 !! 1%nat
  = Some m2 ->
  feasible m2 val ->
  exists st vals Z1,
    backend m = Returned st vals /\
    value vals (m_RevExpr m) = Ok Z1 /\
    feasible m val /\ (Z1 - eps <= eval val (m_RevExpr m))%Q.
Proof.
  intros Hb Hm2 Hf.
  destruct (solve_tiers_calls backend eps m) as (_ & _ & H1).
  destruct (H1 m2 Hm2) as (st & vals & Z1 & Hbk & Hv & ->).
  apply feasible_tier2_model in Hf as [Hf Hfloor]; [|apply (bt_floor _ Hb)].
  by exists st, vals, Z1.
Qed.

Lemma solve_tiers_keeps_tier1_point backend eps m st val :
  built m -> m_B m <> [] ->
  backend m = Returned st (loaded val) ->
  feasible m val ->
  let m2 := tier2_model m (loaded val) (eval val (m_RevExpr m)) eps in
  calls (solve_tiers backend eps {| live := m; calls := [] |}).1 = [m; m2] /\
  ((0 <= eps)%Q -> feasible m2 val) /\
  ((eps < 0)%Q -> ~ feasible m2 val).
Proof.
  intros Hb Hne Hbk Hf m2. split_and!.
  - rewrite solve_tiers_run. simpl. rewrite Hbk, value_loaded.
    unfold revenue_floor. simpl.
    rewrite (built_RevExpr_not_native m Hb Hne). simpl.
    by destruct (backend (tier2_model m (loaded val) (eval val (m_RevExpr m))
                            eps)).
  - intros Heps. apply feasible_tier2_model; [apply (bt_floor _ Hb)|].
    split; [done|lra].
  - intros Heps [_ Hfloor]%feasible_tier2_model; [lra|apply (bt_floor _ Hb)].
Qed.

(** X3. Revenue floor. In both drivers, every feasible point of the model
    handed to the Tier-2 solve is a feasible point of the model as built and
    has revenue at least [Z1 - eps], where [Z1] is the value of the revenue
    expression under the values loaded by the Tier-1 solve. *)
Theorem X3_tier2_keeps_revenue :
  (forall g available backend eps solver m m2 val,
     Mini.build_model g = Ok m ->
     Mini.get_solver available = Ok solver ->
     (Mini.run_two_tier_demo g available backend eps).1 !! 1%nat = Some m2 ->
     feasible m2 val ->
     exists st vals Z1,
       backend solver m = Returned st vals /\
       value vals (m_RevExpr m) = Ok Z1 /\
       feasible m val /\
       (Z1 - default (1 # 1000000) eps <= eval val (m_RevExpr m))%Q) /\
  (forall bookings days rooms capacity_by_day backend solver_name tol m m2 val,
     Static.build_static_lco_model bookings days rooms capacity_by_day = Ok m ->
     (Static.solve_two_tier_lco backend bookings days rooms capacity_by_day
        solver_name tol).1 !! 1%nat = Some m2 ->
     feasible m2 val ->
     exists st vals Z1,
       backend solver_name m = Returned st vals /\
       value vals (m_RevExpr m) = Ok Z1 /\
       feasible m val /\
       (Z1 - default (1 # 1000000) tol <= eval val (m_RevExpr m))%Q).
Proof.
  split.
  - intros g available backend eps solver m m2 val Hm Hs Hm2 Hf.
    unfold Mini.run_two_tier_demo in Hm2. rewrite Hm, Hs in Hm2.
    cbn [fst] in Hm2. rewrite Mini_two_tier_session in Hm2.
    apply (solve_tiers_floor (backend solver) _ m m2 val); [|done..].
    by apply Mini_build_inv in Hm as [? _].
  - intros bookings days rooms cap backend solver_name tol m m2 val Hm Hm2 Hf.
    unfold Static.solve_two_tier_lco in Hm2. rewrite Hm in Hm2.
    cbn [fst] in Hm2. rewrite Static_two_tier_session in Hm2.
    apply (solve_tiers_floor (backend solver_name) _ m m2 val); [|done..].
    by apply Static_build_inv in Hm as [? _].
Qed.



Lemma Mini_tiny_tier2_run :
  exists m, Mini.build_model Mini_tiny = Ok m /\
    let m2 := tier2_model m (loaded diagonal) (eval diagonal (m_RevExpr m))
                (1 # 1000000) in
    (Mini.run_two_tier_demo Mini_tiny all_available (backend_at diagonal)
       None).1 = [m; m2] /\
    feasible m2 diagonal.
Proof.
  destruct (Mini.build_model Mini_tiny) as [m|e] eqn:E;
    [|by vm_compute in E].
  exists m. split; [done|]. intros m2.
  assert (Hne : m_B m <> []).
  { pose proof E as E'. vm_compute in E'. injection E' as <-. discriminate. }
  pose proof E as (Hb & _)%Mini_build_inv.
  destruct (solve_tiers_keeps_tier1_point (backend_at diagonal "highs"%string)
              (1 # 1000000) m OPTIMAL diagonal Hb Hne eq_refl
              (Mini_tiny_feasible m E)) as (Hcalls & Hpos & _).
  split; [|apply Hpos; lra].
  unfold Mini.run_two_tier_demo. rewrite E.
  change (Mini.get_solver all_available) with (Ok "highs"%string : result string).
  cbn [fst]. rewrite Mini_two_tier_session. exact Hcalls.
Qed.

(** On the small instance: the Tier-2 model has a feasible point, and every
    feasible point of it earns at least 440 - 1e-6. *)
Lemma X3_tier2_keeps_revenue_witness :
  exists m m2, Mini.build_model Mini_tiny = Ok m /\
    Mini.get_solver all_available = Ok "highs"%string /\
    (Mini.run_two_tier_demo Mini_tiny all_available (backend_at diagonal)
       None).1 !! 1%nat = Some m2 /\
    feasible m2 diagonal /\
    (forall val, feasible m2 val ->
       (440 - (1 # 1000000) <= eval val (m_RevExpr m))%Q).
Proof.
  destruct Mini_tiny_tier2_run as (m & E & Hcalls & Hf2).
  exists m. eexists.
  split_and!; [done|reflexivity|by rewrite Hcalls|exact Hf2|].
  intros val Hval.
  destruct (proj1 X3_tier2_keeps_revenue Mini_tiny all_available
              (backend_at diagonal) None "highs"%string m _ val E eq_refl
              ltac:(by rewrite Hcalls) Hval)
    as (st & vals & Z1 & Hbk & Hv & _ & Hfloor).
  injection Hbk as <- <-. rewrite value_loaded in Hv. injection Hv as <-.
  assert (Hrev : (eval diagonal (m_RevExpr m) == 440)%Q).
  { pose proof E as E'. vm_compute in E'. injection E' as <-.
    vm_compute. reflexivity. }
  simpl in Hfloor. rewrite Hrev in Hfloor. exact Hfloor.
Defined.

(** ** Solver acquisition and the errors of the mini driver *)

(** X5. [get_solver] returns HiGHS when HiGHS reports itself available,
    else CBC when CBC does (a probe that raises counts as unavailable and
    does not stop the search), else it raises [RuntimeError]. In
    [run_two_tier_demo] the model is built first: a build error, or else a
    solver-acquisition error, reaches the caller without any call to a
    backend. *)
Theorem X5_solver_acquisition :
  (forall available,
     available "highs"%string = Ok true ->
     Mini.get_solver available = Ok "highs"%string) /\
  (forall available,
     available "highs"%string <> Ok true ->
     available "cbc"%string = Ok true ->
     Mini.get_solver available = Ok "cbc"%string) /\
  (forall available,
     available "highs"%string <> Ok true ->
     available "cbc"%string <> Ok true ->
     Mini.get_solver available = Raise RuntimeError) /\
  (forall g available backend eps e,
     Mini.build_model g = Raise e ->
     Mini.run_two_tier_demo g available backend eps = ([], Raise e)) /\
  (forall g available backend eps e,
     is_Ok (Mini.build_model g) ->
     Mini.get_solver available = Raise e ->
     Mini.run_two_tier_demo g available backend eps = ([], Raise e)).
Proof.
  split_and!.
  - intros available H. unfold Mini.get_solver. simpl. by rewrite H.
  - intros available H1 H2. unfold Mini.get_solver. simpl.
    destruct (available "highs"%string) as [[|]|e]; [done|..]; by rewrite H2.
  - intros available H1 H2. unfold Mini.get_solver. simpl.
    destruct (available "highs"%string) as [[|]|e]; [done|..];
      by destruct (available "cbc"%string) as [[|]|e'].
  - intros g available backend eps e H. unfold Mini.run_two_tier_demo.
    by rewrite H.
  - intros g available backend eps e [m Hm] H. unfold Mini.run_two_tier_demo.
    by rewrite Hm, H.
Qed.

(** HiGHS raising while probed and CBC available gives CBC; with no solver
    the small instance is built and then nothing is solved. *)
Lemma X5_solver_acquisition_witness :
  only_cbc "highs"%string <> Ok true /\
  Mini.get_solver only_cbc = Ok "cbc"%string /\
  Mini.get_solver none_available = Raise RuntimeError /\
  Mini.run_two_tier_demo Mini_tiny none_available backend_optimal None
  = ([], Raise RuntimeError).
Proof.
  assert (H1 : only_cbc "highs"%string <> Ok true) by discriminate.
  assert (H2 : Mini.get_solver none_available = Raise RuntimeError).
  { apply (proj1 (proj2 (proj2 X5_solver_acquisition))); discriminate. }
  split_and!; [exact H1| |exact H2|].
  - apply (proj1 (proj2 X5_solver_acquisition)); [exact H1|reflexivity].
  - apply (proj2 (proj2 (proj2 (proj2 X5_solver_acquisition)))); [|exact H2].
    vm_compute. eexists. reflexivity.
Defined.

(** ** The two builders on the same data *)

Lemma comprehend_ext_in {A B} (f f' : A -> result (list B)) l :
  (forall x, x ∈ l -> f x = f' x) -> comprehend l f = comprehend l f'.
Proof. intros H. unfold comprehend. by rewrite (mapM_ext_in f f' l H). Qed.

Lemma keys_fmap {V W} (h : V -> W) (d : gmap Z V) :
  (map_to_list (h <$> d)).*1 = (map_to_list d).*1.
Proof.
  rewrite map_to_list_fmap, <- list_fmap_compose.
  apply list_fmap_ext. by intros i [k v].
Qed.

Section Agree.
Context (g : Mini.Globals).
Hypothesis Hstarts : starts_in_horizon g.

Let start : gmap Z Z := (fun t => t.1.1.1) <$> Mini.bookings g.
Let len : gmap Z Z := (fun t => t.1.1.2) <$> Mini.bookings g.

Lemma stay_test_agree b d :
  b ∈ Mini.B g -> d ∈ Mini.days g ->
  (sd ← Static._stay_days (Mini.B g) (Mini.days g) start len b;
   Ok (if decide (d ∈ sd) then [(b, d)] else []))
  = (sd ← Mini.stay_days g b;
     Ok (if decide (d ∈ sd) then [(b, d)] else [])).
Proof.
  intros Hb Hd. pose proof Hb as [[[[s L] p] q] Hrow]%elem_of_keys.
  rewrite (proj2 (Static_stay_days_Ok (Mini.B g) (Mini.days g) start len b
             (filter (fun d => d >= s /\ d < s + L) (Mini.days g)))).
  2: { split; [done|]. exists s, L. unfold start, len.
       rewrite !lookup_fmap, Hrow. done. }
  rewrite (proj2 (Mini_stay_days_Ok g b
             (range s (Z.min (s + L) (Mini.DAYS g + 1)))))
    by (exists s, L, p, q; done).
  simpl. f_equal. apply decide_ext.
  rewrite list_elem_of_filter, elem_of_range.
  unfold Mini.days in Hd. apply elem_of_range in Hd.
  split; [lia|]. intros ?. split; [lia|]. unfold Mini.days.
  apply elem_of_range. lia.
Qed.

Lemma instay_agree :
  comprehend (Mini.B g) (fun b =>
    comprehend (Mini.days g) (fun d =>
      sd ← Static._stay_days (Mini.B g) (Mini.days g) start len b;
      Ok (if decide (d ∈ sd) then [(b, d)] else [])))
  = Mini.in_stay_list g.
Proof.
  unfold Mini.in_stay_list. apply comprehend_ext_in. intros b Hb.
  apply comprehend_ext_in. intros d Hd. by apply stay_test_agree.
Qed.

Lemma cont_agree isl cl :
  Mini.in_stay_list g = Ok isl -> Mini.cont_list g = Ok cl ->
  (list_to_set
     (b ← Mini.B g; r ← Mini.rooms g; d ← Mini.days g;
      if decide ((b, d) ∈ (list_to_set isl : gset (Z * Z))
                 /\ (b, d + 1) ∈ (list_to_set isl : gset (Z * Z)))
      then [(b, r, d)] else []) : gset (Z * Z * Z))
  = list_to_set cl.
Proof.
  intros Hisl Hcl.
  pose proof (Mini_in_stay_list_spec g isl Hisl) as HIS.
  pose proof (Mini_cont_list_spec g cl Hcl) as HCL.
  apply set_eq. intros [[b r] d].
  rewrite !elem_of_list_to_set, HCL, list_elem_of_bind. split.
  - intros (b0 & H & Hb0). apply list_elem_of_bind in H as (r0 & H & Hr0).
    apply list_elem_of_bind in H as (d0 & H & Hd0).
    destruct (decide _) as [[H1 H2]|]; [|by apply elem_of_nil in H].
    apply list_elem_of_singleton in H as [= -> -> ->].
    apply elem_of_list_to_set, HIS in H1 as (_ & sd & Hsd & Hin).
    apply elem_of_list_to_set, HIS in H2 as (_ & sd' & Hsd' & Hin').
    rewrite Hsd in Hsd'. injection Hsd' as <-. eauto 10.
  - intros (Hr & Hd & sd & Hsd & Hin & Hin').
    assert (Hb : b ∈ Mini.B g) by (apply Mini_stay_days_is_Ok; by eexists).
    exists b. split; [|done]. apply list_elem_of_bind.
    exists r. split; [|done]. apply list_elem_of_bind.
    exists d. split; [|done].
    rewrite decide_True; [by left|].
    rewrite !elem_of_list_to_set, !HIS. split; [by eauto|].
    split; [|by eauto].
    pose proof (Mini_stay_days_upper g b sd (d + 1) Hsd Hin').
    unfold Mini.days in *. apply elem_of_range in Hd. apply elem_of_range. lia.
Qed.

Lemma Static_build_of_Mini :
  Static.build_static_lco_model
    (Some (BookingSpec_of_row <$> Mini.bookings g))
    (Mini.DAYS g) (Mini.ROOMS g) None
  = Mini.build_model g.
Proof.
  unfold Static.build_static_lco_model, Mini.build_model.
  cbv zeta. cbn [default from_option id]. rewrite !keys_fmap. fold (Mini.B g).
  fold (Mini.days g). fold (Mini.rooms g). fold (Mini.CAP g).
  rewrite <- !map_fmap_compose.
  change (Static.start_day ∘ BookingSpec_of_row)
    with (fun t : Z * Z * Q * Q => t.1.1.1).
  change (Static.length_of_stay ∘ BookingSpec_of_row)
    with (fun t : Z * Z * Q * Q => t.1.1.2).
  change (Static.price_per_night ∘ BookingSpec_of_row)
    with (fun t : Z * Z * Q * Q => t.1.2).
  change (Static.show_prob ∘ BookingSpec_of_row)
    with (fun t : Z * Z * Q * Q => t.2).
  rewrite (Param_Ok (Mini.B g) ((fun t => t.1.1.1) <$> Mini.bookings g)
             (fun v => bool_decide (v ∈ Mini.days g))).
  2: { intros b s Hs. rewrite lookup_fmap in Hs.
       destruct (Mini.bookings g !! b) as [row|] eqn:Hrow; [|discriminate].
       injection Hs as <-. split; [apply elem_of_keys; by eexists|].
       apply bool_decide_eq_true. unfold Mini.days. apply elem_of_range.
       pose proof (map_Forall_lookup_1 _ _ _ _ Hstarts Hrow) as H.
       simpl in H. lia. }
  rewrite !Mini_Param_bookings, Mini_Param_CAP. simpl.
  fold start. fold len. rewrite instay_agree.
  destruct (Mini.in_stay_list g) as [isl|e] eqn:Hisl; [|done]. simpl.
  destruct (Mini.cont_list g) as [cl|e] eqn:Hcl; simpl.
  - by rewrite (cont_agree isl cl Hisl Hcl).
  - destruct (Mini_cont_list_is_Ok g) as [cl Hcl']. congruence.
Qed.

End Agree.

(** X6. The two builders agree. On a table whose bookings all start on a day
    of the horizon, [build_static_lco_model], given the rows as
    [BookingSpec]s and no capacities, returns exactly what the script's
    [build_model] returns: the same sets, parameters, index sets, constraint
    blocks, revenue expression and objective, or the same exception. *)
Theorem X6_builders_agree g :
  starts_in_horizon g ->
  Static.build_static_lco_model
    (Some (BookingSpec_of_row <$> Mini.bookings g))
    (Mini.DAYS g) (Mini.ROOMS g) None
  = Mini.build_model g.
Proof. apply Static_build_of_Mini. Qed.

(** The small instance: both builders succeed with the same model. *)
Lemma X6_builders_agree_witness :
  starts_in_horizon Mini_tiny /\
  is_Ok (Mini.build_model Mini_tiny) /\
  Static.build_static_lco_model
    (Some (BookingSpec_of_row <$> Mini.bookings Mini_tiny)) 2 2 None
  = Mini.build_model Mini_tiny.
Proof.
  assert (H : starts_in_horizon Mini_tiny).
  { unfold starts_in_horizon. apply (bool_decide_unpack _). vm_compute.
    reflexivity. }
  split_and!; [exact H| |exact (X6_builders_agree Mini_tiny H)].
  destruct (Mini.build_model Mini_tiny) as [m|e] eqn:E;
    [by eexists|by vm_compute in E].
Defined.

(** ** When the builders succeed *)

Lemma range_nonempty lo hi : range lo hi <> [] <-> lo < hi.
Proof.
  split.
  - intros H. destruct (range lo hi) as [|x l] eqn:E; [done|].
    assert (Hx : x ∈ range lo hi) by (rewrite E; left).
    apply elem_of_range in Hx. lia.
  - intros H E. assert (Hx : lo ∈ range lo hi) by (apply elem_of_range; lia).
    rewrite E in Hx. by apply elem_of_nil in Hx.
Qed.

Lemma Mini_stays_row g b d :
  Mini_stays g b d <->
  exists s L p q, Mini.bookings g !! b = Some (s, L, p, q) /\
    s <= d < s + L /\ d <= Mini.DAYS g.
Proof.
  unfold Mini_stays. split.
  - intros (sd & (s & L & p & q & Hrow & ->)%Mini_stay_days_Ok & Hd).
    apply elem_of_range in Hd. exists s, L, p, q. split; [done|lia].
  - intros (s & L & p & q & Hrow & Hd & Hup). eexists. split.
    + apply Mini_stay_days_Ok. by exists s, L, p, q.
    + apply elem_of_range. lia.
Qed.

Lemma default_capacity_keys days rooms d :
  is_Some ((list_to_map ((fun d0 => (d0, rooms)) <$> range 1 (days + 1))
              : gmap Z Z) !! d)
  <-> d ∈ range 1 (days + 1).
Proof.
  rewrite <- elem_of_dom, dom_list_to_map_L.
  rewrite elem_of_list_to_set, <- list_fmap_compose.
  by rewrite list_fmap_id.
Qed.

(** X7. When the builders succeed. The script's [build_model] returns a
    model exactly when there is no room, or every day of the horizon lies in
    the stay of some booking of the table; otherwise some room-exclusivity
    rule compares two numbers and the build raises. The static builder
    succeeds exactly when, in addition, every booking starts on a day of
    the horizon and the capacities given, if any, have exactly the days of
    the horizon as keys. *)
Theorem X7_build_succeeds_iff :
  (forall g,
     is_Ok (Mini.build_model g) <->
     (1 <= Mini.ROOMS g ->
      forall d, 1 <= d <= Mini.DAYS g ->
        exists b s L p q, Mini.bookings g !! b = Some (s, L, p, q) /\
          s <= d < s + L)) /\
  (forall bookings days rooms capacity_by_day,
     is_Ok (Static.build_static_lco_model (Some bookings) days rooms
              capacity_by_day) <->
     (forall b spec, bookings !! b = Some spec ->
        1 <= Static.start_day spec <= days) /\
     (forall cap, capacity_by_day = Some cap ->
        forall d, is_Some (cap !! d) <-> 1 <= d <= days) /\
     (1 <= rooms ->
      forall d, 1 <= d <= days ->
        exists b spec, bookings !! b = Some spec /\
          Static.start_day spec <= d
            < Static.start_day spec + Static.length_of_stay spec)).
Proof.
  split.
  - intros g. split.
    + intros H Hr d Hd.
      destruct (Mini_build_is_Ok_inv g H d) as (b & sd & Hsd & Hin).
      { apply elem_of_range. lia. }
      { apply range_nonempty. lia. }
      destruct (proj1 (Mini_stays_row g b d)) as (s & L & p & q & Hrow & ? & _);
        [by exists sd|].
      by exists b, s, L, p, q.
    + intros H. apply Mini_build_is_Ok.
      intros d Hd%elem_of_range Hr%range_nonempty.
      destruct (H ltac:(lia) d ltac:(lia)) as (b & s & L & p & q & Hrow & Hd').
      exists b. apply Mini_stays_row. exists s, L, p, q.
      split; [done|lia].
  - intros bookings days rooms capacity_by_day. split.
    + intros (Hs & Hc & Hcov)%Static_build_is_Ok_inv. cbn [default] in *.
      split_and!.
      * intros b spec Hb. specialize (Hs b spec Hb).
        apply elem_of_range in Hs. lia.
      * intros cap -> d. cbn [default] in Hc. rewrite Hc, elem_of_range. lia.
      * intros Hr d Hd. apply Hcov; [apply elem_of_range; lia|].
        apply range_nonempty. lia.
    + intros (Hs & Hc & Hcov). apply Static_build_is_Ok; cbn [default].
      * intros b spec Hb. apply elem_of_range. specialize (Hs b spec Hb). lia.
      * intros d. destruct capacity_by_day as [cap|]; cbn [default].
        -- rewrite (Hc cap eq_refl d), elem_of_range. lia.
        -- apply default_capacity_keys.
      * intros d Hd%elem_of_range Hr%range_nonempty. apply Hcov; lia.
Qed.

(** The small instance builds; with one room and a single one-night booking
    on day 1 of two, nobody stays on day 2 and the build raises. *)
Lemma X7_build_succeeds_iff_witness :
  is_Ok (Mini.build_model Mini_tiny) /\ ~ is_Ok (Mini.build_model Mini_gap).
Proof.
  split.
  - apply (proj1 X7_build_succeeds_iff Mini_tiny). intros _ d Hd.
    simpl in Hd. assert (d = 1 \/ d = 2) as [-> | ->] by lia.
    + exists 1, 1, 2, 100%Q, 0.9%Q. split; [reflexivity|lia].
    + exists 2, 2, 3, 80%Q, 0.5%Q. split; [reflexivity|lia].
  - intros H.
    destruct (proj1 (proj1 X7_build_succeeds_iff Mini_gap) H ltac:(simpl; lia)
                2 ltac:(simpl; lia))
      as (b & s & L & p & q & Hrow & Hd).
    destruct (decide (b = 1)) as [->|Hb].
    + vm_compute in Hrow. injection Hrow as <- <- _ _. lia.
    + unfold Mini_gap in Hrow. simpl in Hrow.
      rewrite lookup_insert_ne in Hrow by done. by rewrite lookup_empty in Hrow.
Defined.

(** ** What the drivers report at a feasible Tier-2 point *)

Lemma solve_tiers_live backend eps m st1 vals1 Z1 st2 vals2 :
  is_native (m_RevExpr m) = false ->
  backend m = Returned st1 vals1 ->
  value vals1 (m_RevExpr m) = Ok Z1 ->
  backend (tier2_model m vals1 Z1 eps) = Returned st2 vals2 ->
  solve_tiers backend eps {| live := m; calls := [] |}
  = ({| live := set_val vals2 (tier2_model m vals1 Z1 eps);
        calls := [m; tier2_model m vals1 Z1 eps] |}, Ok Z1).
Proof.
  intros Hn H1 Hv H2. rewrite solve_tiers_run. simpl.
  rewrite H1, Hv. unfold revenue_floor. simpl. rewrite Hn. simpl.
  fold (revenue_floor (m_RevExpr m) Z1 eps).
  by rewrite H2.
Qed.

Lemma scan_rooms_no_day m b rs : scan_rooms m b [] rs = Ok (head rs).
Proof. by destruct rs. Qed.

Section Report.
Context (m : Model) (val : var -> Q) (vals1 : var -> option Q) (Z1 eps : Q).
Hypothesis Hb : built m.
Hypothesis Hf : feasible m val.

Let m' := final_model m vals1 Z1 eps val.

Lemma final_above v : above m' v <-> (1 # 2 < val v)%Q.
Proof.
  unfold above. simpl. unfold loaded. split.
  - by intros (q & [= <-] & ?).
  - intros ?. by eexists.
Qed.

Lemma final_valued : valued m'.
Proof. split; intros; simpl; unfold loaded; by eexists. Qed.

Lemma final_accepted b :
  b ∈ m_B m -> above m' (Va b) <-> (val (Va b) == 1)%Q.
Proof.
  intros Hin. rewrite final_above.
  destruct (feas_a m val Hf b Hin) as [H0|H1]; rewrite ?H0, ?H1; split;
    intros H; try done; try lra.
Qed.

Lemma final_room_fits b r sd :
  (forall d, d ∈ sd -> (b, d) ∈ m_InStay m) ->
  occupies val (m_R m) b r sd -> room_fits m' b r sd.
Proof.
  intros Hsd [Hr Hocc] d Hd. split.
  - simpl. apply (bt_YIDX m Hb). split; [by apply Hsd|done].
  - apply final_above. destruct (Hocc d Hd) as [H1 _]. rewrite H1. lra.
Qed.

Lemma final_scan_rooms b sd room :
  (forall d, d ∈ sd -> (b, d) ∈ m_InStay m) -> sd <> [] ->
  (val (Va b) == 1)%Q ->
  scan_rooms m' b sd (m_R m') = Ok room ->
  exists r, room = Some r /\ occupies val (m_R m) b r sd.
Proof.
  intros Hsd Hne Ha Hscan.
  destruct sd as [|d0 sd0] eqn:Esd; [done|]. rewrite <- Esd in *.
  assert (Hd0 : d0 ∈ sd) by (rewrite Esd; left).
  destruct (built_accepted_single_room m val Hb Hf b d0 (Hsd d0 Hd0) Ha)
    as (r & Hr & Hrun).
  assert (Hocc : occupies val (m_R m) b r sd).
  { split; [done|]. intros d Hd. by apply Hrun, Hsd. }
  pose proof (final_room_fits b r sd Hsd Hocc) as Hfit.
  destruct room as [r'|].
  - exists r'. split; [done|].
    apply scan_rooms_Some in Hscan as [Hr' Hfit'].
    destruct (decide (r' = r)) as [->|Hneq]; [done|]. exfalso.
    destruct (Hfit' d0 Hd0) as [_ Hab]. apply final_above in Hab.
    destruct (Hrun d0 (Hsd d0 Hd0)) as [_ H0].
    rewrite (H0 r' Hr' Hneq) in Hab. lra.
  - exfalso. exact (scan_rooms_None _ _ _ _ Hscan r Hr Hfit).
Qed.

End Report.

Lemma slack_values_final m vals1 Z1 eps val :
  slack_values (final_model m vals1 Z1 eps val)
  = Ok (map (fun d => (d, val (Vw d))) (m_D m)).
Proof.
  unfold slack_values. apply mapM_map_Ok. intros d Hd.
  simpl in Hd |- *. by rewrite (var_w_In _ _ Hd).
Qed.

(** The result of the script's driver when the Tier-2 solve loads [val]. *)
Lemma Mini_demo_final g available backend eps solver m st1 vals1 Z1 st2 val :
  Mini.build_model g = Ok m ->
  Mini.get_solver available = Ok solver ->
  m_B m <> [] ->
  let tol := default (1 # 1000000)%Q eps in
  backend solver m = Returned st1 vals1 ->
  value vals1 (m_RevExpr m) = Ok Z1 ->
  backend solver (tier2_model m vals1 Z1 tol) = Returned st2 (loaded val) ->
  let sl := map (fun d => (d, val (Vw d))) (m_D m) in
  exists l,
    Mini.extract_assignments g (final_model m vals1 Z1 tol val) = Ok l /\
    (Mini.run_two_tier_demo g available backend eps).2
    = Ok {| Mini.Z2 := Z1; Mini.slack_sum := fold_left Qplus sl.*2 0%Q;
            Mini.daily_slack := list_to_map sl;
            Mini.accepted_bookings := l |}.
Proof.
  intros Hm Hs Hne tol Hb1 Hv Hb2 sl.
  pose proof Hm as (Hb & (HB & _) & _)%Mini_build_inv.
  pose proof (solve_tiers_live (backend solver) tol m st1 vals1 Z1 st2
                (loaded val) (built_RevExpr_not_native m Hb Hne) Hb1 Hv Hb2)
    as Hrun.
  fold (final_model m vals1 Z1 tol val) in Hrun.
  destruct (Mini_extract_assignments_is_Ok g (final_model m vals1 Z1 tol val))
    as [l Hl].
  { apply final_valued. }
  { intros b. simpl. by rewrite HB. }
  exists l. split; [done|].
  unfold Mini.run_two_tier_demo. rewrite Hm, Hs. cbn [snd]. fold tol.
  unfold Mini.two_tier, mbind, M_bind, readM, mret, M_ret.
  rewrite Hrun. cbn [live]. rewrite slack_values_final, Hl. reflexivity.
Qed.

(** The result of the static driver when the Tier-2 solve loads [val]. *)
Lemma Static_solve_final bookings days rooms capacity_by_day backend
    solver_name eps m st1 vals1 Z1 st2 val :
  Static.build_static_lco_model bookings days rooms capacity_by_day = Ok m ->
  m_B m <> [] ->
  let tol := default (1 # 1000000)%Q eps in
  backend solver_name m = Returned st1 vals1 ->
  value vals1 (m_RevExpr m) = Ok Z1 ->
  backend solver_name (tier2_model m vals1 Z1 tol)
  = Returned st2 (loaded val) ->
  let sl := map (fun d => (d, val (Vw d))) (m_D m) in
  let slack_by_day : gmap Z Q := list_to_map sl in
  exists acc ra,
    Static.extract_accepted (final_model m vals1 Z1 tol val) = Ok acc /\
    Static.extract_rooms (final_model m vals1 Z1 tol val) acc ∅ = Ok ra /\
    (Static.solve_two_tier_lco backend bookings days rooms capacity_by_day
       solver_name eps).2
    = Ok {| Static.revenue_L2 := Z1;
            Static.slack_L3 :=
              fold_left Qplus (map_to_list slack_by_day).*2 0%Q;
            Static.accepted_bookings := acc;
            Static.room_assignments := ra;
            Static.slack_by_day := slack_by_day |}.
Proof.
  intros Hm Hne tol Hb1 Hv Hb2 sl slack_by_day.
  pose proof Hm as (Hb & (HB & _) & (Hst & Hlen & _) & _)%Static_build_inv.
  pose proof (solve_tiers_live (backend solver_name) tol m st1 vals1 Z1 st2
                (loaded val) (built_RevExpr_not_native m Hb Hne) Hb1 Hv Hb2)
    as Hrun.
  fold (final_model m vals1 Z1 tol val) in Hrun.
  set (m' := final_model m vals1 Z1 tol val) in *.
  destruct (Static_extract_accepted_is_Ok m') as [acc Hacc].
  { apply final_valued. }
  destruct (Static_extract_rooms_is_Ok m' acc ∅) as [ra Hra].
  { apply final_valued. }
  { intros b Hin.
    by apply (Static_extract_accepted_spec m' acc Hacc) in Hin as [? _]. }
  { intros b Hin. simpl in *. rewrite Hst, Hlen, !lookup_fmap.
    rewrite HB in Hin. apply elem_of_keys in Hin as [spec ->].
    simpl. split; by eexists. }
  exists acc, ra. split; [done|]. split; [done|].
  unfold Static.solve_two_tier_lco. rewrite Hm. cbn [snd]. fold tol.
  unfold Static.two_tier, mbind, M_bind, readM, mret, M_ret.
  rewrite Hrun. cbn [live]. fold m'. unfold m' at 1.
  rewrite slack_values_final. fold m'. rewrite Hacc, Hra. reflexivity.
Qed.

(** X8. Rooms reported at a feasible point. In both drivers, when the
    Tier-2 solve loads a feasible point of the model it was given, the
    driver returns a result; the accepted bookings it lists are exactly
    those whose accept variable is 1. One with an empty stay is reported
    with the first room. One with a non-empty stay all of whose days lie in
    the horizon (always so in the static driver, and in the script for a
    booking that starts on day 1 or later) is reported with a room, the one
    room it occupies on every day of its stay. In the script, one whose stay
    has a day before day 1 is reported with [None]: that day has no
    assignment variable. *)
Theorem X8_feasible_point_report :
  (forall g available backend eps solver m st1 vals1 Z1 st2 val,
     Mini.build_model g = Ok m ->
     Mini.get_solver available = Ok solver ->
     m_B m <> [] ->
     let tol := default (1 # 1000000)%Q eps in
     backend solver m = Returned st1 vals1 ->
     value vals1 (m_RevExpr m) = Ok Z1 ->
     backend solver (tier2_model m vals1 Z1 tol) = Returned st2 (loaded val) ->
     feasible (tier2_model m vals1 Z1 tol) val ->
     exists res,
       (Mini.run_two_tier_demo g available backend eps).2 = Ok res /\
       (forall b,
          (exists sd room, (b, sd, room) ∈ Mini.accepted_bookings res) <->
          b ∈ Mini.B g /\ (val (Va b) == 1)%Q) /\
       (forall b sd room, (b, sd, room) ∈ Mini.accepted_bookings res ->
          Mini.stay_days g b = Ok sd /\
          (sd = [] -> room = head (Mini.rooms g)) /\
          (sd <> [] -> (forall d, d ∈ sd -> 1 <= d) ->
           exists r, room = Some r /\ occupies val (Mini.rooms g) b r sd) /\
          ((exists d, d ∈ sd /\ d < 1) -> room = None))) /\
  (forall bookings days rooms capacity_by_day backend solver_name eps
          m st1 vals1 Z1 st2 val,
     Static.build_static_lco_model bookings days rooms capacity_by_day = Ok m ->
     m_B m <> [] ->
     let tol := default (1 # 1000000)%Q eps in
     backend solver_name m = Returned st1 vals1 ->
     value vals1 (m_RevExpr m) = Ok Z1 ->
     backend solver_name (tier2_model m vals1 Z1 tol)
     = Returned st2 (loaded val) ->
     feasible (tier2_model m vals1 Z1 tol) val ->
     exists res,
       (Static.solve_two_tier_lco backend bookings days rooms capacity_by_day
          solver_name eps).2 = Ok res /\
       (forall b, b ∈ Static.accepted_bookings res <->
          b ∈ m_B m /\ (val (Va b) == 1)%Q) /\
       (forall b, is_Some (Static.room_assignments res !! b) <->
          b ∈ Static.accepted_bookings res) /\
       (forall b sd room,
          Static.room_assignments res !! b = Some (room, sd) ->
          Static._stay_days (m_B m) (m_D m) (m_start m) (m_len m) b = Ok sd /\
          (sd <> [] ->
           exists r, room = Some r /\ occupies val (m_R m) b r sd) /\
          (sd = [] -> room = head (m_R m)))).
Proof.
  split.
  - intros g available backend eps solver m st1 vals1 Z1 st2 val
      Hm Hs Hne tol Hb1 Hv Hb2 Hf2.
    pose proof Hm as (Hb & (HB & HR & HD) & _ & HIS)%Mini_build_inv.
    apply feasible_tier2_model in Hf2 as [Hf _]; [|apply (bt_floor _ Hb)].
    destruct (Mini_demo_final g available backend eps solver m st1 vals1 Z1
                st2 val Hm Hs Hne Hb1 Hv Hb2) as (l & Hl & Hres).
    fold tol in Hl.
    set (m' := final_model m vals1 Z1 tol val) in *.
    eexists. split; [exact Hres|]. cbn [Mini.accepted_bookings].
    destruct (Mini_extraction_holds g m' l Hl) as [Hacc Hrep].
    pose proof (Mini_extract_assignments_spec g m' l Hl) as Hspec.
    split.
    + intros b. rewrite Hacc. simpl. rewrite HB. split.
      * intros [Hin Hab]. split; [done|].
        apply (final_accepted m val vals1 Z1 tol Hf b); [by rewrite HB|done].
      * intros [Hin Ha]. split; [done|].
        apply (final_accepted m val vals1 Z1 tol Hf b); [by rewrite HB|done].
    + intros b sd room Hin.
      apply Hspec in Hin as ((Hin & Hab) & Hsd & Hscan).
      simpl in Hin.
      apply (final_accepted m val vals1 Z1 tol Hf b Hin) in Hab.
      split; [done|]. split_and!.
      * intros ->. rewrite scan_rooms_no_day in Hscan.
        injection Hscan as <-. simpl. by rewrite HR.
      * intros Hsdne Hpos. rewrite <- HR.
        apply (final_scan_rooms m val vals1 Z1 tol Hb Hf b sd room);
          [|done..].
        intros d Hd. apply HIS. split; [|by exists sd].
        unfold Mini.days. apply elem_of_range.
        pose proof (Hpos d Hd).
        pose proof (Mini_stay_days_upper g b sd d Hsd Hd). lia.
      * intros (d & Hd & Hneg). destruct room as [r|]; [exfalso|done].
        apply scan_rooms_Some in Hscan as [_ Hfit].
        destruct (Hfit d Hd) as [Hy _]. simpl in Hy.
        apply (bt_YIDX m Hb) in Hy as [Hbd _].
        apply (bt_InStay m Hb) in Hbd as [_ HdD]. rewrite HD in HdD.
        unfold Mini.days in HdD. apply elem_of_range in HdD. lia.
  - intros bookings days rooms cap backend solver_name eps
      m st1 vals1 Z1 st2 val Hm Hne tol Hb1 Hv Hb2 Hf2.
    pose proof Hm as (Hb & _)%Static_build_inv.
    apply feasible_tier2_model in Hf2 as [Hf _]; [|apply (bt_floor _ Hb)].
    destruct (Static_solve_final bookings days rooms cap backend solver_name
                eps m st1 vals1 Z1 st2 val Hm Hne Hb1 Hv Hb2)
      as (acc & ra & Hacc & Hra & Hres).
    fold tol in Hacc, Hra.
    set (m' := final_model m vals1 Z1 tol val) in *.
    eexists. split; [exact Hres|].
    cbn [Static.accepted_bookings Static.room_assignments].
    destruct (Static_extraction_holds m' acc ra Hacc Hra)
      as (Hin_acc & Hdom & Hrep).
    pose proof (Static_extract_rooms_spec m' acc ∅ ra Hra) as Hspec.
    split_and!.
    + intros b. rewrite Hin_acc. simpl. split.
      * intros [Hin Hab]. split; [done|].
        by apply (final_accepted m val vals1 Z1 tol Hf b).
      * intros [Hin Ha]. split; [done|].
        by apply (final_accepted m val vals1 Z1 tol Hf b).
    + exact Hdom.
    + intros b sd room Hlook.
      assert (Hbacc : b ∈ acc) by (apply Hdom; by eexists).
      destruct (Hspec b) as [Hsp _].
      destruct (Hsp Hbacc) as (room' & sd' & Hlook' & Hsd & Hscan).
      rewrite Hlook in Hlook'. injection Hlook' as <- <-.
      apply Hin_acc in Hbacc as [Hin Hab]. simpl in Hin, Hsd.
      apply (final_accepted m val vals1 Z1 tol Hf b Hin) in Hab.
      split; [done|]. split.
      * intros Hsdne.
        apply (final_scan_rooms m val vals1 Z1 tol Hb Hf b sd room);
          [|done..].
        intros d Hd. apply (Static_InStay_stays _ _ _ _ m Hm). by exists sd.
      * intros ->. rewrite scan_rooms_no_day in Hscan.
        by injection Hscan as <-.
Qed.

Lemma Mini_early_feasible m :
  Mini.build_model Mini_early = Ok m -> feasible m diagonal.
Proof.
  intros E. vm_compute in E. injection E as <-.
  split; cbn [m_B m_R m_D m_YIDX m_RoomExcl m_Assign m_Continuity m_Overbook
              m_RevenueFloor].
  - intros b _. by right.
  - intros b r d _. simpl. destruct (b =? r); [by right|by left].
  - intros d _. simpl. lra.
  - intros i c Hin.
    repeat (apply elem_of_cons in Hin as [[= -> ->]|Hin];
            [vm_compute; discriminate|]).
    by apply elem_of_nil in Hin.
  - intros i c Hin.
    repeat (apply elem_of_cons in Hin as [[= -> ->]|Hin];
            [vm_compute; reflexivity|]).
    by apply elem_of_nil in Hin.
  - intros i c Hin.
    repeat (apply elem_of_cons in Hin as [[= -> ->]|Hin];
            [vm_compute; reflexivity|]).
    by apply elem_of_nil in Hin.
  - intros i c Hin.
    repeat (apply elem_of_cons in Hin as [[= -> ->]|Hin];
            [vm_compute; discriminate|]).
    by apply elem_of_nil in Hin.
  - discriminate.
Qed.

(** Both solves returning the diagonal point. On the small instance the
    driver lists booking 1 with its two stay days in room 1. On the instance
    whose booking 1 starts on day 0 it lists booking 1 with the stay days 0
    and 1 and no room. *)
Lemma X8_feasible_point_report_witness :
  (exists m res, Mini.build_model Mini_tiny = Ok m /\
     feasible m diagonal /\
     (Mini.run_two_tier_demo Mini_tiny all_available (backend_at diagonal)
        None).2 = Ok res /\
     (1, [1; 2], Some 1) ∈ Mini.accepted_bookings res) /\
  (exists m res, Mini.build_model Mini_early = Ok m /\
     feasible m diagonal /\
     (Mini.run_two_tier_demo Mini_early all_available (backend_at diagonal)
        None).2 = Ok res /\
     (1, [0; 1], None) ∈ Mini.accepted_bookings res).
Proof.
  split.
  - destruct (Mini.build_model Mini_tiny) as [m|e] eqn:E;
      [|by vm_compute in E].
    assert (Hne : m_B m <> []).
    { pose proof E as E'. vm_compute in E'. injection E' as <-. discriminate. }
    pose proof (Mini_tiny_feasible m E) as Hf.
    pose proof E as (Hb & _)%Mini_build_inv.
    destruct (proj1 X8_feasible_point_report Mini_tiny all_available
                (backend_at diagonal) None "highs"%string m OPTIMAL
                (loaded diagonal) (eval diagonal (m_RevExpr m)) OPTIMAL
                diagonal E eq_refl Hne eq_refl (value_loaded _ _) eq_refl)
      as (res & Hres & Hacc & Hrep).
    { apply feasible_tier2_model; [apply (bt_floor _ Hb)|].
      split; [done|]. simpl. lra. }
    exists m, res.
    split; [reflexivity|]. split; [exact Hf|]. split; [exact Hres|].
    destruct (proj2 (Hacc 1)) as (sd & room & Hin).
    { split; [|reflexivity]. apply elem_of_keys. by eexists. }
    destruct (Hrep 1 sd room Hin) as (Hsd & _ & Hsome & _).
    vm_compute in Hsd. injection Hsd as <-.
    destruct Hsome as (r & -> & _ & Hocc); [done| |].
    { intros d Hd. apply elem_of_cons in Hd as [->|Hd]; [lia|].
      apply list_elem_of_singleton in Hd as ->. lia. }
    destruct (Hocc 1 ltac:(left)) as [H1 _]. unfold diagonal in H1.
    destruct (Z.eqb_spec 1 r) as [<-|_]; [exact Hin|].
    exfalso. revert H1. unfold Qeq. simpl. lia.
  - destruct (Mini.build_model Mini_early) as [m|e] eqn:E;
      [|by vm_compute in E].
    assert (Hne : m_B m <> []).
    { pose proof E as E'. vm_compute in E'. injection E' as <-. discriminate. }
    pose proof (Mini_early_feasible m E) as Hf.
    pose proof E as (Hb & _)%Mini_build_inv.
    destruct (proj1 X8_feasible_point_report Mini_early all_available
                (backend_at diagonal) None "highs"%string m OPTIMAL
                (loaded diagonal) (eval diagonal (m_RevExpr m)) OPTIMAL
                diagonal E eq_refl Hne eq_refl (value_loaded _ _) eq_refl)
      as (res & Hres & Hacc & Hrep).
    { apply feasible_tier2_model; [apply (bt_floor _ Hb)|].
      split; [done|]. simpl. lra. }
    exists m, res.
    split; [reflexivity|]. split; [exact Hf|]. split; [exact Hres|].
    destruct (proj2 (Hacc 1)) as (sd & room & Hin).
    { split; [|reflexivity]. apply elem_of_keys. by eexists. }
    destruct (Hrep 1 sd room Hin) as (Hsd & _ & _ & Hnone).
    vm_compute in Hsd. injection Hsd as <-.
    rewrite (Hnone ltac:(exists 0; split; [left|lia])) in Hin. exact Hin.
Defined.

(** ** The revenue and slack fields of the results *)

Lemma fold_left_Qplus (l : list Q) (a : Q) :
  (fold_left Qplus l a == a + Qsum l)%Q.
Proof.
  revert a. induction l as [|x l IH]; intros a; simpl; [lra|].
  rewrite IH. lra.
Qed.

Lemma Qsum_Permutation (l l' : list Q) : l ≡ₚ l' -> (Qsum l == Qsum l')%Q.
Proof.
  induction 1 as [|x l l' _ IH|x y l|l l' l'' _ IH1 _ IH2]; simpl;
    [lra|rewrite IH; lra|lra|by rewrite IH1].
Qed.

Lemma slack_map_lookup (f : Z -> Q) (l : list Z) d :
  NoDup l ->
  (list_to_map (map (fun d => (d, f d)) l) : gmap Z Q) !! d
  = if decide (d ∈ l) then Some (f d) else None.
Proof.
  intros Hnd. destruct (decide (d ∈ l)) as [Hd|Hd].
  - apply elem_of_list_to_map_1.
    + change (map (fun d => (d, f d)) l) with ((fun d => (d, f d)) <$> l).
      rewrite <- list_fmap_compose. simpl. by rewrite list_fmap_id.
    + apply list_elem_of_fmap. by exists d.
  - apply not_elem_of_list_to_map_1.
    change (map (fun d => (d, f d)) l) with ((fun d => (d, f d)) <$> l).
    rewrite <- list_fmap_compose. simpl. by rewrite list_fmap_id.
Qed.

Lemma slack_map_sum (f : Z -> Q) (l : list Z) :
  NoDup l ->
  (fold_left Qplus
     (map_to_list (list_to_map (map (fun d => (d, f d)) l) : gmap Z Q)).*2 0
   == Qsum (map f l))%Q.
Proof.
  intros Hnd. rewrite fold_left_Qplus.
  change (map (fun d => (d, f d)) l) with ((fun d => (d, f d)) <$> l).
  rewrite (Qsum_Permutation _ (((fun d => (d, f d)) <$> l).*2)).
  - rewrite <- list_fmap_compose.
    change ((snd ∘ (fun d => (d, f d))) <$> l) with (map f l). lra.
  - apply fmap_Permutation, map_to_list_to_map.
    rewrite <- list_fmap_compose. simpl. by rewrite list_fmap_id.
Qed.

Lemma slack_list_sum (f : Z -> Q) (l : list Z) :
  (fold_left Qplus (map (fun d => (d, f d)) l).*2 0 == Qsum (map f l))%Q.
Proof.
  rewrite fold_left_Qplus.
  change (map (fun d => (d, f d)) l) with ((fun d => (d, f d)) <$> l).
  rewrite <- list_fmap_compose.
  change ((snd ∘ (fun d => (d, f d))) <$> l) with (map f l). lra.
Qed.

(** X9. Revenue and slack fields. In both drivers, when the Tier-2 solve
    loads a feasible point of the model it was given, the revenue field of
    the result ([Z2], [revenue_L2]) is the value of the revenue expression
    after the Tier-1 solve, which the revenue of the final point may
    undercut by at most the tolerance; the per-day slack has one entry for
    each day of the horizon, the final value of [w] on that day, and none
    else; and the total slack is the sum of these entries, which is not
    negative. *)
Theorem X9_result_fields :
  (forall g available backend eps solver m st1 vals1 Z1 st2 val,
     Mini.build_model g = Ok m ->
     Mini.get_solver available = Ok solver ->
     m_B m <> [] ->
     let tol := default (1 # 1000000)%Q eps in
     backend solver m = Returned st1 vals1 ->
     value vals1 (m_RevExpr m) = Ok Z1 ->
     backend solver (tier2_model m vals1 Z1 tol) = Returned st2 (loaded val) ->
     feasible (tier2_model m vals1 Z1 tol) val ->
     exists res,
       (Mini.run_two_tier_demo g available backend eps).2 = Ok res /\
       Mini.Z2 res = Z1 /\
       (Mini.Z2 res - tol <= eval val (m_RevExpr m))%Q /\
       (forall d, Mini.daily_slack res !! d
                  = if decide (1 <= d <= Mini.DAYS g)
                    then Some (val (Vw d)) else None) /\
       (Mini.slack_sum res
        == Qsum (map (fun d => val (Vw d)) (Mini.days g)))%Q /\
       (0 <= Mini.slack_sum res)%Q) /\
  (forall bookings days rooms capacity_by_day backend solver_name eps
          m st1 vals1 Z1 st2 val,
     Static.build_static_lco_model bookings days rooms capacity_by_day = Ok m ->
     m_B m <> [] ->
     let tol := default (1 # 1000000)%Q eps in
     backend solver_name m = Returned st1 vals1 ->
     value vals1 (m_RevExpr m) = Ok Z1 ->
     backend solver_name (tier2_model m vals1 Z1 tol)
     = Returned st2 (loaded val) ->
     feasible (tier2_model m vals1 Z1 tol) val ->
     exists res,
       (Static.solve_two_tier_lco backend bookings days rooms capacity_by_day
          solver_name eps).2 = Ok res /\
       Static.revenue_L2 res = Z1 /\
       (Static.revenue_L2 res - tol <= eval val (m_RevExpr m))%Q /\
       (forall d, Static.slack_by_day res !! d
                  = if decide (1 <= d <= days)
                    then Some (val (Vw d)) else None) /\
       (Static.slack_L3 res
        == Qsum (map (fun d => val (Vw d)) (range 1 (days + 1))))%Q /\
       (0 <= Static.slack_L3 res)%Q).
Proof.
  split.
  - intros g available backend eps solver m st1 vals1 Z1 st2 val
      Hm Hs Hne tol Hb1 Hv Hb2 Hf2.
    pose proof Hm as (Hb & (_ & _ & HD) & _)%Mini_build_inv.
    apply feasible_tier2_model in Hf2 as [Hf Hfloor]; [|apply (bt_floor _ Hb)].
    destruct (Mini_demo_final g available backend eps solver m st1 vals1 Z1
                st2 val Hm Hs Hne Hb1 Hv Hb2) as (l & _ & Hres).
    eexists. split; [exact Hres|].
    cbn [Mini.Z2 Mini.daily_slack Mini.slack_sum]. rewrite HD.
    assert (Hsum : (fold_left Qplus
                      (map (fun d => (d, val (Vw d))) (Mini.days g)).*2 0
                    == Qsum (map (fun d => val (Vw d)) (Mini.days g)))%Q)
      by apply (slack_list_sum (fun d => val (Vw d))).
    split; [done|]. split; [exact Hfloor|]. split; [|split; [exact Hsum|]].
    + intros d.
      rewrite (slack_map_lookup (fun d => val (Vw d)) (Mini.days g) d)
        by apply NoDup_range.
      apply decide_ext. unfold Mini.days. rewrite elem_of_range. lia.
    + rewrite Hsum. apply Qsum_nonneg, Forall_forall.
      intros q Hq. apply list_elem_of_In, in_map_iff in Hq as (d & <- & Hd).
      apply list_elem_of_In in Hd. apply (feas_w m val Hf). by rewrite HD.
  - intros bookings days rooms cap backend solver_name eps
      m st1 vals1 Z1 st2 val Hm Hne tol Hb1 Hv Hb2 Hf2.
    pose proof Hm as (Hb & (_ & _ & HD) & _)%Static_build_inv.
    apply feasible_tier2_model in Hf2 as [Hf Hfloor]; [|apply (bt_floor _ Hb)].
    destruct (Static_solve_final bookings days rooms cap backend solver_name
                eps m st1 vals1 Z1 st2 val Hm Hne Hb1 Hv Hb2)
      as (acc & ra & _ & _ & Hres).
    eexists. split; [exact Hres|].
    cbn [Static.revenue_L2 Static.slack_by_day Static.slack_L3]. rewrite HD.
    assert (Hsum : (fold_left Qplus
                      (map_to_list
                         (list_to_map
                            (map (fun d => (d, val (Vw d)))
                                 (range 1 (days + 1))) : gmap Z Q)).*2 0
                    == Qsum (map (fun d => val (Vw d)) (range 1 (days + 1))))%Q).
    { apply (slack_map_sum (fun d => val (Vw d))), NoDup_range. }
    split; [done|]. split; [exact Hfloor|]. split; [|split; [exact Hsum|]].
    + intros d.
      rewrite (slack_map_lookup (fun d => val (Vw d)) (range 1 (days + 1)) d)
        by apply NoDup_range.
      apply decide_ext. rewrite elem_of_range. lia.
    + rewrite Hsum. apply Qsum_nonneg, Forall_forall.
      intros q Hq. apply list_elem_of_In, in_map_iff in Hq as (d & <- & Hd).
      apply list_elem_of_In in Hd. apply (feas_w m val Hf). by rewrite HD.
Qed.

(** On the small instance, both solves returning the diagonal point: the
    revenue reported is 440, the slack of day 2 is 0, day 3 has no entry and
    the total slack is 0. *)
Lemma X9_result_fields_witness :
  exists m res, Mini.build_model Mini_tiny = Ok m /\
    feasible m diagonal /\
    (Mini.run_two_tier_demo Mini_tiny all_available (backend_at diagonal)
       None).2 = Ok res /\
    (Mini.Z2 res == 440)%Q /\
    Mini.daily_slack res !! 2 = Some 0%Q /\
    Mini.daily_slack res !! 3 = None /\
    (Mini.slack_sum res == 0)%Q.
Proof.
  destruct (Mini.build_model Mini_tiny) as [m|e] eqn:E;
    [|by vm_compute in E].
  assert (Hne : m_B m <> []).
  { pose proof E as E'. vm_compute in E'. injection E' as <-. discriminate. }
  assert (Hrev : (eval diagonal (m_RevExpr m) == 440)%Q).
  { pose proof E as E'. vm_compute in E'. injection E' as <-.
    vm_compute. reflexivity. }
  pose proof (Mini_tiny_feasible m E) as Hf.
  pose proof E as (Hb & _)%Mini_build_inv.
  destruct (proj1 X9_result_fields Mini_tiny all_available
              (backend_at diagonal) None "highs"%string m OPTIMAL
              (loaded diagonal) (eval diagonal (m_RevExpr m)) OPTIMAL diagonal
              E eq_refl Hne eq_refl (value_loaded _ _) eq_refl)
    as (res & Hres & HZ & _ & Hday & Hsum & _).
  { apply feasible_tier2_model; [apply (bt_floor _ Hb)|].
    split; [done|]. simpl. lra. }
  exists m, res.
  split; [reflexivity|]. split; [exact Hf|]. split; [exact Hres|].
  split; [by rewrite HZ|]. split; [by rewrite Hday|].
  split; [by rewrite Hday|]. rewrite Hsum. reflexivity.
Defined.

(** ** Bookings without a night in the horizon *)

Lemma Qsum_ext {A} (g h : A -> Q) (l : list A) :
  (forall x, x ∈ l -> (g x == h x)%Q) -> (Qsum (map g l) == Qsum (map h l))%Q.
Proof.
  induction l as [|x l IH]; intros H; simpl; [reflexivity|].
  rewrite (H x) by left. rewrite IH; [reflexivity|].
  intros y Hy. apply H. by right.
Qed.

Lemma Qsum_change_one (c f f' : Z -> Q) (l : list Z) b :
  NoDup l -> b ∈ l -> (forall x, x <> b -> (f' x == f x)%Q) ->
  (Qsum (map (fun x => f' x * c x) l)
   == Qsum (map (fun x => f x * c x) l) + (f' b - f b) * c b)%Q.
Proof.
  intros Hnd Hin Hf.
  assert (Hout : forall l' : list Z, b ∉ l' ->
            (Qsum (map (fun x => f' x * c x) l')
             == Qsum (map (fun x => f x * c x) l'))%Q).
  { intros l' Hn. apply Qsum_ext. intros x Hx. rewrite (Hf x); [reflexivity|].
    intros ->. done. }
  induction l as [|x l IH]; [by apply elem_of_nil in Hin|].
  apply NoDup_cons in Hnd as [Hx Hnd]. simpl.
  apply elem_of_cons in Hin as [<-|Hin].
  - rewrite (Hout l Hx). ring.
  - rewrite (IH Hnd Hin), (Hf x); [ring|]. intros ->. done.
Qed.

Section FreeBooking.
Context (m : Model) (val val' : var -> Q) (b : Z).
Hypothesis Hb : built m.
Hypothesis Hagree : forall v, v <> Va b -> (val' v == val v)%Q.

Lemma built_free_booking :
  (forall d, (b, d) ∉ m_InStay m) -> feasible m val ->
  binary (val' (Va b)) -> feasible m val'.
Proof.
  intros Hno Hf Hbin.
  assert (Hvars : forall c, ~ mentions c b ->
            forall v, v ∈ constraint_vars c -> (val v == val' v)%Q).
  { intros c Hc v Hv. symmetry. apply Hagree. intros ->.
    apply Hc. exists (Va b). split; [done|reflexivity]. }
  assert (Hfree : ~ contributes m b).
  { intros (d & Hd)%(built_contributes_stays m b Hb). by apply (Hno d). }
  split.
  - intros b' Hb'. destruct (decide (b' = b)) as [->|Hne]; [done|].
    unfold binary. rewrite (Hagree (Va b')) by congruence.
    by apply (feas_a m val Hf).
  - intros b' r d Hy. unfold binary. rewrite (Hagree (Vy b' r d)) by done.
    by apply (feas_y m val Hf).
  - intros d Hd. rewrite (Hagree (Vw d)) by done. by apply (feas_w m val Hf).
  - intros i c Hin. apply (holds_ext val val' c);
      [|by apply (feas_RoomExcl m val Hf i)].
    apply Hvars. intros Hc. apply Hfree. left. by exists i, c.
  - intros i c Hin. apply (holds_ext val val' c);
      [|by apply (feas_Assign m val Hf i)].
    apply Hvars. intros Hc. apply Hfree. right. left. by exists i, c.
  - intros i c Hin. apply (holds_ext val val' c);
      [|by apply (feas_Continuity m val Hf i)].
    apply Hvars. intros Hc. apply Hfree. right. right. left. by exists i, c.
  - intros i c Hin. apply (holds_ext val val' c);
      [|by apply (feas_Overbook m val Hf i)].
    apply Hvars. intros Hc. apply Hfree. right. right. right. by exists i, c.
  - intros c Hc. by rewrite (bt_floor m Hb) in Hc.
Qed.

Lemma built_revenue_change :
  NoDup (m_B m) -> b ∈ m_B m ->
  (eval val' (m_RevExpr m)
   == eval val (m_RevExpr m)
      + (val' (Va b) - val (Va b))
        * (default 0 (m_price m !! b) * inject_Z (default 0%Z (m_len m !! b))))%Q.
Proof.
  intros Hnd Hin. rewrite (bt_RevExpr m Hb), !eval_py_sum, !map_map.
  set (c := fun x => (default 0 (m_price m !! x)
                      * inject_Z (default 0%Z (m_len m !! x)))%Q).
  rewrite (Qsum_ext _ (fun x => val' (Va x) * c x)%Q)
    by (intros x _; unfold c; simpl; ring).
  rewrite (Qsum_ext (fun x => eval val _) (fun x => val (Va x) * c x)%Q)
    by (intros x _; unfold c; simpl; ring).
  apply (Qsum_change_one c (fun x => val (Va x)) (fun x => val' (Va x))
           (m_B m) b Hnd Hin).
  intros x Hx. apply Hagree. congruence.
Qed.

End FreeBooking.

(** X10. Bookings without a night in the horizon are free. In a model built
    by either builder, a booking none of whose nights is a day of the
    horizon (it starts after the last day, ends before the first, or has no
    night at all) is constrained by nothing: from a feasible point, setting
    its accept variable to 0 or to 1 and leaving every other variable as it
    is gives a feasible point, and the revenue moves by the change of the
    accept variable times the booking's price per night times its length. *)
Theorem X10_booking_without_nights_is_free :
  (forall g m b s L price showp val val',
     Mini.build_model g = Ok m ->
     Mini.bookings g !! b = Some (s, L, price, showp) ->
     (forall d, ~ night_in_horizon (Mini.DAYS g) s L d) ->
     feasible m val ->
     (forall v, v <> Va b -> (val' v == val v)%Q) ->
     binary (val' (Va b)) ->
     feasible m val' /\
     (eval val' (m_RevExpr m)
      == eval val (m_RevExpr m)
         + (val' (Va b) - val (Va b)) * (price * inject_Z L))%Q) /\
  (forall bookings days rooms capacity_by_day m b spec val val',
     Static.build_static_lco_model (Some bookings) days rooms capacity_by_day
     = Ok m ->
     bookings !! b = Some spec ->
     (forall d, ~ night_in_horizon days (Static.start_day spec)
                    (Static.length_of_stay spec) d) ->
     feasible m val ->
     (forall v, v <> Va b -> (val' v == val v)%Q) ->
     binary (val' (Va b)) ->
     feasible m val' /\
     (eval val' (m_RevExpr m)
      == eval val (m_RevExpr m)
         + (val' (Va b) - val (Va b))
           * (Static.price_per_night spec
              * inject_Z (Static.length_of_stay spec)))%Q).
Proof.
  split.
  - intros g m b s L price showp val val' Hm Hrow Hno Hf Hagree Hbin.
    pose proof Hm as (Hb & (HB & _ & _) & (_ & Hlen & Hprice & _) & HIS)
      %Mini_build_inv.
    split.
    + apply (built_free_booking m val val' b Hb Hagree); [|done..].
      intros d (Hd & sd & Hsd & Hin)%HIS.
      destruct (proj1 (Mini_stays_row g b d))
        as (s' & L' & p' & q' & Hrow' & Hnight & _); [by exists sd|].
      rewrite Hrow in Hrow'. injection Hrow' as <- <- _ _.
      apply (Hno d). split; [|done].
      unfold Mini.days in Hd. apply elem_of_range in Hd. lia.
    + rewrite (built_revenue_change m val val' b Hb Hagree).
      * by rewrite Hlen, Hprice, !lookup_fmap, Hrow.
      * rewrite HB. apply Mini_B_NoDup.
      * rewrite HB. apply elem_of_keys. by eexists.
  - intros bookings days rooms cap m b spec val val' Hm Hrow Hno Hf Hagree Hbin.
    pose proof Hm as (Hb & (HB & _ & HD) & (Hst & Hlen & Hprice & _) & _ & _
                      & HIS)%Static_build_inv.
    cbn [default from_option id] in *.
    split.
    + apply (built_free_booking m val val' b Hb Hagree); [|done..].
      intros d (sd & Hsd & Hin)%HIS. rewrite Hst, Hlen in Hsd.
      apply (Static_stay_bounds (Some bookings) days b d sd Hsd) in Hin
        as (Hd & spec' & Hrow' & Hnight).
      cbn [default from_option id] in Hrow'. rewrite Hrow in Hrow'.
      injection Hrow' as <-.
      apply (Hno d). split; [|done]. apply elem_of_range in Hd. lia.
    + rewrite (built_revenue_change m val val' b Hb Hagree).
      * by rewrite Hlen, Hprice, !lookup_fmap, Hrow.
      * rewrite HB. apply NoDup_fst_map_to_list.
      * rewrite HB. apply elem_of_keys. by eexists.
Qed.

Lemma Mini_late_feasible m :
  Mini.build_model Mini_late = Ok m -> feasible m diagonal.
Proof.
  intros E. vm_compute in E. injection E as <-.
  split; cbn [m_B m_R m_D m_YIDX m_RoomExcl m_Assign m_Continuity m_Overbook
              m_RevenueFloor].
  - intros b _. by right.
  - intros b r d _. simpl. destruct (b =? r); [by right|by left].
  - intros d _. simpl. lra.
  - intros i c Hin.
    repeat (apply elem_of_cons in Hin as [[= -> ->]|Hin];
            [vm_compute; discriminate|]).
    by apply elem_of_nil in Hin.
  - intros i c Hin.
    repeat (apply elem_of_cons in Hin as [[= -> ->]|Hin];
            [vm_compute; reflexivity|]).
    by apply elem_of_nil in Hin.
  - intros i c Hin.
    repeat (apply elem_of_cons in Hin as [[= -> ->]|Hin];
            [vm_compute; reflexivity|]).
    by apply elem_of_nil in Hin.
  - intros i c Hin.
    repeat (apply elem_of_cons in Hin as [[= -> ->]|Hin];
            [vm_compute; discriminate|]).
    by apply elem_of_nil in Hin.
  - discriminate.
Qed.

(** The small instance with a third booking (start 9, one night, price 50)
    beyond its two days: from the diagonal point, rejecting booking 3 stays
    feasible and costs exactly 50. *)
Lemma X10_booking_without_nights_is_free_witness :
  exists m, Mini.build_model Mini_late = Ok m /\
    feasible m diagonal /\
    feasible m (rejecting diagonal 3) /\
    (eval (rejecting diagonal 3) (m_RevExpr m)
     == eval diagonal (m_RevExpr m) - 50)%Q.
Proof.
  destruct (Mini.build_model Mini_late) as [m|e] eqn:E;
    [|by vm_compute in E].
  pose proof (Mini_late_feasible m E) as Hf.
  destruct (proj1 X10_booking_without_nights_is_free Mini_late m 3 9 1
              50%Q 0.5%Q diagonal (rejecting diagonal 3) E eq_refl)
    as [Hf' Hrev]; [|exact Hf| |by left|].
  - intros d [Hd Hn]. simpl in Hd. lia.
  - intros [b'| |] Hv; simpl; try reflexivity.
    destruct (decide (b' = 3)) as [->|_]; [done|reflexivity].
  - exists m. split; [reflexivity|]. split; [exact Hf|]. split; [exact Hf'|].
    rewrite Hrev. simpl. ring.
Defined.

(** ** Capacity of at least the number of rooms *)

Lemma Qsum_zero {A} (l : list A) : (Qsum (map (fun _ => 0%Q) l) == 0)%Q.
Proof. induction l as [|x l IH]; simpl; [reflexivity|]. rewrite IH. ring. Qed.

Lemma Qsum_plus {A} (g h : A -> Q) (l : list A) :
  (Qsum (map (fun x => g x + h x) l) == Qsum (map g l) + Qsum (map h l))%Q.
Proof. induction l as [|x l IH]; simpl; [ring|]. rewrite IH. ring. Qed.

Lemma Qsum_swap {A B} (f : A -> B -> Q) (la : list A) (lb : list B) :
  (Qsum (map (fun a => Qsum (map (f a) lb)) la)
   == Qsum (map (fun b => Qsum (map (fun a => f a b) la)) lb))%Q.
Proof.
  induction la as [|a la IH]; simpl.
  - by rewrite Qsum_zero.
  - rewrite IH. by rewrite (Qsum_plus (f a)).
Qed.

Lemma Qsum_le {A} (g h : A -> Q) (l : list A) :
  (forall x, x ∈ l -> (g x <= h x)%Q) -> (Qsum (map g l) <= Qsum (map h l))%Q.
Proof.
  induction l as [|x l IH]; intros H; simpl; [lra|].
  pose proof (H x ltac:(left)).
  assert (Qsum (map g l) <= Qsum (map h l))%Q; [|lra].
  apply IH. intros y Hy. apply H. by right.
Qed.

Lemma Qsum_ones {A} (l : list A) :
  (Qsum (map (fun _ => 1%Q) l) == inject_Z (Z.of_nat (length l)))%Q.
Proof.
  induction l as [|x l IH]; [reflexivity|].
  cbn [map Qsum length]. rewrite IH, Nat2Z.inj_succ, <- Z.add_1_l, inject_Z_plus.
  reflexivity.
Qed.

Lemma length_range lo hi : Z.of_nat (length (range lo hi)) = Z.max 0 (hi - lo).
Proof. unfold range. rewrite length_seqZ. lia. Qed.

Section NoSlack.
Context (m : Model) (val : var -> Q).
Hypothesis Hb : built m.
Hypothesis Hf : feasible m val.

(** At a feasible point, the accepted bookings that stay on a day are no
    more than the rooms: each holds a room of its own. *)
Lemma built_occupancy d :
  d ∈ m_D m ->
  (occupancy m val d <= inject_Z (Z.of_nat (length (m_R m))))%Q.
Proof.
  intros Hd. unfold occupancy.
  rewrite (Qsum_ext _ (fun b => Qsum (map (fun r => val (Vy b r d)) (m_R m)))).
  2: { intros b [Hin _]%list_elem_of_filter. symmetry.
       exact (built_assign_sum m val Hb Hf b d Hin). }
  rewrite (Qsum_swap (fun b r => val (Vy b r d))), <- Qsum_ones.
  apply Qsum_le. intros r Hr.
  exact (built_room_excl_sum m val Hb Hf r d Hr Hd).
Qed.

(** So no more guests are expected than there are rooms, as long as the
    show probabilities are probabilities. *)
Lemma built_expected_le_rooms d :
  show_probs_in_unit (m_showp m) -> d ∈ m_D m ->
  (expected_shows m val d <= inject_Z (Z.of_nat (length (m_R m))))%Q.
Proof.
  intros Hq Hd. apply Qle_trans with (occupancy m val d);
    [|by apply built_occupancy].
  unfold expected_shows, occupancy.
  apply Qsum_le. intros b [_ Hin]%list_elem_of_filter.
  assert (Hq' : (0 <= default 0 (m_showp m !! b) <= 1)%Q).
  { destruct (m_showp m !! b) as [q|] eqn:E; simpl; [|lra].
    exact (map_Forall_lookup_1 _ _ _ _ Hq E). }
  destruct (feas_a m val Hf b Hin) as [H|H]; rewrite H; lra.
Qed.

Lemma built_without_slack :
  (forall d c, d ∈ m_D m -> m_cap m !! d = Some c ->
     (expected_shows m val d <= inject_Z c)%Q) ->
  feasible m (without_slack val) /\
  (eval (without_slack val) (m_RevExpr m) == eval val (m_RevExpr m))%Q /\
  (eval (without_slack val) (obj_expr (tier2_objective (m_D m))) == 0)%Q.
Proof.
  intros Hcap. split_and!.
  - split.
    + intros b Hin. exact (feas_a m val Hf b Hin).
    + intros b r d Hin. exact (feas_y m val Hf b r d Hin).
    + intros d _. simpl. lra.
    + intros [r d] c Hin. pose proof (feas_RoomExcl m val Hf _ _ Hin) as H.
      apply (bt_RoomExcl m Hb) in Hin as (_ & _ & ->).
      unfold room_excl_constraint, holds in *. simpl in *.
      rewrite eval_py_sum, map_map in *. exact H.
    + intros [b d] c Hin. pose proof (feas_Assign m val Hf _ _ Hin) as H.
      apply (bt_Assign m Hb) in Hin as (_ & ->).
      unfold assign_constraint, holds in *. simpl in *.
      rewrite eval_py_sum, map_map in *. exact H.
    + intros [[b r] d] c Hin.
      pose proof (feas_Continuity m val Hf _ _ Hin) as H.
      apply (bt_Continuity m Hb) in Hin as (_ & ->). exact H.
    + intros d c Hin.
      apply (bt_Overbook m Hb) in Hin as (Hd & cd & Hcd & ->).
      unfold overbooking_constraint, holds. simpl.
      rewrite eval_py_sum, map_map.
      pose proof (Hcap d cd Hd Hcd) as Hle. unfold expected_shows in Hle.
      simpl. lra.
    + intros c Hc. by rewrite (bt_floor m Hb) in Hc.
  - rewrite (bt_RevExpr m Hb), !eval_py_sum, !map_map. reflexivity.
  - unfold tier2_objective. simpl. rewrite eval_py_sum, map_map.
    apply (Qsum_zero (m_D m)).
Qed.

End NoSlack.

(** X11. No slack is needed when the capacity covers the rooms. In a model
    built by the script (capacity of every day: the number of rooms), or by
    the static builder with no capacities given or with capacities of at
    least the number of rooms, and show probabilities between 0 and 1: at a
    feasible point the guests expected on a day never exceed the number of
    rooms, since each accepted guest holds a room of his own; so setting
    every slack to 0 keeps the point feasible, also for the Tier-2 model
    with its revenue floor, keeps the revenue, and brings the Tier-2
    objective to 0, its least possible value. *)
Theorem X11_no_slack_needed :
  (forall g m val,
     Mini.build_model g = Ok m ->
     0 <= Mini.ROOMS g ->
     show_probs_in_unit ((fun t => t.2) <$> Mini.bookings g) ->
     feasible m val ->
     (forall d, d ∈ Mini.days g ->
        (expected_shows m val d <= inject_Z (Mini.ROOMS g))%Q) /\
     feasible m (without_slack val) /\
     (eval (without_slack val) (m_RevExpr m) == eval val (m_RevExpr m))%Q /\
     (eval (without_slack val) (obj_expr (tier2_objective (m_D m))) == 0)%Q /\
     (forall vals Z1 eps, feasible (tier2_model m vals Z1 eps) val ->
        feasible (tier2_model m vals Z1 eps) (without_slack val))) /\
  (forall bookings days rooms capacity_by_day m val,
     Static.build_static_lco_model (Some bookings) days rooms capacity_by_day
     = Ok m ->
     0 <= rooms ->
     (forall cap d c, capacity_by_day = Some cap -> cap !! d = Some c ->
        rooms <= c) ->
     show_probs_in_unit (Static.show_prob <$> bookings) ->
     feasible m val ->
     (forall d, d ∈ range 1 (days + 1) ->
        (expected_shows m val d <= inject_Z rooms)%Q) /\
     feasible m (without_slack val) /\
     (eval (without_slack val) (m_RevExpr m) == eval val (m_RevExpr m))%Q /\
     (eval (without_slack val) (obj_expr (tier2_objective (m_D m))) == 0)%Q /\
     (forall vals Z1 eps, feasible (tier2_model m vals Z1 eps) val ->
        feasible (tier2_model m vals Z1 eps) (without_slack val))).
Proof.
  split.
  - intros g m val Hm Hrooms Hq Hf.
    pose proof Hm as (Hb & (_ & HR & HD) & (_ & _ & _ & Hshowp & Hcap) & _)
      %Mini_build_inv.
    assert (Hexp : forall d, d ∈ m_D m ->
              (expected_shows m val d <= inject_Z (Mini.ROOMS g))%Q).
    { intros d Hd.
      pose proof (built_expected_le_rooms m val Hb Hf d) as H.
      rewrite Hshowp, HR in H. unfold Mini.rooms in H.
      rewrite length_range in H.
      replace (Z.max 0 (Mini.ROOMS g + 1 - 1)) with (Mini.ROOMS g) in H by lia.
      by apply H. }
    destruct (built_without_slack m val Hb Hf) as (Hf' & Hrev & Hobj).
    { intros d c Hd Hc. rewrite Hcap, Mini_CAP_lookup in Hc.
      destruct (decide _); [|discriminate]. injection Hc as <-.
      by apply Hexp. }
    split_and!; [by rewrite <- HD|done..|].
    intros vals Z1 eps [_ Hfloor]%feasible_tier2_model;
      [|apply (bt_floor m Hb)].
    apply feasible_tier2_model; [apply (bt_floor m Hb)|].
    split; [done|]. by rewrite Hrev.
  - intros bookings days rooms capacity_by_day m val Hm Hrooms Hc Hq Hf.
    pose proof Hm as (Hb & (_ & HR & HD) & (_ & _ & _ & Hshowp & Hcap) & _)
      %Static_build_inv.
    cbn [default from_option id] in Hshowp.
    assert (Hexp : forall d, d ∈ m_D m ->
              (expected_shows m val d <= inject_Z rooms)%Q).
    { intros d Hd.
      pose proof (built_expected_le_rooms m val Hb Hf d) as H.
      rewrite Hshowp, HR in H. rewrite length_range in H.
      replace (Z.max 0 (rooms + 1 - 1)) with rooms in H by lia.
      by apply H. }
    destruct (built_without_slack m val Hb Hf) as (Hf' & Hrev & Hobj).
    { intros d c Hd Hcd. rewrite Hcap in Hcd.
      apply Qle_trans with (inject_Z rooms); [by apply Hexp|].
      rewrite <- Zle_Qle.
      destruct capacity_by_day as [cap|]; cbn [default from_option id] in Hcd.
      - by apply (Hc cap d c).
      - apply elem_of_list_to_map_2, list_elem_of_fmap in Hcd
          as (d' & [= _ ->] & _). lia. }
    split_and!; [by rewrite <- HD|done..|].
    intros vals Z1 eps [_ Hfloor]%feasible_tier2_model;
      [|apply (bt_floor m Hb)].
    apply feasible_tier2_model; [apply (bt_floor m Hb)|].
    split; [done|]. by rewrite Hrev.
Qed.

(** The small instance (two rooms, show probabilities 0.9 and 0.5): at the
    diagonal point at most two guests are expected on day 2, and the point
    stays feasible without slack. *)
Lemma X11_no_slack_needed_witness :
  exists m, Mini.build_model Mini_tiny = Ok m /\
    show_probs_in_unit ((fun t => t.2) <$> Mini.bookings Mini_tiny) /\
    feasible m diagonal /\
    (expected_shows m diagonal 2 <= 2)%Q /\
    feasible m (without_slack diagonal).
Proof.
  destruct (Mini.build_model Mini_tiny) as [m|e] eqn:E;
    [|by vm_compute in E].
  assert (Hq : show_probs_in_unit ((fun t => t.2) <$> Mini.bookings Mini_tiny)).
  { intros b q Hbq. rewrite lookup_fmap in Hbq.
    destruct (Mini.bookings Mini_tiny !! b) as [row|] eqn:Hrow; [|discriminate].
    injection Hbq as <-. simpl in Hrow.
    destruct (decide (b = 1)) as [->|H1].
    { rewrite lookup_insert_eq in Hrow. injection Hrow as <-. simpl. lra. }
    rewrite lookup_insert_ne in Hrow by done.
    destruct (decide (b = 2)) as [->|H2].
    { rewrite lookup_insert_eq in Hrow. injection Hrow as <-. simpl. lra. }
    rewrite lookup_insert_ne in Hrow by done. by rewrite lookup_empty in Hrow. }
  pose proof (Mini_tiny_feasible m E) as Hf.
  destruct (proj1 X11_no_slack_needed Mini_tiny m diagonal E
              ltac:(simpl; lia) Hq Hf) as (Hexp & Hf' & _).
  exists m. split; [reflexivity|]. split; [exact Hq|]. split; [exact Hf|].
  split; [|exact Hf'].
  apply (Hexp 2). apply elem_of_range. simpl. lia.
Defined.

(** ** The exceptions of the builders *)

Lemma bind_Raise_inv {C D} (r : result C) (k : C -> result D) e :
  r ≫= k = Raise e -> r = Raise e \/ exists x, r = Ok x /\ k x = Raise e.
Proof.
  destruct r as [x|e']; simpl; intros H; [right; by exists x|left; congruence].
Qed.

(** A constraint block raises what one of its rules raises, or the
    [ValueError] of a comparison between two numbers. *)
Lemma Constraint_block_Raise {I} (index : list I) rule e :
  Constraint_block index rule = Raise e ->
  exists i, i ∈ index /\ (rule i = Raise e \/ e = ValueError).
Proof.
  unfold Constraint_block, comprehend. intros [H|(ls & _ & H)]%bind_Raise_inv;
    [|discriminate].
  apply mapM_Raise_inv in H as (i & Hi & H). exists i. split; [done|].
  apply bind_Raise_inv in H as [H|([|c] & _ & H)]; [by left|discriminate|].
  right. unfold add_indexed, check_relational in H.
  destruct (constraint_native c); simpl in H; congruence.
Qed.

Lemma Mini_build_Raise g e : Mini.build_model g = Raise e -> e = ValueError.
Proof.
  intros H. unfold Mini.build_model in H.
  rewrite !Mini_Param_bookings, Mini_Param_CAP in H. simpl in H.
  destruct (Mini_in_stay_list_is_Ok g) as [isl Hisl]. rewrite Hisl in H.
  simpl in H.
  destruct (Mini_cont_list_is_Ok g) as [cl Hcl]. rewrite Hcl in H. simpl in H.
  pose proof (Mini_in_stay_list_spec g _ Hisl) as HIS.
  pose proof (Mini_cont_list_spec g _ Hcl) as HCL.
  set (InStay := list_to_set isl : gset (Z * Z)) in *.
  assert (HInStay : forall b d, (b, d) ∈ InStay <->
     d ∈ Mini.days g /\ exists sd, Mini.stay_days g b = Ok sd /\ d ∈ sd).
  { intros b d. unfold InStay. rewrite elem_of_list_to_set. apply HIS. }
  assert (HIn : forall b d, (b, d) ∈ InStay -> b ∈ Mini.B g /\ d ∈ Mini.days g).
  { intros b d (Hd & sd & Hsd & _)%HInStay. split; [|done].
    apply Mini_stay_days_is_Ok. by eexists. }
  pose proof (elem_of_yidx_of (Mini.rooms g) InStay) as HY.
  apply bind_Raise_inv in H as [H|(RoomExcl & _ & H)].
  { apply Constraint_block_Raise in H as ([r d] & Hin & [Hr| ->]); [|done].
    apply elem_of_pairs in Hin as [Hr' _].
    by rewrite (room_excl_Ok _ (Mini.rooms g) _ _ HY r d Hr') in Hr. }
  apply bind_Raise_inv in H as [H|(Assign & _ & H)].
  { apply Constraint_block_Raise in H as ([b d] & _ & [Hr| ->]); [|done].
    destruct (decide ((b, d) ∈ InStay)) as [Hin|Hout].
    - by rewrite (assign_link_Ok _ _ (Mini.days g) _ _ HY HIn b d Hin) in Hr.
    - by rewrite assign_link_Skip in Hr. }
  apply bind_Raise_inv in H as [H|(Continuity & _ & H)].
  { apply Constraint_block_Raise in H as ([[b r] d] & Hc & [Hr| ->]); [|done].
    apply elem_of_elements, elem_of_list_to_set, HCL in Hc
      as (Hr' & Hd & sd & Hsd & Hin & Hin').
    rewrite (continuity_Ok (Mini.rooms g) InStay _ HY) in Hr; [done| | |done].
    - apply HInStay. eauto.
    - apply HInStay. split; [|by eauto].
      pose proof (Mini_stay_days_upper _ _ _ _ Hsd Hin').
      unfold Mini.days in *. apply elem_of_range in Hd.
      apply elem_of_range. lia. }
  apply bind_Raise_inv in H as [H|(Overbook & _ & H)].
  { apply Constraint_block_Raise in H as (d & Hd & [Hr| ->]); [|done].
    rewrite (overbooking_Ok _ _ _ _ _ d (Mini.ROOMS g)) in Hr; [done|done| |].
    - rewrite Mini_CAP_lookup. by rewrite decide_True.
    - intros b [t Ht]%elem_of_keys. rewrite lookup_fmap, Ht. by eexists. }
  rewrite revenue_terms_Ok in H; [done|].
  intros b [t Ht]%elem_of_keys. rewrite !lookup_fmap, Ht. split; by eexists.
Qed.

Lemma Param_Any_Raise {V} index (init : gmap Z V) e :
  Param index init Any = Raise e ->
  e = KeyError /\ exists k, is_Some (init !! k) /\ k ∉ index.
Proof.
  unfold Param. intros [H|(l & _ & H)]%bind_Raise_inv; [|discriminate].
  apply mapM_Raise_inv in H as ([k v] & Hkv & Hr).
  apply elem_of_map_to_list in Hkv. simpl in Hr.
  destruct (decide (k ∈ index)) as [|Hk]; [discriminate|].
  split; [congruence|]. exists k. split; [by eexists|done].
Qed.

Lemma overbooking_Raise mB mD (showp : gmap Z Q) (cap : gmap Z Z) InStay d e :
  d ∈ mD -> (forall b, b ∈ mB -> is_Some (showp !! b)) ->
  overbooking mB mD showp cap InStay d = Raise e -> e = ValueError.
Proof.
  intros Hd Hshowp H.
  destruct (cap !! d) as [c|] eqn:Hc.
  { by rewrite (overbooking_Ok mB mD showp cap InStay d c Hd Hc Hshowp) in H. }
  unfold overbooking in H.
  apply bind_Raise_inv in H as [H|(exp_shows & _ & H)].
  { apply mapM_Raise_inv in H as (b & [_ Hb]%list_elem_of_filter & H).
    rewrite (var_a_In _ _ Hb) in H. simpl in H. unfold param_get in H.
    rewrite decide_True in H by done.
    by destruct (Hshowp b Hb) as [q Hq]; rewrite Hq in H. }
  rewrite (var_w_In _ _ Hd) in H. simpl in H. unfold param_get in H.
  rewrite decide_True, Hc in H by done. simpl in H. congruence.
Qed.

Lemma Static_build_Raise bookings days rooms capacity_by_day e :
  Static.build_static_lco_model bookings days rooms capacity_by_day = Raise e ->
  e = ValueError \/
  e = KeyError /\
  (forall b spec,
     default Static.build_default_bookings bookings !! b = Some spec ->
     1 <= Static.start_day spec <= days) /\
  exists cap d, capacity_by_day = Some cap /\ is_Some (cap !! d) /\
                ~ 1 <= d <= days.
Proof.
  intros H. unfold Static.build_static_lco_model in H. cbv zeta in H.
  set (table := default Static.build_default_bookings bookings) in *.
  set (mB := (map_to_list table).*1) in *.
  set (mD := range 1 (days + 1)) in *.
  set (mR := range 1 (rooms + 1)) in *.
  apply bind_Raise_inv in H as [H|(start & Hstart & H)].
  { left. apply Param_Raise_ValueError in H; [done|].
    intros k [v Hv]. rewrite lookup_fmap in Hv. apply elem_of_keys.
    destruct (table !! k); [by eexists|discriminate]. }
  apply Param_Ok_inv in Hstart as [-> Hst].
  unfold mB, table in H. rewrite !Static_Param_bookings in H.
  fold table in H. fold mB in H. simpl in H.
  apply bind_Raise_inv in H as [H|(cap & Hcap & H)].
  { right. apply Param_Any_Raise in H as (-> & d & Hsome & Hd).
    split; [done|]. split.
    { intros b spec Hspec.
      destruct (Hst b (Static.start_day spec)) as [_ Hw];
        [by rewrite lookup_fmap, Hspec|].
      apply bool_decide_eq_true, elem_of_range in Hw. lia. }
    destruct capacity_by_day as [cap|]; simpl in Hsome.
    - exists cap, d. split; [done|]. split; [done|].
      intros Hd'. apply Hd, elem_of_range. lia.
    - by apply default_capacity_keys in Hsome. }
  apply Param_Ok_inv in Hcap as [-> _].
  set (start := Static.start_day <$> table) in *.
  set (length := Static.length_of_stay <$> table) in *.
  assert (Hsd : forall b, b ∈ mB ->
            is_Ok (Static._stay_days mB mD start length b)).
  { intros b Hb. pose proof Hb as [spec Hspec]%elem_of_keys.
    eexists. apply Static_stay_days_Ok. split; [done|].
    exists (Static.start_day spec), (Static.length_of_stay spec).
    unfold start, length. rewrite !lookup_fmap, Hspec. done. }
  destruct (comprehend_is_Ok
    (fun b => comprehend mD (fun d =>
       sd ← Static._stay_days mB mD start length b;
       Ok (if decide (d ∈ sd) then [(b, d)] else []))) mB) as [isl Hisl].
  { intros b Hb. apply comprehend_is_Ok. intros d _.
    destruct (Hsd b Hb) as [sd ->]. by eexists. }
  rewrite Hisl in H. simpl in H.
  pose proof (Static_instay_spec bookings days _ _ _ Hisl) as HIS.
  set (InStay := list_to_set isl : gset (Z * Z)) in *.
  assert (HInStay : forall b d, (b, d) ∈ InStay <->
     exists sd, Static._stay_days mB mD start length b = Ok sd /\ d ∈ sd).
  { intros b d. unfold InStay. rewrite elem_of_list_to_set. apply HIS. }
  assert (HIn : forall b d, (b, d) ∈ InStay -> b ∈ mB /\ d ∈ mD).
  { intros b d (sd & Hsd' & Hin)%HInStay.
    apply Static_stay_days_Ok in Hsd' as (Hb & s & L & _ & _ & ->).
    by apply list_elem_of_filter in Hin as [_ ?]. }
  pose proof (elem_of_yidx_of mR InStay) as HY.
  apply bind_Raise_inv in H as [H|(RoomExcl & _ & H)].
  { apply Constraint_block_Raise in H as ([r d] & Hin & [Hr| ->]); [|by left].
    apply elem_of_pairs in Hin as [Hr' _].
    by rewrite (room_excl_Ok _ mR _ _ HY r d Hr') in Hr. }
  apply bind_Raise_inv in H as [H|(Assign & _ & H)].
  { apply Constraint_block_Raise in H as ([b d] & _ & [Hr| ->]); [|by left].
    destruct (decide ((b, d) ∈ InStay)) as [Hin|Hout].
    - by rewrite (assign_link_Ok _ _ mD _ _ HY HIn b d Hin) in Hr.
    - by rewrite assign_link_Skip in Hr. }
  apply bind_Raise_inv in H as [H|(Continuity & _ & H)].
  { apply Constraint_block_Raise in H as ([[b r] d] & Hc & [Hr| ->]);
      [|by left].
    apply elem_of_elements, elem_of_list_to_set in Hc.
    apply list_elem_of_bind in Hc as (b0 & Hc & Hb0).
    apply list_elem_of_bind in Hc as (r0 & Hc & Hr0).
    apply list_elem_of_bind in Hc as (d0 & Hc & Hd0).
    destruct (decide _) as [[H1 H2]|]; [|by apply elem_of_nil in Hc].
    apply list_elem_of_singleton in Hc as [= -> -> ->].
    by rewrite (continuity_Ok mR InStay _ HY b0 r0 d0 H1 H2 Hr0) in Hr. }
  apply bind_Raise_inv in H as [H|(Overbook & _ & H)].
  { left. apply Constraint_block_Raise in H as (d & Hd & [Hr| ->]); [|done].
    apply (overbooking_Raise _ _ _ _ _ d e Hd) in Hr; [done|].
    intros b [t Ht]%elem_of_keys. rewrite lookup_fmap, Ht. by eexists. }
  rewrite revenue_terms_Ok in H; [done|].
  intros b [t Ht]%elem_of_keys. unfold length.
  rewrite !lookup_fmap, Ht. split; by eexists.
Qed.

Lemma Param_Any_KeyError {V} index (init : gmap Z V) k :
  is_Some (init !! k) -> k ∉ index -> Param index init Any = Raise KeyError.
Proof.
  intros [v Hv] Hk. destruct (Param index init Any) as [p|e] eqn:E.
  - apply Param_Ok_inv in E as [_ H]. by destruct (H k v Hv).
  - by apply Param_Any_Raise in E as [-> _].
Qed.

Lemma Static_build_KeyError bookings days rooms cap d :
  (forall b spec,
     default Static.build_default_bookings bookings !! b = Some spec ->
     1 <= Static.start_day spec <= days) ->
  is_Some (cap !! d) -> ~ 1 <= d <= days ->
  Static.build_static_lco_model bookings days rooms (Some cap)
  = Raise KeyError.
Proof.
  intros Hst Hsome Hd. unfold Static.build_static_lco_model. cbv zeta.
  rewrite !Static_Param_bookings.
  rewrite (Param_Ok _ (Static.start_day <$> _)); simpl.
  - rewrite (Param_Any_KeyError _ cap d Hsome); [done|].
    rewrite elem_of_range. lia.
  - intros b s Hs. rewrite lookup_fmap in Hs.
    destruct (default Static.build_default_bookings bookings !! b)
      as [spec|] eqn:E; [|discriminate].
    injection Hs as <-. split; [apply elem_of_keys; by eexists|].
    apply bool_decide_eq_true, elem_of_range. specialize (Hst b spec E). lia.
Qed.

(** X12. Exceptions of the builders. The script's [build_model] raises
    nothing but [ValueError]. The static builder raises [ValueError] or
    [KeyError], and [KeyError] exactly when every booking starts on a day of
    the horizon and the capacities given have a key that is not a day of
    the horizon. *)
Theorem X12_builder_exceptions :
  (forall g e, Mini.build_model g = Raise e -> e = ValueError) /\
  (forall bookings days rooms capacity_by_day e,
     Static.build_static_lco_model bookings days rooms capacity_by_day
     = Raise e ->
     (e = ValueError \/ e = KeyError) /\
     (e = KeyError <->
      (forall b spec,
         default Static.build_default_bookings bookings !! b = Some spec ->
         1 <= Static.start_day spec <= days) /\
      exists cap d, capacity_by_day = Some cap /\ is_Some (cap !! d) /\
                    ~ 1 <= d <= days)).
Proof.
  split; [exact Mini_build_Raise|].
  intros bookings days rooms capacity_by_day e H.
  pose proof (Static_build_Raise _ _ _ _ _ H) as [->|(-> & Hst & Hcap)].
  - split; [by left|]. split; [done|].
    intros (Hst & cap & d & -> & Hsome & Hd).
    rewrite (Static_build_KeyError bookings days rooms cap d Hst Hsome Hd) in H.
    by injection H.
  - split; [by right|]. done.
Qed.

(** With one room and a single one-night booking on day 1 of two, the
    script's build raises [ValueError]. *)
Lemma X12_builder_exceptions_witness :
  Mini.build_model Mini_gap = Raise ValueError.
Proof.
  destruct (Mini.build_model Mini_gap) as [m|e] eqn:E;
    [by vm_compute in E|].
  by rewrite (proj1 X12_builder_exceptions Mini_gap e E).
Defined.

(** ** Failures after the Tier-1 solve *)

Lemma value_raises_ValueError vals e err :
  value vals e = Raise err -> err = ValueError.
Proof.
  induction e as [q|v|e1 IH1 e2 IH2|e1 IH1 e2 IH2|e1 IH1 e2 IH2]; simpl;
    try discriminate.
  - destruct (vals v); congruence.
  - intros [H|(x & _ & [H|(y & _ & H)]%bind_Raise_inv)]%bind_Raise_inv;
      auto; discriminate.
  - intros [H|(x & _ & [H|(y & _ & H)]%bind_Raise_inv)]%bind_Raise_inv;
      auto; discriminate.
  - intros [H|(x & _ & [H|(y & _ & H)]%bind_Raise_inv)]%bind_Raise_inv;
      auto; discriminate.
Qed.

Lemma value_is_Ok vals e :
  is_Ok (value vals e) <-> forall v, v ∈ expr_vars e -> is_Some (vals v).
Proof.
  induction e as [q|v|e1 IH1 e2 IH2|e1 IH1 e2 IH2|e1 IH1 e2 IH2]; simpl.
  - split; [|by eexists]. intros _ v Hv. by apply elem_of_nil in Hv.
  - split.
    + intros [q Hq] v' ->%list_elem_of_singleton.
      destruct (vals v); [by eexists|discriminate].
    + intros H. destruct (H v ltac:(left)) as [q ->]. by eexists.
  - split.
    + intros [q (x & Hx & (y & Hy & _)%bind_Ok_inv)%bind_Ok_inv] v
        [Hv|Hv]%elem_of_app;
        [exact (proj1 IH1 (ex_intro _ x Hx) v Hv)
        |exact (proj1 IH2 (ex_intro _ y Hy) v Hv)].
    + intros H. destruct (proj2 IH1) as [x ->];
        [intros; apply H, elem_of_app; auto|].
      destruct (proj2 IH2) as [y ->]; [intros; apply H, elem_of_app; auto|].
      by eexists.
  - split.
    + intros [q (x & Hx & (y & Hy & _)%bind_Ok_inv)%bind_Ok_inv] v
        [Hv|Hv]%elem_of_app;
        [exact (proj1 IH1 (ex_intro _ x Hx) v Hv)
        |exact (proj1 IH2 (ex_intro _ y Hy) v Hv)].
    + intros H. destruct (proj2 IH1) as [x ->];
        [intros; apply H, elem_of_app; auto|].
      destruct (proj2 IH2) as [y ->]; [intros; apply H, elem_of_app; auto|].
      by eexists.
  - split.
    + intros [q (x & Hx & (y & Hy & _)%bind_Ok_inv)%bind_Ok_inv] v
        [Hv|Hv]%elem_of_app;
        [exact (proj1 IH1 (ex_intro _ x Hx) v Hv)
        |exact (proj1 IH2 (ex_intro _ y Hy) v Hv)].
    + intros H. destruct (proj2 IH1) as [x ->];
        [intros; apply H, elem_of_app; auto|].
      destruct (proj2 IH2) as [y ->]; [intros; apply H, elem_of_app; auto|].
      by eexists.
Qed.

(** The revenue expression has a value exactly when every accept variable
    has one. *)
Lemma built_revenue_value m vals :
  built m ->
  (is_Ok (value vals (m_RevExpr m)) <->
   forall b, b ∈ m_B m -> is_Some (vals (Va b))) /\
  (~ is_Ok (value vals (m_RevExpr m)) ->
   value vals (m_RevExpr m) = Raise ValueError).
Proof.
  intros Hb. split.
  - rewrite value_is_Ok, (bt_RevExpr m Hb). split.
    + intros H b Hin. apply H, expr_vars_py_sum. eexists. split.
      * apply list_elem_of_In, in_map_iff. exists b.
        split; [done|by apply list_elem_of_In].
      * simpl. left.
    + intros H v (e & He & Hv)%expr_vars_py_sum.
      apply list_elem_of_In, in_map_iff in He as (b & <- & Hin).
      apply list_elem_of_In in Hin. simpl in Hv.
      apply list_elem_of_singleton in Hv as ->. by apply H.
  - intros Hn. destruct (value vals (m_RevExpr m)) as [q|e] eqn:E.
    + exfalso. apply Hn. by eexists.
    + by apply value_raises_ValueError in E as ->.
Qed.

Lemma solve_tiers_no_value backend eps m st vals :
  backend m = Returned st vals ->
  value vals (m_RevExpr m) = Raise ValueError ->
  let sr := solve_tiers backend eps {| live := m; calls := [] |} in
  calls sr.1 = [m] /\ sr.2 = Raise ValueError.
Proof. intros H1 Hv. rewrite solve_tiers_run. simpl. by rewrite H1, Hv. Qed.

Lemma solve_tiers_tier2_raised backend eps m st vals Z1 e :
  is_native (m_RevExpr m) = false ->
  backend m = Returned st vals ->
  value vals (m_RevExpr m) = Ok Z1 ->
  backend (tier2_model m vals Z1 eps) = Raised e ->
  let sr := solve_tiers backend eps {| live := m; calls := [] |} in
  calls sr.1 = [m; tier2_model m vals Z1 eps] /\ sr.2 = Raise e.
Proof.
  intros Hn H1 Hv H2. rewrite solve_tiers_run. simpl.
  rewrite H1, Hv. unfold revenue_floor. simpl. rewrite Hn. simpl.
  fold (revenue_floor (m_RevExpr m) Z1 eps). by rewrite H2.
Qed.

Lemma Mini_two_tier_Raise g backend solver eps s e :
  (solve_tiers (backend solver) eps s).2 = Raise e ->
  (Mini.two_tier g backend solver eps s).2 = Raise e.
Proof.
  unfold Mini.two_tier, mbind, M_bind.
  by destruct (solve_tiers (backend solver) eps s) as [s' [Z1|e']];
    simpl; intros [= ->].
Qed.

Lemma Static_two_tier_Raise backend solver_name eps s e :
  (solve_tiers (backend solver_name) eps s).2 = Raise e ->
  (Static.two_tier backend solver_name eps s).2 = Raise e.
Proof.
  unfold Static.two_tier, mbind, M_bind.
  by destruct (solve_tiers (backend solver_name) eps s) as [s' [Z1|e']];
    simpl; intros [= ->].
Qed.

(** X13. Failures after the Tier-1 solve. In both drivers: when the Tier-1
    solve returns but leaves some accept variable without a value, reading
    the revenue raises [ValueError]; the driver raises it after that single
    backend call, and no floor is ever added. When the revenue has a value
    and the backend raises on the Tier-2 model, the driver raises that
    exception after the two calls. *)
Theorem X13_failures_after_tier1 :
  (forall g available backend eps solver m st vals b,
     Mini.build_model g = Ok m ->
     Mini.get_solver available = Ok solver ->
     backend solver m = Returned st vals ->
     b ∈ Mini.B g -> vals (Va b) = None ->
     Mini.run_two_tier_demo g available backend eps
     = ([m], Raise ValueError)) /\
  (forall g available backend eps solver m st vals Z1 e,
     Mini.build_model g = Ok m ->
     Mini.get_solver available = Ok solver ->
     m_B m <> [] ->
     let tol := default (1 # 1000000)%Q eps in
     backend solver m = Returned st vals ->
     value vals (m_RevExpr m) = Ok Z1 ->
     backend solver (tier2_model m vals Z1 tol) = Raised e ->
     Mini.run_two_tier_demo g available backend eps
     = ([m; tier2_model m vals Z1 tol], Raise e)) /\
  (forall bookings days rooms capacity_by_day backend solver_name eps
          m st vals b,
     Static.build_static_lco_model bookings days rooms capacity_by_day = Ok m ->
     backend solver_name m = Returned st vals ->
     b ∈ m_B m -> vals (Va b) = None ->
     Static.solve_two_tier_lco backend bookings days rooms capacity_by_day
       solver_name eps
     = ([m], Raise ValueError)) /\
  (forall bookings days rooms capacity_by_day backend solver_name eps
          m st vals Z1 e,
     Static.build_static_lco_model bookings days rooms capacity_by_day = Ok m ->
     m_B m <> [] ->
     let tol := default (1 # 1000000)%Q eps in
     backend solver_name m = Returned st vals ->
     value vals (m_RevExpr m) = Ok Z1 ->
     backend solver_name (tier2_model m vals Z1 tol) = Raised e ->
     Static.solve_two_tier_lco backend bookings days rooms capacity_by_day
       solver_name eps
     = ([m; tier2_model m vals Z1 tol], Raise e)).
Proof.
  split_and!.
  - intros g available backend eps solver m st vals b Hm Hs H1 Hin Hnone.
    pose proof Hm as (Hb & (HB & _) & _)%Mini_build_inv.
    destruct (built_revenue_value m vals Hb) as [Hok Hraise].
    assert (Hv : value vals (m_RevExpr m) = Raise ValueError).
    { apply Hraise. intros H. rewrite Hok in H.
      destruct (H b) as [q Hq]; [by rewrite HB|congruence]. }
    destruct (solve_tiers_no_value (backend solver)
                (default (1 # 1000000)%Q eps) m st vals H1 Hv) as [Hc Hr].
    unfold Mini.run_two_tier_demo. rewrite Hm, Hs.
    rewrite Mini_two_tier_session, Hc.
    by rewrite (Mini_two_tier_Raise _ _ _ _ _ _ Hr).
  - intros g available backend eps solver m st vals Z1 e
      Hm Hs Hne tol H1 Hv H2.
    pose proof Hm as (Hb & _)%Mini_build_inv.
    destruct (solve_tiers_tier2_raised (backend solver) tol m st vals Z1 e
                (built_RevExpr_not_native m Hb Hne) H1 Hv H2) as [Hc Hr].
    unfold Mini.run_two_tier_demo. rewrite Hm, Hs. fold tol.
    rewrite Mini_two_tier_session, Hc.
    by rewrite (Mini_two_tier_Raise _ _ _ _ _ _ Hr).
  - intros bookings days rooms cap backend solver_name eps m st vals b
      Hm H1 Hin Hnone.
    pose proof Hm as (Hb & _)%Static_build_inv.
    destruct (built_revenue_value m vals Hb) as [Hok Hraise].
    assert (Hv : value vals (m_RevExpr m) = Raise ValueError).
    { apply Hraise. intros H. rewrite Hok in H.
      destruct (H b Hin) as [q Hq]. congruence. }
    destruct (solve_tiers_no_value (backend solver_name)
                (default (1 # 1000000)%Q eps) m st vals H1 Hv) as [Hc Hr].
    unfold Static.solve_two_tier_lco. rewrite Hm.
    rewrite Static_two_tier_session, Hc.
    by rewrite (Static_two_tier_Raise _ _ _ _ _ Hr).
  - intros bookings days rooms cap backend solver_name eps m st vals Z1 e
      Hm Hne tol H1 Hv H2.
    pose proof Hm as (Hb & _)%Static_build_inv.
    destruct (solve_tiers_tier2_raised (backend solver_name) tol m st vals Z1 e
                (built_RevExpr_not_native m Hb Hne) H1 Hv H2) as [Hc Hr].
    unfold Static.solve_two_tier_lco. rewrite Hm. fold tol.
    rewrite Static_two_tier_session, Hc.
    by rewrite (Static_two_tier_Raise _ _ _ _ _ Hr).
Qed.

(** On the small instance: a backend that loads no values makes the driver
    raise [ValueError] after one call; one that crashes on the model with
    the floor makes it raise that crash after two. *)
Lemma X13_failures_after_tier1_witness :
  exists m, Mini.build_model Mini_tiny = Ok m /\
    Mini.run_two_tier_demo Mini_tiny all_available backend_no_values None
    = ([m], Raise ValueError) /\
    Mini.run_two_tier_demo Mini_tiny all_available
      (backend_tier2_down diagonal) None
    = ([m; tier2_model m (loaded diagonal) (eval diagonal (m_RevExpr m))
             (1 # 1000000)],
       Raise (SolverError 1)).
Proof.
  destruct (Mini.build_model Mini_tiny) as [m|e] eqn:E;
    [|by vm_compute in E].
  assert (Hne : m_B m <> []).
  { pose proof E as E'. vm_compute in E'. injection E' as <-. discriminate. }
  pose proof E as (Hb & _)%Mini_build_inv.
  exists m. split; [reflexivity|]. split.
  - apply (proj1 X13_failures_after_tier1 Mini_tiny all_available
             backend_no_values None "highs"%string m OPTIMAL
             (fun _ => None) 1 E eq_refl eq_refl); [|reflexivity].
    apply elem_of_keys. by eexists.
  - apply (proj1 (proj2 X13_failures_after_tier1) Mini_tiny all_available
             (backend_tier2_down diagonal) None "highs"%string m OPTIMAL
             (loaded diagonal) (eval diagonal (m_RevExpr m))
             (SolverError 1) E eq_refl Hne).
    + unfold backend_tier2_down. by rewrite (bt_floor m Hb).
    + apply value_loaded.
    + reflexivity.
Defined.

(** ** Occupancy *)

(** X14. Occupancy never exceeds the rooms. At any feasible point of a model
    built by either builder, on every day of the horizon the number of
    accepted bookings that stay on that day is at most the number of rooms,
    whatever the capacities and the show probabilities are: the slack only
    measures expected shows against the capacity parameter, and a feasible
    plan never needs more rooms than exist. *)
Theorem X14_occupancy_within_rooms :
  (forall g m val d,
     Mini.build_model g = Ok m -> feasible m val ->
     1 <= d <= Mini.DAYS g ->
     (occupancy m val d <= inject_Z (Z.max 0 (Mini.ROOMS g)))%Q) /\
  (forall bookings days rooms capacity_by_day m val d,
     Static.build_static_lco_model bookings days rooms capacity_by_day = Ok m ->
     feasible m val ->
     1 <= d <= days ->
     (occupancy m val d <= inject_Z (Z.max 0 rooms))%Q).
Proof.
  split.
  - intros g m val d Hm Hf Hd.
    pose proof Hm as (Hb & (_ & HR & HD) & _)%Mini_build_inv.
    pose proof (built_occupancy m val Hb Hf d) as H.
    rewrite HR, HD in H. unfold Mini.rooms in H. rewrite length_range in H.
    replace (Mini.ROOMS g + 1 - 1) with (Mini.ROOMS g) in H by lia.
    apply H. apply elem_of_range. lia.
  - intros bookings days rooms cap m val d Hm Hf Hd.
    pose proof Hm as (Hb & (_ & HR & HD) & _)%Static_build_inv.
    pose proof (built_occupancy m val Hb Hf d) as H.
    rewrite HR, HD in H. rewrite length_range in H.
    replace (rooms + 1 - 1) with rooms in H by lia.
    apply H. apply elem_of_range. lia.
Qed.

(** On the small instance (two rooms), at the diagonal point: at most two
    accepted bookings stay on day 2. *)
Lemma X14_occupancy_within_rooms_witness :
  exists m, Mini.build_model Mini_tiny = Ok m /\
    feasible m diagonal /\ (occupancy m diagonal 2 <= 2)%Q.
Proof.
  destruct (Mini.build_model Mini_tiny) as [m|e] eqn:E;
    [|by vm_compute in E].
  pose proof (Mini_tiny_feasible m E) as Hf.
  exists m. split; [reflexivity|]. split; [exact Hf|].
  exact (proj1 X14_occupancy_within_rooms Mini_tiny m diagonal 2 E Hf
           ltac:(simpl; lia)).
Defined.

(** ** The two drivers on the same data *)

Lemma solve_tiers_live_data backend eps m :
  let m' := live (solve_tiers backend eps {| live := m; calls := [] |}).1 in
  m_B m' = m_B m /\ m_D m' = m_D m /\
  m_start m' = m_start m /\ m_len m' = m_len m.
Proof.
  rewrite solve_tiers_run. cbv zeta. cbn [live calls].
  destruct (backend m) as [st vals|e]; [|done].
  destruct (value vals (m_RevExpr m)) as [Z1|e]; [|done].
  destruct (constraint_native (revenue_floor (m_RevExpr m) Z1 eps)); [done|].
  by destruct (backend (tier2_model m vals Z1 eps)).
Qed.

Lemma slack_values_keys_aux D vals (l : list Z) (sl : list (Z * Q)) :
  mapM (fun d => wd ← var_w D d; v ← value vals wd; Ok (d, v)) l = Ok sl ->
  sl.*1 = l.
Proof.
  intros H%mapM_Ok_inv.
  induction H as [|d [d' v] l l' Hd _ IH]; [done|].
  rewrite fmap_cons, IH. cbn [fst]. f_equal. apply bind_Ok_inv in Hd as (wd & _ & Hd).
  by apply bind_Ok_inv in Hd as (q & _ & [= -> _]).
Qed.

Lemma slack_values_keys m sl : slack_values m = Ok sl -> sl.*1 = m_D m.
Proof. apply slack_values_keys_aux. Qed.

Lemma comprehend_cons {A B} (f : A -> result (list B)) x l :
  comprehend (x :: l) f = ys ← f x; k ← comprehend l f; Ok (ys ++ k).
Proof.
  unfold comprehend. simpl. destruct (f x) as [ys|e]; simpl; [|done].
  by destruct (mapM f l).
Qed.

Section Same.
Context (g : Mini.Globals) (m : Model).
Hypothesis Hstarts : starts_in_horizon g.
Hypothesis Hdata : same_data g m.

Lemma same_stay_days b :
  b ∈ Mini.B g ->
  Static._stay_days (m_B m) (m_D m) (m_start m) (m_len m) b
  = Mini.stay_days g b.
Proof.
  destruct Hdata as (-> & -> & -> & ->).
  intros Hb. pose proof Hb as [[[[s L] p] q] Hrow]%elem_of_keys.
  rewrite (proj2 (Static_stay_days_Ok (Mini.B g) (Mini.days g) _ _ b
             (filter (fun d => d >= s /\ d < s + L) (Mini.days g)))).
  2: { split; [done|]. exists s, L. by rewrite !lookup_fmap, Hrow. }
  rewrite (proj2 (Mini_stay_days_Ok g b
             (range s (Z.min (s + L) (Mini.DAYS g + 1)))))
    by (exists s, L, p, q; done).
  f_equal. apply sorted_lt_unique.
  - apply StronglySorted_filter_lt, StronglySorted_seqZ.
  - apply StronglySorted_seqZ.
  - intros d. unfold Mini.days.
    rewrite list_elem_of_filter, !elem_of_range.
    pose proof (map_Forall_lookup_1 _ _ _ _ Hstarts Hrow) as H.
    simpl in H. lia.
Qed.

(** The accepted list of the static driver is the list of the bookings the
    script reports, in the same order. *)
Lemma same_accepted_list (B' : list Z) l :
  comprehend B' (fun b =>
    acc ← accepted_now m b;
    if acc : bool
    then sdays ← Mini.stay_days g b;
         assigned_r ← scan_rooms m b sdays (m_R m);
         Ok [(b, sdays, assigned_r)]
    else Ok []) = Ok l ->
  comprehend B' (fun b =>
    acc ← accepted_now m b; Ok (if acc : bool then [b] else []))
  = Ok ((fun t => t.1.1) <$> l).
Proof.
  revert l. induction B' as [|b B' IH]; intros l.
  - by intros [= <-].
  - rewrite !comprehend_cons.
    intros (ys & Hys & (k & Hk & [= <-])%bind_Ok_inv)%bind_Ok_inv.
    rewrite (IH k Hk). apply bind_Ok_inv in Hys as ([|] & -> & Hys); simpl.
    + apply bind_Ok_inv in Hys as (sd & _ & Hys).
      by apply bind_Ok_inv in Hys as (r & _ & [= <-]).
    + by injection Hys as <-.
Qed.

Lemma extract_rooms_is_Ok_of acc init :
  (forall b, b ∈ acc ->
     exists sd room,
       Static._stay_days (m_B m) (m_D m) (m_start m) (m_len m) b = Ok sd /\
       scan_rooms m b sd (m_R m) = Ok room) ->
  is_Ok (Static.extract_rooms m acc init).
Proof.
  revert init. induction acc as [|b acc IH]; intros init H; simpl;
    [by eexists|].
  destruct (H b ltac:(left)) as (sd & room & -> & Hscan). simpl.
  rewrite Hscan. simpl. apply IH. intros b' Hb'. apply H. by right.
Qed.

Lemma same_extraction :
  (forall l, Mini.extract_assignments g m = Ok l ->
     exists ra,
       Static.extract_accepted m = Ok ((fun t => t.1.1) <$> l) /\
       Static.extract_rooms m ((fun t => t.1.1) <$> l) ∅ = Ok ra /\
       forall b sd room, ra !! b = Some (room, sd) <-> (b, sd, room) ∈ l) /\
  (forall acc ra,
     Static.extract_accepted m = Ok acc ->
     Static.extract_rooms m acc ∅ = Ok ra ->
     is_Ok (Mini.extract_assignments g m)).
Proof.
  pose proof Hdata as (HB & _).
  split.
  - intros l Hl.
    pose proof (Mini_extract_assignments_spec g m l Hl) as Hspec.
    pose proof (same_accepted_list (m_B m) l Hl) as Hacc.
    fold (Static.extract_accepted m) in Hacc.
    pose proof (Static_extract_accepted_spec m _ Hacc) as Haspec.
    destruct (extract_rooms_is_Ok_of ((fun t => t.1.1) <$> l) ∅)
      as [ra Hra].
    { intros b (t & -> & Ht)%list_elem_of_fmap. destruct t as [[b sd] room].
      apply Hspec in Ht as ((Hb & _) & Hsd & Hscan). simpl.
      exists sd, room. split; [|done].
      rewrite same_stay_days; [done|by rewrite <- HB]. }
    exists ra. split; [done|]. split; [done|].
    pose proof (Static_extract_rooms_spec m _ ∅ ra Hra) as Hrspec.
    intros b sd room. destruct (Hrspec b) as [Hin Hout]. split.
    + intros Hlook.
      destruct (decide (b ∈ (fun t => t.1.1) <$> l)) as [Hb|Hb].
      * destruct (Hin Hb) as (room' & sd' & Hlook' & Hsd & Hscan).
        rewrite Hlook in Hlook'. injection Hlook' as <- <-.
        apply Haspec in Hb as [Hb Hab]. apply Hspec.
        split; [done|]. split; [|done].
        rewrite <- same_stay_days; [done|by rewrite <- HB].
      * by rewrite (Hout Hb), lookup_empty in Hlook.
    + intros Ht. pose proof Ht as ((Hb & Hab) & Hsd & Hscan)%Hspec.
      destruct Hin as (room' & sd' & Hlook & Hsd' & Hscan').
      { apply list_elem_of_fmap. by exists (b, sd, room). }
      rewrite same_stay_days in Hsd' by (by rewrite <- HB).
      rewrite Hsd in Hsd'. injection Hsd' as <-.
      rewrite Hscan in Hscan'. by injection Hscan' as <-.
  - intros acc ra Hacc Hra.
    pose proof (Static_extract_accepted_spec m acc Hacc) as Haspec.
    pose proof (Static_extract_rooms_spec m acc ∅ ra Hra) as Hrspec.
    apply comprehend_is_Ok. intros b Hb.
    destruct (comprehend_is_Ok_inv _ _ b (ex_intro _ _ Hacc) Hb) as [ys Hys].
    apply bind_Ok_inv in Hys as (a & Ha & _). rewrite Ha. simpl.
    destruct a; [|by eexists].
    assert (Hin : b ∈ acc).
    { apply Haspec. by apply accepted_now_true. }
    destruct (Hrspec b) as [Hr _].
    destruct (Hr Hin) as (room & sd & _ & Hsd & Hscan).
    rewrite same_stay_days in Hsd by (by rewrite <- HB).
    rewrite Hsd. simpl. rewrite Hscan. by eexists.
Qed.

End Same.

Lemma slack_sum_same (sl : list (Z * Q)) :
  NoDup sl.*1 ->
  (fold_left Qplus (map_to_list (list_to_map sl : gmap Z Q)).*2 0
   == fold_left Qplus sl.*2 0)%Q.
Proof.
  intros Hnd. rewrite !fold_left_Qplus.
  rewrite (Qsum_Permutation _ (sl.*2)); [reflexivity|].
  by apply fmap_Permutation, map_to_list_to_map.
Qed.

(** X15. The two drivers agree. On a booking table whose start days all lie
    in the horizon, with the same solver and the same tolerance, the static
    driver given the same rows, days and rooms and no capacities hands the
    same models to the solver as the script's driver; one returns a result
    exactly when the other does, and then both report the same revenue, the
    same slack per day and in total, the same accepted bookings in the same
    order, and for each of them the same stay days and the same room. *)
Theorem X15_drivers_agree g available backend eps solver :
  starts_in_horizon g ->
  Mini.get_solver available = Ok solver ->
  let mini := Mini.run_two_tier_demo g available backend eps in
  let static :=
    Static.solve_two_tier_lco backend
      (Some (BookingSpec_of_row <$> Mini.bookings g))
      (Mini.DAYS g) (Mini.ROOMS g) None solver eps in
  mini.1 = static.1 /\
  (forall res, mini.2 = Ok res ->
     exists res', static.2 = Ok res' /\ same_report res res') /\
  (forall res', static.2 = Ok res' ->
     exists res, mini.2 = Ok res /\ same_report res res').
Proof.
  intros Hst Hs mini static. unfold mini, static.
  unfold Mini.run_two_tier_demo, Static.solve_two_tier_lco.
  rewrite (Static_build_of_Mini g Hst).
  destruct (Mini.build_model g) as [m|e] eqn:Hm.
  2: { split; [done|]. split; intros r [=]. }
  rewrite Hs. cbn [fst snd].
  set (tol := default (1 # 1000000)%Q eps).
  split; [by rewrite Mini_two_tier_session, Static_two_tier_session|].
  pose proof Hm as (_ & (HB & _ & HD) & (Hstart & Hlen & _) & _)
    %Mini_build_inv.
  pose proof (solve_tiers_live_data (backend solver) tol m)
    as (HB' & HD' & Hstart' & Hlen').
  unfold Mini.two_tier, Static.two_tier, mbind, M_bind, readM, mret, M_ret.
  destruct (solve_tiers (backend solver) tol {| live := m; calls := [] |})
    as [s' [Z1|e]] eqn:Hrun; cbn [fst snd] in *.
  2: { split; intros r [=]. }
  destruct (slack_values (live s')) as [sl|e] eqn:Hsl; cbn [fst snd].
  2: { split; intros r [=]. }
  assert (Hdata : same_data g (live s')).
  { unfold same_data. by rewrite HB', HD', Hstart', Hlen'. }
  assert (Hnd : NoDup sl.*1).
  { rewrite (slack_values_keys _ _ Hsl), HD', HD. apply NoDup_range. }
  destruct (same_extraction g (live s') Hst Hdata) as [Hfw Hbw].
  split.
  - intros res Hres.
    destruct (Mini.extract_assignments g (live s')) as [l|e] eqn:Hl;
      [|discriminate].
    cbn in Hres. injection Hres as <-.
    destruct (Hfw l eq_refl) as (ra & Hacc & Hra & Hrooms).
    rewrite Hacc. cbn. rewrite Hra. cbn. eexists. split; [reflexivity|].
    unfold same_report. cbn.
    split; [done|]. split; [done|]. split; [by apply slack_sum_same|].
    split; [done|exact Hrooms].
  - intros res' Hres'.
    destruct (Static.extract_accepted (live s')) as [acc|e] eqn:Hacc;
      [|discriminate].
    cbn in Hres'.
    destruct (Static.extract_rooms (live s') acc ∅) as [ra|e] eqn:Hra;
      [|discriminate].
    cbn in Hres'. injection Hres' as <-.
    destruct (Hbw acc ra eq_refl Hra) as [l Hl]. rewrite Hl. cbn.
    eexists. split; [reflexivity|].
    destruct (Hfw l Hl) as (ra' & Hacc' & Hra' & Hrooms).
    injection Hacc' as ->. rewrite Hra in Hra'. injection Hra' as <-.
    unfold same_report. cbn.
    split; [done|]. split; [done|]. split; [by apply slack_sum_same|].
    split; [done|exact Hrooms].
Qed.

(** On the small instance, both solves returning the diagonal point: both
    drivers return, and their results say the same. *)
Lemma X15_drivers_agree_witness :
  exists res res',
    (Mini.run_two_tier_demo Mini_tiny all_available (backend_at diagonal)
       None).2 = Ok res /\
    (Static.solve_two_tier_lco (backend_at diagonal)
       (Some (BookingSpec_of_row <$> Mini.bookings Mini_tiny)) 2 2 None
       "highs"%string None).2 = Ok res' /\
    same_report res res'.
Proof.
  assert (H : starts_in_horizon Mini_tiny).
  { unfold starts_in_horizon. apply (bool_decide_unpack _). vm_compute.
    reflexivity. }
  destruct (X15_drivers_agree Mini_tiny all_available (backend_at diagonal)
              None "highs"%string H eq_refl) as (_ & Hfw & _).
  destruct (Mini.build_model Mini_tiny) as [m|e] eqn:E;
    [|by vm_compute in E].
  assert (Hne : m_B m <> []).
  { pose proof E as E'. vm_compute in E'. injection E' as <-. discriminate. }
  destruct (Mini_demo_final Mini_tiny all_available (backend_at diagonal) None
              "highs"%string m OPTIMAL (loaded diagonal)
              (eval diagonal (m_RevExpr m)) OPTIMAL diagonal
              E eq_refl Hne eq_refl (value_loaded _ _) eq_refl)
    as (l & _ & Hres).
  destruct (Hfw _ Hres) as (res' & Hres' & Hsame).
  eexists. exists res'. split; [exact Hres|]. split; [exact Hres'|exact Hsame].
Defined.

(** ** Capacities are soft *)

Lemma pos_part_spec q :
  (0 <= pos_part q)%Q /\ (q <= pos_part q)%Q /\
  forall w, (0 <= w)%Q -> (q <= w)%Q -> (pos_part q <= w)%Q.
Proof.
  unfold pos_part. destruct (Qle_bool 0 q) eqn:E.
  - apply Qle_bool_iff in E. split_and!; [done|lra|auto].
  - assert (~ (0 <= q)%Q) by (rewrite <- Qle_bool_iff; congruence).
    split_and!; [lra|lra|auto].
Qed.

Section Soft.
Context (m m' : Model) (val : var -> Q).
Hypothesis Hb : built m.
Hypothesis Hb' : built m'.
Hypothesis Hf : feasible m val.
Hypothesis HB : m_B m' = m_B m.
Hypothesis HR : m_R m' = m_R m.
Hypothesis HD : m_D m' = m_D m.
Hypothesis HIS : m_InStay m' = m_InStay m.

(** A feasible point of [m] with its slack adjusted is a feasible point of
    a model [m'] that differs from [m] at most in the capacities and the
    show probabilities. *)
Lemma built_least_slack : feasible m' (least_slack m' val).
Proof.
  split.
  - intros b Hin. rewrite HB in Hin. exact (feas_a m val Hf b Hin).
  - intros b r d Hin. apply (feas_y m val Hf b r d).
    apply (bt_YIDX m Hb). apply (bt_YIDX m' Hb') in Hin.
    by rewrite <- HIS, <- HR.
  - intros d _. simpl. apply pos_part_spec.
  - intros [r d] c Hin. apply (bt_RoomExcl m' Hb') in Hin as (Hr & Hd & ->).
    rewrite HB, HIS. rewrite HR in Hr. rewrite HD in Hd.
    assert (Hin : (r, d, room_excl_constraint (m_B m) (m_InStay m) r d)
                  ∈ m_RoomExcl m) by by apply (bt_RoomExcl m Hb).
    pose proof (feas_RoomExcl m val Hf _ _ Hin) as H.
    unfold room_excl_constraint, holds in *. simpl in *.
    rewrite eval_py_sum, map_map in *. exact H.
  - intros [b d] c Hin. apply (bt_Assign m' Hb') in Hin as (Hbd & ->).
    rewrite HR. rewrite HIS in Hbd.
    assert (Hin : (b, d, assign_constraint (m_R m) b d) ∈ m_Assign m)
      by by apply (bt_Assign m Hb).
    pose proof (feas_Assign m val Hf _ _ Hin) as H.
    unfold assign_constraint, holds in *. simpl in *.
    rewrite eval_py_sum, map_map in *. exact H.
  - intros [[b r] d] c Hin.
    apply (bt_Continuity m' Hb') in Hin as (Hc & ->).
    apply (bt_ContPair m' Hb') in Hc. rewrite HIS, HR in Hc.
    assert (Hin : (b, r, d, continuity_constraint b r d) ∈ m_Continuity m).
    { apply (bt_Continuity m Hb). split; [|done].
      by apply (bt_ContPair m Hb). }
    exact (feas_Continuity m val Hf _ _ Hin).
  - intros d c Hin.
    apply (bt_Overbook m' Hb') in Hin as (Hd & cd & Hcd & ->).
    unfold overbooking_constraint, holds. simpl.
    rewrite eval_py_sum, map_map, Hcd. simpl.
    apply (pos_part_spec (expected_shows m' val d - inject_Z cd)).
  - intros c Hc. by rewrite (bt_floor m' Hb') in Hc.
Qed.

Lemma built_least_slack_revenue :
  m_price m' = m_price m -> m_len m' = m_len m ->
  m_RevExpr m' = m_RevExpr m /\
  (eval (least_slack m' val) (m_RevExpr m') == eval val (m_RevExpr m))%Q.
Proof.
  intros Hp Hl.
  assert (HE : m_RevExpr m' = m_RevExpr m).
  { by rewrite (bt_RevExpr m Hb), (bt_RevExpr m' Hb'), HB, Hp, Hl. }
  split; [done|].
  rewrite HE, (bt_RevExpr m Hb), !eval_py_sum, !map_map. reflexivity.
Qed.

End Soft.

Lemma built_least_slack_le m val d :
  built m -> feasible m val -> d ∈ m_D m ->
  (least_slack m val (Vw d) <= val (Vw d))%Q.
Proof.
  intros Hb Hf Hd.
  destruct (built_slack m val Hb Hf d Hd) as (c & Hc & Hle & H0).
  simpl. rewrite Hc. simpl. by apply pos_part_spec.
Qed.

(** X16. Capacities are soft. The capacities never restrict which bookings
    can be accepted or how they are assigned: a feasible point of the model
    built for some capacities becomes, once the slack of each day is set to
    [max(0, expected shows - capacity)], a feasible point with the same
    revenue of the model built from the same bookings, days and rooms for
    any other capacities; and in a built model no feasible point has less
    slack on any day than that. In the script, where the capacity is fixed,
    the same holds within the one model. *)
Theorem X16_capacities_are_soft :
  (forall g m val,
     Mini.build_model g = Ok m -> feasible m val ->
     feasible m (least_slack m val) /\
     (eval (least_slack m val) (m_RevExpr m) == eval val (m_RevExpr m))%Q /\
     forall d, 1 <= d <= Mini.DAYS g ->
       (least_slack m val (Vw d) <= val (Vw d))%Q) /\
  (forall bookings days rooms cap cap' m m' val,
     Static.build_static_lco_model bookings days rooms cap = Ok m ->
     Static.build_static_lco_model bookings days rooms cap' = Ok m' ->
     feasible m val ->
     feasible m' (least_slack m' val) /\
     m_RevExpr m' = m_RevExpr m /\
     (eval (least_slack m' val) (m_RevExpr m') == eval val (m_RevExpr m))%Q /\
     forall val' d, feasible m' val' -> 1 <= d <= days ->
       (least_slack m' val' (Vw d) <= val' (Vw d))%Q).
Proof.
  split.
  - intros g m val Hm Hf.
    pose proof Hm as (Hb & (_ & _ & HD) & _)%Mini_build_inv.
    split_and!.
    + by apply (built_least_slack m m val).
    + by apply (built_least_slack_revenue m m val).
    + intros d Hd. apply (built_least_slack_le m val d Hb Hf).
      rewrite HD. apply elem_of_range. lia.
  - intros bookings days rooms cap cap' m m' val Hm Hm' Hf.
    pose proof Hm as (Hb & (HB & HR & HD) & (Hst & Hlen & Hprice & _) & _ & _
                      & HIS)%Static_build_inv.
    pose proof Hm' as (Hb' & (HB' & HR' & HD') & (Hst' & Hlen' & Hprice' & _)
                       & _ & _ & HIS')%Static_build_inv.
    assert (HInStay : m_InStay m' = m_InStay m).
    { apply set_eq. intros [b d].
      by rewrite HIS, HIS', Hst, Hst', Hlen, Hlen'. }
    assert (Hbase : feasible m' (least_slack m' val)).
    { apply (built_least_slack m m' val); try done; congruence. }
    destruct (built_least_slack_revenue m m' val Hb Hb') as [HE Hrev];
      [congruence..|].
    split_and!; [done..|].
    intros val' d Hf' Hd. apply (built_least_slack_le m' val' d Hb' Hf').
    rewrite HD'. apply elem_of_range. lia.
Qed.

(** On the small instance: the diagonal point needs no slack on day 1
    (0.9 expected shows against a capacity of 2 rooms). *)
Lemma X16_capacities_are_soft_witness :
  exists m, Mini.build_model Mini_tiny = Ok m /\
    feasible m diagonal /\
    feasible m (least_slack m diagonal) /\
    (least_slack m diagonal (Vw 1) <= 0)%Q.
Proof.
  destruct (Mini.build_model Mini_tiny) as [m|e] eqn:E;
    [|by vm_compute in E].
  pose proof (Mini_tiny_feasible m E) as Hf.
  destruct (proj1 X16_capacities_are_soft Mini_tiny m diagonal E Hf)
    as (Hf' & _ & Hle).
  exists m. split; [reflexivity|]. split; [exact Hf|]. split; [exact Hf'|].
  exact (Hle 1 ltac:(simpl; lia)).
Defined.
